(** * The document store and the tool contract of the document-analysis agent

    A shallow embedding of [document_memory.py] (class [DocumentMemory]), of
    the tool functions of [document_agent.py] ([fetch_document],
    [extract_info], [search_document], [list_documents], [get_document]), of
    the method [run] of [agent_adapter.py] and of the banner and the command
    [list] of [main.py], followed by the properties the specification states
    about the store and the tools and by further properties of the code.

    Conventions of the embedding.
    - A Python [str] is the list of its code points ([list N]); [py "abc"]
      writes an ASCII literal.
    - Python values that flow through the tools dynamically typed (decoded
      JSON, the [information] and [results] lists, metadata) are terms of
      [value].
    - The file system, the in-memory index of the single [DocumentMemory]
      instance and the trace of observable effects (lines printed, files
      opened, HTTP requests and chat completions issued) are threaded through
      a state-and-exception monad [M]; [Raise] is a Python exception that
      propagates.  A [State] holds a constructed [DocumentMemory]: of the
      constructor, which creates the directory and loads the index, the
      loading ([_load_index]) is modelled on its own.
    - The library functions the properties depend on are modelled from their
      documented behaviour: [json.loads], the three regular expressions,
      [str.strip] and [str.split], [str.__format__], text-mode file input,
      [raise_for_status], and, for the index on disk, the encoder of
      [json.dump].  Those they do not depend on are fields of a [Runtime]
      ([hashlib.md5], [json.dumps], [repr], [str.upper]); a property about
      the text of the index file says that this text is the encoder's.
    - Files are read and written in text mode; writing a file succeeds and
      text is encoded without error (URLs and contents hold no lone
      surrogate), reading fails on a missing or unreadable file. *)

From stdpp Require Import base option list gmap strings.
From Stdlib Require Import NArith ZArith Lia Ascii DecimalString.
From Stdlib Require DecimalN DecimalPos DecimalFacts.

Local Open Scope N_scope.

(** ** Python strings *)

Abbreviation str := (list N).

Definition py (s : string) : str := Ascii.N_of_ascii <$> String.list_ascii_of_string s.
Arguments py s%_string : simpl never.

Definition chr (a : Ascii.ascii) : N := Ascii.N_of_ascii a.
Arguments chr a%_char : simpl never.

(** Code points the program or the libraries it calls test for. *)
Definition LF : N := 10.
Definition CR : N := 13.
Definition QUOTE : N := 34.       (* the double quote *)
Definition BACKSLASH : N := 92.

Module Str.

(** [str.isspace] on one code point: the characters [str.strip()] removes. *)
Definition isspace (c : N) : bool :=
  ((9 <=? c) && (c <=? 13)) || ((28 <=? c) && (c <=? 32))
  || (c =? 133) || (c =? 160) || (c =? 5760)
  || ((8192 <=? c) && (c <=? 8202))
  || (c =? 8232) || (c =? 8233) || (c =? 8239) || (c =? 8287) || (c =? 12288).

Fixpoint lstrip (s : str) : str :=
  match s with
  | c :: t => if isspace c then lstrip t else s
  | [] => []
  end.

Definition rstrip (s : str) : str := rev (lstrip (rev s)).

(** [s.strip()] *)
Definition strip (s : str) : str := rstrip (lstrip s).

(** [s.split(sep)] for a separator of one character. *)
Fixpoint split (sep : N) (s : str) : list str :=
  match s with
  | [] => [[]]
  | c :: t =>
      if c =? sep then [] :: split sep t
      else match split sep t with
           | p :: ps => (c :: p) :: ps
           | [] => [[c]]
           end
  end.

(** [s.startswith(p)] *)
Fixpoint startswith (s p : str) : bool :=
  match p, s with
  | [], _ => true
  | a :: p', c :: s' => (a =? c) && startswith s' p'
  | _ :: _, [] => false
  end.

(** [s.endswith(p)] *)
Definition endswith (s p : str) : bool := startswith (rev s) (rev p).

(** [s[:n]] *)
Definition slice_to (n : nat) (s : str) : str := take n s.

(** [sub in s] for strings. *)
Fixpoint contains (s sub : str) : bool :=
  startswith s sub || match s with
                      | [] => false
                      | _ :: t => contains t sub
                      end.

(** [str(n)] for a non-negative integer. *)
Definition of_N (n : N) : str := py (DecimalString.NilZero.string_of_uint (N.to_uint n)).

End Str.

(** [os.path.join(a, b)] of [posixpath]. *)
Definition path_join (a b : str) : str :=
  if Str.startswith b (py "/") then b
  else if bool_decide (a = []) || Str.endswith a (py "/") then a ++ b
  else a ++ py "/" ++ b.

(** ** Python values and exceptions *)

(** The values [json.loads] produces.  A [float] is kept as the literal it was
    decoded from ([NaN], [Infinity] and [-Infinity] included); a [dict] is the
    list of its items in insertion order, with distinct keys. *)
#[warnings="-register-all"]
Inductive value :=
| VNone
| VBool (b : bool)
| VInt (z : Z)
| VFloat (literal : str)
| VStr (s : str)
| VList (items : list value)
| VDict (items : list (str * value)).

(** [d[k] = v] on the items of a dict: an existing key keeps its place. *)
Fixpoint dict_set {A} (k : str) (v : A) (d : list (str * A)) : list (str * A) :=
  match d with
  | [] => [(k, v)]
  | (k', v') :: d' =>
      if bool_decide (k' = k) then (k, v) :: d' else (k', v') :: dict_set k v d'
  end.

(** [d.get(k)]; [None] is also the answer of [k in d]. *)
Fixpoint dict_get {A} (k : str) (d : list (str * A)) : option A :=
  match d with
  | [] => None
  | (k', v') :: d' => if bool_decide (k' = k) then Some v' else dict_get k d'
  end.

(** [dict(pairs)]: later pairs overwrite earlier ones. *)
Definition dict_of_pairs {A} (pairs : list (str * A)) : list (str * A) :=
  fold_left (fun d kv => dict_set kv.1 kv.2 d) pairs [].

(** An instance of a subclass of [Exception], [json.JSONDecodeError] apart
    (the decoder's syntax error is a result of its own, [JDecodeError] below,
    since both call sites of [json.loads] handle it on the spot).
    [exc_msg] is [str(e)]. *)
Record exc := Exc { exc_type : str; exc_msg : str }.

Inductive result (A : Type) :=
| Ret (a : A)
| Raise (e : exc).
Arguments Ret {A} a.
Arguments Raise {A} e.

(** ** [json.loads]

    The decoder of the standard [json] module with its default settings, as
    the C scanner implements it ([scan_once], [scanstring], the number
    matcher, the array and object loops), in strict mode.  [room] is the
    number of nested arrays and objects that can still be entered before the
    interpreter's recursion limit is hit; [gas] only makes the recursion
    structural ([JsonFacts.scan_once_gas] shows it never runs out). *)
Module Json.

Inductive presult (A : Type) :=
| POk (a : A) (rest : str)   (* decoded; [rest] is the text that follows *)
| PDecodeError               (* [json.JSONDecodeError] *)
| PRaise (e : exc)           (* any other exception *)
| PGas.
Arguments POk {A} a rest.
Arguments PDecodeError {A}.
Arguments PRaise {A} e.
Arguments PGas {A}.

Definition pmap {A B} (f : A -> B) (r : presult A) : presult B :=
  match r with
  | POk a rest => POk (f a) rest
  | PDecodeError => PDecodeError
  | PRaise e => PRaise e
  | PGas => PGas
  end.

(** The decoder's whitespace: space, tab, line feed, carriage return. *)
Definition is_ws (c : N) : bool := (c =? 32) || (c =? 9) || (c =? 10) || (c =? 13).

Fixpoint skip_ws (s : str) : str :=
  match s with
  | c :: t => if is_ws c then skip_ws t else s
  | [] => []
  end.

Definition is_digit (c : N) : bool := (48 <=? c) && (c <=? 57).

Definition hexval (c : N) : option N :=
  if is_digit c then Some (c - 48)
  else if (97 <=? c) && (c <=? 102) then Some (c - 87)
  else if (65 <=? c) && (c <=? 70) then Some (c - 55)
  else None.

(** The one-character escapes of a JSON string. *)
Definition unescape (c : N) : option N :=
  if c =? QUOTE then Some QUOTE
  else if c =? BACKSLASH then Some BACKSLASH
  else if c =? chr "/" then Some (chr "/")
  else if c =? chr "b" then Some 8
  else if c =? chr "f" then Some 12
  else if c =? chr "n" then Some 10
  else if c =? chr "r" then Some 13
  else if c =? chr "t" then Some 9
  else None.

Definition is_high_surrogate (c : N) : bool := (55296 <=? c) && (c <=? 56319).
Definition is_low_surrogate (c : N) : bool := (56320 <=? c) && (c <=? 57343).
Definition join_surrogates (hi lo : N) : N :=
  65536 + (hi - 55296) * 1024 + (lo - 56320).

(** Where [scanstring] stands inside a string.  [hi] is a high surrogate that
    the previous [\uXXXX] escape decoded and that waits for the escape that
    may complete the pair. *)
Inductive sstate :=
| SText (hi : option N)
| SEsc (hi : option N)                   (* after a backslash *)
| SHex (hi : option N) (k : nat) (v : N). (* in [\uXXXX], [k] digits read *)

Definition flush (hi : option N) (acc : str) : str :=
  match hi with
  | Some h => h :: acc
  | None => acc
  end.

(** [scanstring], from just after the opening quote; [acc] is the decoded
    text so far, reversed.  Running out of text is "Unterminated string". *)
Fixpoint scanstring_from (st : sstate) (acc : str) (s : str) : presult str :=
  match s with
  | [] => PDecodeError
  | c :: t =>
      match st with
      | SText hi =>
          if c =? QUOTE then POk (rev (flush hi acc)) t
          else if c =? BACKSLASH then scanstring_from (SEsc hi) acc t
          else if c <=? 31 then PDecodeError (* Invalid control character *)
          else scanstring_from (SText None) (c :: flush hi acc) t
      | SEsc hi =>
          if c =? chr "u" then scanstring_from (SHex hi 0 0) acc t
          else match unescape c with
               | Some d => scanstring_from (SText None) (d :: flush hi acc) t
               | None => PDecodeError (* Invalid \escape *)
               end
      | SHex hi k v =>
          match hexval c with
          | None => PDecodeError (* Invalid \uXXXX escape *)
          | Some d =>
              let v' := 16 * v + d in
              if (k <? 3)%nat then scanstring_from (SHex hi (S k) v') acc t
              else match hi with
                   | Some h =>
                       if is_low_surrogate v'
                       then scanstring_from (SText None) (join_surrogates h v' :: acc) t
                       else if is_high_surrogate v'
                       then scanstring_from (SText (Some v')) (h :: acc) t
                       else scanstring_from (SText None) (v' :: h :: acc) t
                   | None =>
                       if is_high_surrogate v'
                       then scanstring_from (SText (Some v')) acc t
                       else scanstring_from (SText None) (v' :: acc) t
                   end
          end
      end
  end.

Definition scanstring (s : str) : presult str := scanstring_from (SText None) [] s.

(** The maximal run of ASCII digits at the head of [s], and what follows. *)
Fixpoint span_digits (s : str) : str * str :=
  match s with
  | c :: t => if is_digit c then let '(d, r) := span_digits t in (c :: d, r) else ([], s)
  | [] => ([], [])
  end.

(** An optional minus sign, then [0] or a digit [1]-[9] with the digits that
    follow it. *)
Definition match_int (s : str) : option (str * str) :=
  let '(sign, s1) := match s with
                     | c :: t => if c =? chr "-" then ([c], t) else ([], s)
                     | [] => ([], s)
                     end in
  match s1 with
  | c :: t =>
      if (49 <=? c) && (c <=? 57)
      then let '(d, r) := span_digits t in Some (sign ++ c :: d, r)
      else if c =? 48 then Some (sign ++ [c], t)
      else None
  | [] => None
  end.

(** A dot and at least one digit. *)
Definition match_frac (s : str) : option (str * str) :=
  match s with
  | c :: d :: t =>
      if (c =? chr ".") && is_digit d
      then let '(ds, r) := span_digits t in Some (c :: d :: ds, r)
      else None
  | _ => None
  end.

(** [e] or [E], an optional sign, and at least one digit. *)
Definition match_exp (s : str) : option (str * str) :=
  match s with
  | e :: t =>
      if (e =? chr "e") || (e =? chr "E") then
        let '(sign, t1) := match t with
                           | c :: t' =>
                               if (c =? chr "+") || (c =? chr "-") then ([c], t')
                               else ([], t)
                           | [] => ([], t)
                           end in
        match span_digits t1 with
        | (d :: ds, r) => Some (e :: sign ++ d :: ds, r)
        | ([], _) => None
        end
      else None
  | [] => None
  end.

(** [int(lexeme)] for a lexeme of [match_int]. *)
Definition int_of_lexeme (lexeme : str) : Z :=
  let digits := filter (fun c => is_digit c = true) lexeme in
  let magnitude := fold_left (fun n c => 10 * n + (c - 48)) digits 0 in
  if Str.startswith lexeme (py "-") then (- Z.of_N magnitude)%Z else Z.of_N magnitude.

(** CPython's limit on the digits of a decimal string converted to [int]
    ([sys.int_info.default_max_str_digits]). *)
Definition int_max_str_digits : nat := 4300.

Definition int_digits_error (n : nat) : exc :=
  Exc (py "ValueError")
      (py "Exceeds the limit (4300 digits) for integer string conversion: value has "
       ++ Str.of_N (N.of_nat n)
       ++ py " digits; use sys.set_int_max_str_digits() to increase the limit").

(** The number matcher: an integer part, then an optional fraction and an
    optional exponent; either makes the number a [float]. *)
Definition match_number (s : str) : presult value :=
  match match_int s with
  | None => PDecodeError
  | Some (i, r) =>
      let '(f, r1) := match match_frac r with
                      | Some (f, r1) => (f, r1)
                      | None => ([], r)
                      end in
      let '(e, r2) := match match_exp r1 with
                      | Some (e, r2) => (e, r2)
                      | None => ([], r1)
                      end in
      if bool_decide (f = [] /\ e = []) then
        let n := length (filter (fun c => is_digit c = true) i) in
        if (int_max_str_digits <? n)%nat then PRaise (int_digits_error n)
        else POk (VInt (int_of_lexeme i)) r2
      else POk (VFloat (i ++ f ++ e)) r2
  end.

(** The named constants, tried before the number matcher. *)
Definition constants : list (str * value) :=
  [ (py "null", VNone); (py "true", VBool true); (py "false", VBool false);
    (py "NaN", VFloat (py "NaN")); (py "Infinity", VFloat (py "Infinity"));
    (py "-Infinity", VFloat (py "-Infinity")) ].

Fixpoint match_constant (cs : list (str * value)) (s : str) : option (value * str) :=
  match cs with
  | [] => None
  | (name, v) :: cs' =>
      if Str.startswith s name then Some (v, drop (length name) s)
      else match_constant cs' s
  end.

(** [scan_once] on anything but a string, an array or an object. *)
Definition scan_atom (s : str) : presult value :=
  match match_constant constants s with
  | Some (v, r) => POk v r
  | None => match_number s
  end.

Definition recursion_error (what : str) : exc :=
  Exc (py "RecursionError")
      (py "maximum recursion depth exceeded while decoding a JSON " ++ what
       ++ py " from a unicode string").

Fixpoint scan_once (gas room : nat) (s : str) {struct gas} : presult value :=
  match gas with
  | O => PGas
  | S gas =>
      match s with
      | [] => PDecodeError (* Expecting value *)
      | c :: t =>
          if c =? QUOTE then pmap VStr (scanstring t)
          else if c =? chr "{" then
            match room with
            | O => PRaise (recursion_error (py "object"))
            | S room =>
                match skip_ws t with
                | c' :: t' =>
                    if c' =? chr "}" then POk (VDict []) t'
                    else pmap VDict (object_items gas room (c' :: t') [])
                | [] => PDecodeError
                end
            end
          else if c =? chr "[" then
            match room with
            | O => PRaise (recursion_error (py "array"))
            | S room =>
                match skip_ws t with
                | c' :: t' =>
                    if c' =? chr "]" then POk (VList []) t'
                    else pmap VList (array_items gas room (c' :: t') [])
                | [] => PDecodeError
                end
            end
          else scan_atom s
      end
  end
(** The loop of the array decoder: [s] stands at an element, [acc] holds the
    elements before it, reversed. *)
with array_items (gas room : nat) (s : str) (acc : list value) {struct gas}
    : presult (list value) :=
  match gas with
  | O => PGas
  | S gas =>
      match scan_once gas room s with
      | POk v r =>
          match skip_ws r with
          | c :: t =>
              if c =? chr "]" then POk (rev (v :: acc)) t
              else if c =? chr "," then array_items gas room (skip_ws t) (v :: acc)
              else PDecodeError (* Expecting ',' delimiter *)
          | [] => PDecodeError
          end
      | PDecodeError => PDecodeError
      | PRaise e => PRaise e
      | PGas => PGas
      end
  end
(** The loop of the object decoder: [s] stands where a key must start. *)
with object_items (gas room : nat) (s : str) (acc : list (str * value)) {struct gas}
    : presult (list (str * value)) :=
  match gas with
  | O => PGas
  | S gas =>
      match s with
      | q :: t =>
          if q =? QUOTE then
            match scanstring t with
            | POk key r =>
                match skip_ws r with
                | c :: r1 =>
                    if c =? chr ":" then
                      match scan_once gas room (skip_ws r1) with
                      | POk v r2 =>
                          match skip_ws r2 with
                          | c' :: t' =>
                              if c' =? chr "}"
                              then POk (dict_of_pairs (rev ((key, v) :: acc))) t'
                              else if c' =? chr ","
                              then object_items gas room (skip_ws t') ((key, v) :: acc)
                              else PDecodeError (* Expecting ',' delimiter *)
                          | [] => PDecodeError
                          end
                      | PDecodeError => PDecodeError
                      | PRaise e => PRaise e
                      | PGas => PGas
                      end
                    else PDecodeError (* Expecting ':' delimiter *)
                | [] => PDecodeError
                end
            | PDecodeError => PDecodeError
            | PRaise e => PRaise e
            | PGas => PGas
            end
          else PDecodeError (* Expecting property name enclosed in double quotes *)
      | [] => PDecodeError
      end
  end.

(** What [json.loads(s)] does: a value, [json.JSONDecodeError], or another
    exception. *)
Inductive outcome :=
| JOk (v : value)
| JDecodeError
| JRaise (e : exc).

Definition gas_for (s : str) : nat := S (2 * length s).

(** A result obtained within the gas, and that consumed some of the text
    [s]. *)
Definition well_fuelled {A} (s : str) (p : presult A) : Prop :=
  p <> PGas /\ forall v r, p = POk v r -> (length r < length s)%nat.

(** [json.loads(s)]: a leading byte-order mark is refused; whitespace around
    the value is skipped; anything after it is "Extra data". *)
Definition loads (room : nat) (s : str) : outcome :=
  if Str.startswith s [65279] then JDecodeError
  else
    match scan_once (gas_for s) room (skip_ws s) with
    | POk v r => if bool_decide (skip_ws r = []) then JOk v else JDecodeError
    | PDecodeError => JDecodeError
    | PRaise e => JRaise e
    | PGas => JDecodeError
    end.

End Json.

(** ** The three regular expressions of the tools

    Each function is the leftmost, greedy match semantics of [re] worked out
    for one fixed pattern. *)
Module Re.

(** The longest prefix of [s] that ends with [c]: what a greedy [.*] followed
    by [c] matches at the head of [s] (with [re.DOTALL], [.] is any
    character). *)
Fixpoint through_last (c : N) (s : str) : option str :=
  match s with
  | [] => None
  | x :: t =>
      match through_last c t with
      | Some p => Some (x :: p)
      | None => if x =? c then Some [x] else None
      end
  end.

(** [re.search] of the pattern [\[.*\]] under [re.DOTALL], as
    [match.group(0)]: at the first position where it can, an opening bracket
    and everything up to the last closing bracket of [s]. *)
Fixpoint search_bracket (s : str) : option str :=
  match s with
  | [] => None
  | x :: t =>
      match (if x =? chr "[" then through_last (chr "]") t else None) with
      | Some p => Some (x :: p)
      | None => search_bracket t
      end
  end.

(** [re.sub] of the pattern [<[^>]+>] by the empty string.  [pending] is [Some b] after an opening
    angle bracket at which a match is being tried, [b] being the characters
    read since (reversed): the match succeeds at the first closing bracket
    if [b] is not empty, and is deleted; it fails at [<>] and at the end of
    the text, where the characters are kept (no later match can start among
    them, for want of a closing bracket). *)
Fixpoint sub_tags_from (pending : option str) (s : str) : str :=
  match s with
  | [] =>
      match pending with
      | Some b => chr "<" :: rev b
      | None => []
      end
  | c :: t =>
      match pending with
      | None =>
          if c =? chr "<" then sub_tags_from (Some []) t
          else c :: sub_tags_from None t
      | Some b =>
          if c =? chr ">" then
            match b with
            | [] => chr "<" :: c :: sub_tags_from None t
            | _ :: _ => sub_tags_from None t
            end
          else sub_tags_from (Some (c :: b)) t
      end
  end.

Definition sub_tags (s : str) : str := sub_tags_from None s.

(** [re.findall] of the pattern made of a double quote, the group [([^q]+)]
    where [q] is the double quote, and a double quote: the texts between an
    opening quote and the next quote, when not empty; at an empty pair the
    second quote is tried as an opening one. *)
Fixpoint findall_quoted_from (pending : option str) (s : str) : list str :=
  match s with
  | [] => []
  | c :: t =>
      match pending with
      | None =>
          if c =? QUOTE then findall_quoted_from (Some []) t
          else findall_quoted_from None t
      | Some b =>
          if c =? QUOTE then
            match b with
            | [] => findall_quoted_from (Some []) t
            | _ :: _ => rev b :: findall_quoted_from None t
            end
          else findall_quoted_from (Some (c :: b)) t
      end
  end.

Definition findall_quoted (s : str) : list str := findall_quoted_from None s.

(** [re.split] on the pattern [\n\s*\n].  [cur] is the piece being read (reversed).
    [pending] is [Some (closed, tail)] after a line feed at which a match is
    being tried: [closed] tells whether a second line feed was met in the run
    of whitespace that follows (the match then ends at the last one), [tail]
    is the whitespace read since the last line feed (reversed). *)
Fixpoint split_blank_from (cur : str) (pending : option (bool * str)) (s : str)
    : list str :=
  match s with
  | [] =>
      match pending with
      | None => [rev cur]
      | Some (true, tail) => [rev cur; rev tail]
      | Some (false, tail) => [rev (tail ++ LF :: cur)]
      end
  | c :: t =>
      match pending with
      | None =>
          if c =? LF then split_blank_from cur (Some (false, [])) t
          else split_blank_from (c :: cur) None t
      | Some (closed, tail) =>
          if c =? LF then split_blank_from cur (Some (true, [])) t
          else if Str.isspace c then split_blank_from cur (Some (closed, c :: tail)) t
          else if closed then rev cur :: split_blank_from (c :: tail) None t
          else split_blank_from (c :: tail ++ LF :: cur) None t
      end
  end.

Definition split_blank (s : str) : list str := split_blank_from [] None s.

End Re.

(** ** [str.__format__]

    What a replacement field [{expr:spec}] of an f-string does with a [str]:
    the format-specification parser of CPython
    ([[[fill]align][sign][z][#][0][width][grouping][.precision][type]]) and
    the rendering of a string under a valid specification. *)
Module Format.

Record spec := {
  fill : N;
  align : option N;
  sign : option N;
  no_neg_0 : bool;
  alternate : bool;
  width : option N;
  grouping : option N;
  precision : option N;
  type : option N;
}.

Definition value_error (msg : str) : exc := Exc (py "ValueError") msg.

Definition is_align (c : N) : bool :=
  (c =? chr "<") || (c =? chr ">") || (c =? chr "=") || (c =? chr "^").
Definition is_sign (c : N) : bool :=
  (c =? chr "+") || (c =? chr "-") || (c =? chr " ").

(** One optional character: whether it was there, and the rest. *)
Definition flag (c : N) (s : str) : bool * str :=
  match s with
  | x :: t => if x =? c then (true, t) else (false, s)
  | [] => (false, s)
  end.

Definition number (digits : str) : option N :=
  match digits with
  | [] => None
  | _ => Some (fold_left (fun n c => 10 * n + (c - 48)) digits 0)
  end.

(** Lower-case hexadecimal digits of a number, most significant first. *)
Fixpoint hex_from (fuel : nat) (n : N) (acc : str) : str :=
  match fuel with
  | O => acc
  | S fuel' =>
      let d := n mod 16 in
      let acc' := (if d <? 10 then 48 + d else 87 + d) :: acc in
      if n / 16 =? 0 then acc' else hex_from fuel' (n / 16) acc'
  end.
Definition hex (n : N) : str := hex_from (S (N.to_nat (N.log2 n))) n [].

(** How a presentation type is quoted in an error message: as itself when
    it is printable ASCII, by its code otherwise. *)
Definition quote_code (c : N) : str :=
  if (32 <? c) && (c <? 128) then [c] else BACKSLASH :: chr "x" :: hex c.

(** The specification parser, for an object of type [str] (default type [s],
    default alignment [<]). *)
Definition parse (text : str) : result spec :=
  let '(f, a, filled, s) :=
    match text with
    | x :: y :: t =>
        if is_align y then (x, Some y, true, t)
        else if is_align x then (chr " ", Some x, false, y :: t)
        else (chr " ", None, false, text)
    | [x] => if is_align x then (chr " ", Some x, false, []) else (chr " ", None, false, text)
    | [] => (chr " ", None, false, text)
    end in
  let '(sg, s) := match s with
                  | x :: t => if is_sign x then (Some x, t) else (None, s)
                  | [] => (None, s)
                  end in
  let '(z, s) := flag (chr "z") s in
  let '(alt, s) := flag (chr "#") s in
  let '(f, s) := if filled then (f, s)
                 else let '(zero, s') := flag (chr "0") s in
                      (if zero then chr "0" else f, s') in
  let '(w, s) := Json.span_digits s in
  let '(comma, s) := flag (chr ",") s in
  let '(underscore, s) := flag (chr "_") s in
  if (comma && underscore) || (underscore && Str.startswith s (py ","))
  then Raise (value_error (py "Cannot specify both ',' and '_'."))
  else
    let '(dot, s) := flag (chr ".") s in
    let '(p, s) := if dot then Json.span_digits s else ([], s) in
    if dot && bool_decide (p = [])
    then Raise (value_error (py "Format specifier missing precision"))
    else
      match s with
      | _ :: _ :: _ =>
          Raise (value_error (py "Invalid format specifier '" ++ text
                              ++ py "' for object of type 'str'"))
      | _ =>
          let ty := head s in
          if (comma || underscore) && negb (bool_decide (ty = None))
             && negb (existsb (fun c => bool_decide (ty = Some c)) (py "defgEG%F"))
             && negb (underscore && existsb (fun c => bool_decide (ty = Some c)) (py "boxX"))
          then Raise (value_error (py "Cannot specify '"
                                   ++ (if comma then py "," else py "_")
                                   ++ py "' with '" ++ from_option quote_code [] ty
                                   ++ py "'."))
          else if (comma || underscore) && bool_decide (ty = None)
          then Raise (value_error (py "Cannot specify '"
                                   ++ (if comma then py "," else py "_")
                                   ++ py "' with 's'."))
          else Ret {| fill := f; align := a; sign := sg; no_neg_0 := z;
                      alternate := alt; width := number w;
                      grouping := if comma then Some (chr ",")
                                  else if underscore then Some (chr "_") else None;
                      precision := number p; type := ty |}
      end.

(** The rendering of the string [s] under a parsed specification. *)
Definition render (s : str) (f : spec) : result str :=
  if negb (bool_decide (type f = None \/ type f = Some (chr "s")))
  then Raise (value_error (py "Unknown format code '" ++ from_option quote_code [] (type f)
                           ++ py "' for object of type 'str'"))
  else if bool_decide (sign f = Some (chr " "))
  then Raise (value_error (py "Space not allowed in string format specifier"))
  else if negb (bool_decide (sign f = None))
  then Raise (value_error (py "Sign not allowed in string format specifier"))
  else if no_neg_0 f
  then Raise (value_error (py "Negative zero coercion (z) not allowed in string format specifier"))
  else if alternate f
  then Raise (value_error (py "Alternate form (#) not allowed in string format specifier"))
  else if bool_decide (align f = Some (chr "="))
  then Raise (value_error (py "'=' alignment not allowed in string format specifier"))
  else
    let body := match precision f with
                | Some p => take (N.to_nat p) s
                | None => s
                end in
    let pad := (N.to_nat (default 0%N (width f)) - length body)%nat in
    let left := if bool_decide (align f = Some (chr ">")) then pad
                else if bool_decide (align f = Some (chr "^")) then (pad / 2)%nat
                else 0%nat in
    Ret (replicate left (fill f) ++ body ++ replicate (pad - left) (fill f)).

(** [format(s, spec)] for a string [s]; an empty specification is [str(s)]. *)
Definition format_str (s text : str) : result str :=
  match text with
  | [] => Ret s
  | _ => match parse text with
         | Ret f => render s f
         | Raise e => Raise e
         end
  end.

End Format.

(** ** The process: state, effects and exceptions *)

(** Services of the Python runtime that the program calls and whose results
    no property below depends on. *)
Record Runtime := {
  (** [hashlib.md5(s.encode()).hexdigest()] *)
  md5_hexdigest : str -> str;
  (** [json.dumps(v, indent=...)] *)
  json_dumps : option nat -> value -> str;
  (** [repr(v)] *)
  py_repr : value -> str;
  (** [s.upper()] *)
  str_upper : str -> str;
  (** How many nested JSON arrays and objects the decoder can enter before
      the recursion limit of the interpreter is reached. *)
  recursion_room : nat;
}.

(** A file as [open(path, 'r')] finds it. *)
Inductive file :=
| Readable (text : str)
| Unreadable (e : exc).   (* [open] or [read] raises [e] *)

Record Response := {
  status_code : N;
  reason : str;
  response_url : str;
  text : str;
}.

(** What [requests.get(url)] does. *)
Inductive http_outcome :=
| HttpRaises (e : exc)
| HttpResponse (r : Response).

(** What [client.chat.completions.create(...)] followed by
    [response.choices[0].message.content] does. *)
Inductive completion :=
| ChatRaises (e : exc)
| ChatContent (content : option str).   (* [None] when the message has no text *)

(** The effects an observer of the process sees, in order. *)
Inductive event :=
| EvPrint (line : str)
| EvOpenRead (path : str)
| EvOpenWrite (path : str)
| EvHttpGet (url : str)
| EvChat (prompt : str).

Record doc_info := {
  info_url : str;
  info_path : str;
  info_metadata : list (str * value);
}.

(** An instance of [DocumentMemory].  [document_index] holds the items of
    [self.document_index["documents"]]; [self.index_file] is computed from
    [storage_dir] ([index_file] below). *)
Record DocumentMemory := {
  storage_dir : str;
  document_index : list (str * doc_info);
}.

(** The module-level instance [document_memory], the files, the trace, and
    what the world answers: the web ([network]), the model endpoint ([llm],
    by prompt) and the clock ([str(datetime.now())]). *)
Record State := {
  document_memory : DocumentMemory;
  files : gmap str file;
  trace : list event;
  network : str -> http_outcome;
  llm : str -> completion;
  clock : str;
}.

Definition set_document_memory (m : DocumentMemory) (st : State) : State :=
  {| document_memory := m; files := files st; trace := trace st;
     network := network st; llm := llm st; clock := clock st |}.
Definition set_files (f : gmap str file) (st : State) : State :=
  {| document_memory := document_memory st; files := f; trace := trace st;
     network := network st; llm := llm st; clock := clock st |}.
Definition set_trace (t : list event) (st : State) : State :=
  {| document_memory := document_memory st; files := files st; trace := t;
     network := network st; llm := llm st; clock := clock st |}.
Definition set_network (n : str -> http_outcome) (st : State) : State :=
  {| document_memory := document_memory st; files := files st; trace := trace st;
     network := n; llm := llm st; clock := clock st |}.

Definition M (A : Type) : Type := State -> result A * State.

#[global] Instance M_ret : MRet M := fun A a st => (Ret a, st).
#[global] Instance M_bind : MBind M := fun A B f m st =>
  match m st with
  | (Ret a, st') => f a st'
  | (Raise e, st') => (Raise e, st')
  end.

Definition raise {A} (e : exc) : M A := fun st => (Raise e, st).
Definition lift {A} (r : result A) : M A := fun st => (r, st).
Definition get_state : M State := fun st => (Ret st, st).
Definition emit (ev : event) : M unit :=
  fun st => (Ret (), set_trace (trace st ++ [ev]) st).

(** [try: body  except Exception as e: handler(e)] *)
Definition try_except {A} (body : M A) (handler : exc -> M A) : M A :=
  fun st =>
    match body st with
    | (Ret a, st') => (Ret a, st')
    | (Raise e, st') => handler e st'
    end.

(** [print(line)] *)
Definition print (line : str) : M unit := emit (EvPrint line).

(** Text-mode input with the default [newline=None] ("universal newlines"
    of [open]): the line endings carriage return + line feed and lone
    carriage return are translated into a line feed before the text is
    returned to the caller. *)
Fixpoint universal_newlines (s : str) : str :=
  match s with
  | [] => []
  | c :: t =>
      if c =? CR then
        LF :: match t with
              | c' :: t' => if c' =? LF then universal_newlines t' else universal_newlines t
              | [] => []
              end
      else c :: universal_newlines t
  end.

(** [with open(path, 'w') as f: f.write(data)].  Text-mode output writes a
    line feed as [os.linesep], which is a line feed on POSIX: the characters
    are written as they are.  The storage directory exists (the constructor
    made it) and writing succeeds. *)
Definition write_text (path data : str) : M unit :=
  fun st =>
    (Ret (), set_files (<[path := Readable data]> (files st))
                       (set_trace (trace st ++ [EvOpenWrite path]) st)).

Section Program.

Context (rt : Runtime).

Definition file_not_found (path : str) : exc :=
  Exc (py "FileNotFoundError")
      (py "[Errno 2] No such file or directory: " ++ py_repr rt (VStr path)).

(** [with open(path, 'r') as f: f.read()] *)
Definition read_text (path : str) : M str :=
  fun st =>
    let st' := set_trace (trace st ++ [EvOpenRead path]) st in
    match files st !! path with
    | Some (Readable data) => (Ret (universal_newlines data), st')
    | Some (Unreadable e) => (Raise e, st')
    | None => (Raise (file_not_found path), st')
    end.

(** ** [document_memory.py] *)

(** A retrieved document: the dict [get_document] returns. *)
Record Document := {
  doc_id : str;
  doc_url : str;
  doc_content : str;
  doc_metadata : list (str * value);
}.

(** An item of [list_documents]. *)
Record Listing := {
  listing_id : str;
  listing_url : str;
  listing_metadata : list (str * value);
}.

Definition index_file (self : DocumentMemory) : str :=
  path_join (storage_dir self) (py "index.json").

(** [self.document_index] as the JSON value it is. *)
Definition index_value (self : DocumentMemory) : value :=
  VDict [(py "documents",
          VDict ((fun e : str * doc_info =>
                    (e.1, VDict [(py "url", VStr (info_url e.2));
                                 (py "path", VStr (info_path e.2));
                                 (py "metadata", VDict (info_metadata e.2))]))
                 <$> document_index self))].

Definition _save_index : M unit :=
  st ← get_state;
  let self := document_memory st in
  write_text (index_file self) (json_dumps rt (Some 2%nat) (index_value self)).

Definition _generate_doc_id (url : str) : str := md5_hexdigest rt url.

Definition store_document (url content : str) (metadata : option (list (str * value)))
    : M str :=
  let doc_id := _generate_doc_id url in
  st ← get_state;
  let self := document_memory st in
  let doc_path := path_join (storage_dir self) (doc_id ++ py ".txt") in
  write_text doc_path content;;
  (fun st => (Ret (), set_document_memory
                        {| storage_dir := storage_dir self;
                           document_index :=
                             dict_set doc_id
                               {| info_url := url; info_path := doc_path;
                                  info_metadata := default [] metadata |}
                               (document_index self) |} st));;
  _save_index;;
  mret doc_id.

Definition get_document (doc_id : str) : M (option Document) :=
  st ← get_state;
  match dict_get doc_id (document_index (document_memory st)) with
  | None => mret None
  | Some doc_info =>
      try_except
        (content ← read_text (info_path doc_info);
         mret (Some {| doc_id := doc_id; doc_url := info_url doc_info;
                       doc_content := content;
                       doc_metadata := info_metadata doc_info |}))
        (fun e =>
           print (py "Error retrieving document " ++ doc_id ++ py ": " ++ exc_msg e);;
           mret None)
  end.

Definition get_document_by_url (url : str) : M (option Document) :=
  get_document (_generate_doc_id url).

Definition list_documents (self : DocumentMemory) : list Listing :=
  (fun e : str * doc_info =>
     {| listing_id := e.1; listing_url := info_url e.2;
        listing_metadata := info_metadata e.2 |})
  <$> document_index self.

End Program.

(** ** [document_agent.py]: the tool functions *)
Module Tools.
Section Tools.

Context (rt : Runtime).

Record FetchDocumentOutput := { content : str }.
Record ExtractInfoOutput := { information : value }.
Record SearchDocumentOutput := { results : list value }.
Record ListDocumentsOutput := { documents : list Listing }.
Record GetDocumentOutput := { found_content : str; metadata : list (str * value) }.
(* [found_content] is the key ["content"] of the dict [get_document] returns. *)

Definition type_error (msg : str) : exc := Exc (py "TypeError") msg.

(** [type(v).__name__] *)
Definition type_name (v : value) : str :=
  match v with
  | VNone => py "NoneType"
  | VBool _ => py "bool"
  | VInt _ => py "int"
  | VFloat _ => py "float"
  | VStr _ => py "str"
  | VList _ => py "list"
  | VDict _ => py "dict"
  end.

(** [str(v)] *)
Definition py_str (v : value) : str :=
  match v with
  | VStr s => s
  | _ => py_repr rt v
  end.

(** [OllamaClient(model_name=...)]: the constructor announces the model. *)
Definition OllamaClient (model_name : str) : M unit :=
  print (py "Using Ollama model: " ++ model_name).

(** [client.chat.completions.create(model="mistral", messages=[{"role":
    "user", "content": prompt}], temperature=0.1)] and the content of the
    first choice. *)
Definition chat_completions_create (prompt : str) : M (option str) :=
  emit (EvChat prompt);;
  st ← get_state;
  match llm st prompt with
  | ChatRaises e => raise e
  | ChatContent c => mret c
  end.

(** [requests.get(url)] *)
Definition requests_get (url : str) : M Response :=
  emit (EvHttpGet url);;
  st ← get_state;
  match network st url with
  | HttpRaises e => raise e
  | HttpResponse r => mret r
  end.

(** The [HTTPError] that [response.raise_for_status()] raises, if any: one
    for a 4xx status and one for a 5xx status, none otherwise. *)
Definition status_error (r : Response) : option exc :=
  let http_error (kind : str) :=
    Exc (py "HTTPError")
        (Str.of_N (status_code r) ++ py " " ++ kind ++ py " Error: " ++ reason r
         ++ py " for url: " ++ response_url r) in
  if (400 <=? status_code r) && (status_code r <? 500) then Some (http_error (py "Client"))
  else if (500 <=? status_code r) && (status_code r <? 600) then Some (http_error (py "Server"))
  else None.

(** [response.raise_for_status()] *)
Definition raise_for_status (r : Response) : M unit :=
  match status_error r with
  | Some e => raise e
  | None => mret ()
  end.

(** [str(datetime.now())] *)
Definition datetime_now : M str := st ← get_state; mret (clock st).

(** Lines 62-70: the body of the [try] of [fetch_document]. *)
Definition fetch_from_url (url : str) : M FetchDocumentOutput :=
  print (py "Fetching document from URL: " ++ url);;
  response ← requests_get url;
  raise_for_status response;;
  let content := Re.sub_tags (text response) in
  now ← datetime_now;
  store_document rt url content (Some [(py "fetched_at", VStr now)]);;
  mret {| content := content |}.

Definition fetch_document (url : str) : M FetchDocumentOutput :=
  cached_doc ← get_document_by_url rt url;
  match cached_doc with
  | Some doc =>
      print (py "Retrieved document from memory: " ++ url);;
      mret {| content := doc_content doc |}
  | None =>
      try_except
        (fetch_from_url url)
        (fun e => mret {| content := py "Error fetching document: " ++ exc_msg e |})
  end.

(** The prompt of [extract_info] (an f-string whose replacement fields have
    no format specification). *)
Definition extract_prompt (text info_type : str) : str :=
  [LF] ++ py "    Extract all " ++ info_type ++ py " from the following text." ++
  [LF] ++ py "    Return ONLY a JSON array with the items." ++
  [LF] ++
  [LF] ++ py "    TEXT:" ++
  [LF] ++ py "    " ++ Str.slice_to 2000 text
       ++ py "  # Limit text length to prevent context overflow" ++
  [LF] ++
  [LF] ++ py "    JSON ARRAY OF " ++ str_upper rt info_type ++ py ":" ++
  [LF] ++ py "    ".

Definition fence : str := py "```".

(** The lines of the reply, stripped, that are not empty and neither start
    nor end with a code fence. *)
Definition reply_lines (result_text : str) : list str :=
  filter (fun line => negb (bool_decide (line = [])) && negb (Str.startswith line fence)
                      && negb (Str.endswith line fence) = true)
         (Str.strip <$> Str.split LF result_text).

Definition comma_items (result_text : str) : list str :=
  Str.strip <$> Str.split (chr ",") result_text.

Definition is_list (v : value) : bool :=
  match v with
  | VList _ => true
  | _ => false
  end.

(** Lines 114-121: the handler of [json.JSONDecodeError]. *)
Definition split_fallback (result_text : str) : list str :=
  match reply_lines result_text with
  | [] => comma_items result_text
  | information => information
  end.

(** Lines 100-121 of [extract_info]: the reply parsed into [information].
    With a bracketed span, [json.JSONDecodeError] goes to the handler of
    line 113 and any other exception propagates; without one, the bare
    [except] of line 111 handles every exception. *)
Definition extract_parse (result_text : str) : result value :=
  match Re.search_bracket result_text with
  | Some group0 =>
      match Json.loads (recursion_room rt) group0 with
      | Json.JOk information => Ret information
      | Json.JDecodeError => Ret (VList (VStr <$> split_fallback result_text))
      | Json.JRaise e => Raise e
      end
  | None =>
      match Json.loads (recursion_room rt) result_text with
      | Json.JOk information =>
          if is_list information then Ret information
          else Ret (VList [VStr (Str.strip result_text)])
      | Json.JDecodeError | Json.JRaise _ =>
          Ret (VList [VStr (Str.strip result_text)])
      end
  end.

(** Lines 91-121: the body of the outer [try] of [extract_info].  Slicing a
    content that is [None] raises [TypeError]. *)
Definition extract_reply (prompt : str) : M value :=
  content ← chat_completions_create prompt;
  match content with
  | None => raise (type_error (py "'NoneType' object is not subscriptable"))
  | Some result_text =>
      print (py "Extract info response: " ++ Str.slice_to 100 result_text ++ py "...");;
      lift (extract_parse result_text)
  end.

Definition extract_info (text info_type : str) : M ExtractInfoOutput :=
  OllamaClient (py "mistral");;
  let prompt := extract_prompt text info_type in
  information ←
    try_except
      (extract_reply prompt)
      (fun e =>
         print (py "Error in extract_info: " ++ exc_msg e);;
         mret (VList [VStr (py "Error extracting information: " ++ exc_msg e)]));
  mret {| information := information |}.

(** [paragraphs] of [search_document]. *)
Definition paragraphs_of (text : str) : list str :=
  filter (fun p => p <> []) (Str.strip <$> Re.split_blank text).

(** The format specification that the f-string of [search_document] gives to
    its third replacement field: the braces of the example of the output
    format are not doubled, so the field is the expression ["rating"] and the
    text after its colon. *)
Definition output_format_spec : str :=
  py " 8, " ++ [QUOTE] ++ py "text" ++ [QUOTE] ++ py ": " ++ [QUOTE]
  ++ py "paragraph text" ++ [QUOTE].

(** The prompt of [search_document]: the replacement fields are evaluated and
    formatted from left to right. *)
Definition search_prompt (query : str) (paragraphs : list str) : result str :=
  match Format.format_str query [] with
  | Raise e => Raise e
  | Ret f1 =>
      match Format.format_str (json_dumps rt None (VList (VStr <$> take 15 paragraphs))) [] with
      | Raise e => Raise e
      | Ret f2 =>
          match Format.format_str (py "rating") output_format_spec with
          | Raise e => Raise e
          | Ret f3 =>
              Ret ([LF] ++ py "    You need to find paragraphs in a document that "
                     ++ py "answer or relate to the query: " ++ [QUOTE] ++ f1 ++ [QUOTE] ++
                   [LF] ++ py "    Rate each paragraph's relevance to the query "
                     ++ py "on a scale of 0-10." ++
                   [LF] ++ py "    Return the 3 most relevant paragraphs "
                     ++ py "with their ratings as JSON." ++
                   [LF] ++
                   [LF] ++ py "    Document sections:" ++
                   [LF] ++ py "    " ++ f2
                     ++ py "  # Limit to first 15 paragraphs for context limits" ++
                   [LF] ++
                   [LF] ++ py "    Output format: [" ++ f3 ++ py ", ...]" ++
                   [LF] ++ py "    ")
          end
      end
  end.

(** [for item in parsed] *)
Definition py_iter (parsed : value) : result (list value) :=
  match parsed with
  | VList items => Ret items
  | VDict items => Ret ((fun kv : str * value => VStr kv.1) <$> items)
  | VStr s => Ret ((fun c => VStr [c]) <$> s)
  | _ => Raise (type_error (py "'" ++ type_name parsed ++ py "' object is not iterable"))
  end.

(** ["text" in item] *)
Definition has_text (item : value) : result bool :=
  match item with
  | VDict d => Ret (bool_decide (is_Some (dict_get (py "text") d)))
  | VStr s => Ret (Str.contains s (py "text"))
  | VList l => Ret (existsb (fun x => match x with
                                      | VStr s => bool_decide (s = py "text")
                                      | _ => false
                                      end) l)
  | _ => Raise (type_error (py "argument of type '" ++ type_name item ++ py "' is not iterable"))
  end.

(** [item["text"]] *)
Definition get_text (item : value) : result value :=
  match item with
  | VDict d =>
      match dict_get (py "text") d with
      | Some v => Ret v
      | None => Raise (Exc (py "KeyError") (py "'text'"))
      end
  | VStr _ => Raise (type_error (py "string indices must be integers, not 'str'"))
  | VList _ => Raise (type_error (py "list indices must be integers or slices, not str"))
  | _ => Raise (type_error (py "'" ++ type_name item ++ py "' object is not subscriptable"))
  end.

(** [[item["text"] for item in items if "text" in item]] *)
Fixpoint texts_of (items : list value) : result (list value) :=
  match items with
  | [] => Ret []
  | item :: rest =>
      match has_text item with
      | Raise e => Raise e
      | Ret false => texts_of rest
      | Ret true =>
          match get_text item with
          | Raise e => Raise e
          | Ret v => match texts_of rest with
                     | Raise e => Raise e
                     | Ret vs => Ret (v :: vs)
                     end
          end
      end
  end.

(** [[item.get("text", str(item)) for item in items]]; [None] when an item
    has no method [get] ([AttributeError]). *)
Fixpoint texts_or_str (items : list value) : option (list value) :=
  match items with
  | [] => Some []
  | VDict d :: rest =>
      match texts_or_str rest with
      | Some vs => Some (default (VStr (py_str (VDict d))) (dict_get (py "text") d) :: vs)
      | None => None
      end
  | _ :: _ => None
  end.

(** Lines 157-178 of [search_document]: the reply parsed into [results]. *)
Definition search_parse (result_text : str) : result (list value) :=
  match Re.search_bracket result_text with
  | Some group0 =>
      match Json.loads (recursion_room rt) group0 with
      | Json.JOk parsed =>
          match py_iter parsed with
          | Ret items => texts_of items
          | Raise e => Raise e
          end
      | Json.JDecodeError => Ret [VStr result_text]
      | Json.JRaise e => Raise e
      end
  | None =>
      let quoted :=                                   (* the bare [except] *)
        match Re.findall_quoted result_text with
        | [] => [VStr result_text]
        | found => VStr <$> found
        end in
      match Json.loads (recursion_room rt) result_text with
      | Json.JOk (VList items) =>
          match texts_or_str items with
          | Some vs => Ret vs
          | None => Ret quoted
          end
      | Json.JOk parsed => Ret [VStr (py_str parsed)]
      | Json.JDecodeError | Json.JRaise _ => Ret quoted
      end
  end.

(** Lines 148-178: the body of the outer [try] of [search_document]. *)
Definition search_reply (prompt : str) : M (list value) :=
  content ← chat_completions_create prompt;
  match content with
  | None => raise (type_error (py "'NoneType' object is not subscriptable"))
  | Some result_text =>
      print (py "Search document response: " ++ Str.slice_to 100 result_text ++ py "...");;
      lift (search_parse result_text)
  end.

(** The prompt is built before the [try] is entered (lines 136-145). *)
Definition search_document (text query : str) : M SearchDocumentOutput :=
  let paragraphs := paragraphs_of text in
  OllamaClient (py "mistral");;
  prompt ← lift (search_prompt query paragraphs);
  results ←
    try_except
      (search_reply prompt)
      (fun e =>
         print (py "Error in search_document: " ++ exc_msg e);;
         mret [VStr (py "Error searching document: " ++ exc_msg e)]);
  mret {| results := results |}.

Definition list_documents : M ListDocumentsOutput :=
  st ← get_state;
  mret {| documents := list_documents (document_memory st) |}.

Definition get_document (url : str) : M GetDocumentOutput :=
  doc ← get_document_by_url rt url;
  match doc with
  | None => mret {| found_content := py "Document not found"; metadata := [] |}
  | Some d => mret {| found_content := doc_content d; metadata := doc_metadata d |}
  end.

End Tools.
End Tools.

(** ** A runtime and a process to evaluate examples in

    The properties below hold for every [Runtime] and every [State].  The
    closed examples are evaluated in a fresh process (empty store, empty
    trace) under a runtime whose services are stand-ins: the digest of a URL
    is the URL itself, [repr] and [json.dumps] print a placeholder, [upper]
    is the identity; 900 levels of nesting are left to the JSON decoder. *)
Definition sample_runtime : Runtime :=
  {| md5_hexdigest := fun url => url;
     json_dumps := fun _ _ => py "<json>";
     py_repr := fun _ => py "<repr>";
     str_upper := fun s => s;
     recursion_room := 900 |}.

Definition offline : str -> http_outcome :=
  fun _ => HttpRaises (Exc (py "ConnectionError") (py "Connection refused")).

Definition no_model : str -> completion :=
  fun _ => ChatRaises (Exc (py "APIConnectionError") (py "Connection error.")).

Definition fresh_state (network : str -> http_outcome) (llm : str -> completion) : State :=
  {| document_memory := {| storage_dir := py "./document_memory"; document_index := [] |};
     files := ∅;
     trace := [];
     network := network;
     llm := llm;
     clock := py "2025-01-01 12:00:00.000000" |}.

(** A model endpoint that answers every prompt with [reply]. *)
Definition replying (reply : str) : str -> completion :=
  fun _ => ChatContent (Some reply).

(** A web that answers every request with [status] and [body]. *)
Definition serving (status : N) (reason body : str) : str -> http_outcome :=
  fun url => HttpResponse {| status_code := status; reason := reason;
                             response_url := url; text := body |}.

(** Double quotes cannot be written inside a literal: [dq "it's 'x'"] is the
    text with every apostrophe replaced by a double quote. *)
Definition dq (s : string) : str :=
  (fun c => if c =? chr "'" then QUOTE else c) <$> py s.
Arguments dq s%_string.

(** ** Vocabulary of the properties *)

(** The state after more events. *)
Definition traced (evs : list event) (st : State) : State :=
  set_trace (trace st ++ evs) st.

(** The state after the constructor of the model client has run. *)
Definition announced (st : State) : State :=
  traced [EvPrint (py "Using Ollama model: mistral")] st.

(** The line [get_document] prints when the content file cannot be read. *)
Definition retrieval_error_line (doc_id : str) (e : exc) : str :=
  py "Error retrieving document " ++ doc_id ++ py ": " ++ exc_msg e.

Definition retrieved_line (url : str) : event :=
  EvPrint (py "Retrieved document from memory: " ++ url).

(** The state after [fetch_document] announced and sent its request. *)
Definition requested (url : str) (st : State) : State :=
  traced [EvPrint (py "Fetching document from URL: " ++ url); EvHttpGet url] st.

(** The metadata [fetch_document] stores. *)
Definition fetched_at (st : State) : list (str * value) :=
  [(py "fetched_at", VStr (clock st))].

(** The exception with which the request of [fetch_document] ends (lines
    63-64), if any. *)
Definition fetch_failure (o : http_outcome) : option exc :=
  match o with
  | HttpRaises e => Some e
  | HttpResponse r => Tools.status_error r
  end.

(** The [information] of [extract_info] after an exception [e]. *)
Definition error_information (e : exc) : value :=
  VList [VStr (py "Error extracting information: " ++ exc_msg e)].

Definition subscript_none : exc :=
  Tools.type_error (py "'NoneType' object is not subscriptable").

(** The exception of the f-string of [search_document]. *)
Definition format_error : exc :=
  Format.value_error (py "Invalid format specifier '" ++ Tools.output_format_spec
                      ++ py "' for object of type 'str'").

(** The ["text"] field of a JSON object. *)
Definition text_of (item : value) : option value :=
  match item with
  | VDict d => dict_get (py "text") d
  | _ => None
  end.

(** What the tool [get_document] answers for an unknown URL. *)
Definition not_found : Tools.GetDocumentOutput :=
  {| Tools.found_content := py "Document not found"; Tools.metadata := [] |}.

Section Vocabulary.

Context (rt : Runtime).

(** The content file of the document of [url]. *)
Definition doc_path (self : DocumentMemory) (url : str) : str :=
  path_join (storage_dir self) (_generate_doc_id rt url ++ py ".txt").

(** The state [store_document] leaves: the content file and the index file
    written, the entry of [url] set. *)
Definition stored (url content : str) (metadata : list (str * value)) (st : State) : State :=
  let self := document_memory st in
  let self' := {| storage_dir := storage_dir self;
                  document_index :=
                    dict_set (_generate_doc_id rt url)
                      {| info_url := url; info_path := doc_path self url;
                         info_metadata := metadata |} (document_index self) |} in
  {| document_memory := self';
     files := <[index_file self := Readable (json_dumps rt (Some 2%nat) (index_value self'))]>
                (<[doc_path self url := Readable content]> (files st));
     trace := trace st ++ [EvOpenWrite (doc_path self url); EvOpenWrite (index_file self)];
     network := network st; llm := llm st; clock := clock st |}.

(** JSON parsing fails on the reply [r]: [json.loads] raises
    [JSONDecodeError] on the text the tool gives it, which is the bracketed
    span of [r] when there is one and [r] otherwise. *)
Definition json_fails (r : str) : Prop :=
  match Re.search_bracket r with
  | Some group0 => Json.loads (recursion_room rt) group0 = Json.JDecodeError
  | None => Json.loads (recursion_room rt) r = Json.JDecodeError
  end.

End Vocabulary.

(** ** Inputs of the closed examples *)

Definition example_url : str := py "http://example.com/a".

(** The reply of two lines of the specification. *)
Definition item1_item2 : str := py "item1" ++ [LF] ++ py "item2".

(** The ranked reply of the specification. *)
Definition ranked_reply : str :=
  dq "[{'rating':9,'text':'P1'},{'rating':4,'text':'P2'}]".

(** A reply with a bracketed span that is not JSON. *)
Definition broken_array : str := dq "['a', b]".

(** A reply nested deeper than the sample runtime allows. *)
Definition deep_reply : str := replicate 901 (chr "[") ++ [chr "]"].

(** The same with objects, and so without a bracketed span. *)
Definition deep_object : str := mjoin (replicate 901 (dq "{'a':")).

(** A reply whose bracketed span is two arrays, which is not JSON. *)
Definition two_arrays : str := py "[a]" ++ [LF] ++ py "[b]".

Definition hi_page : State :=
  fresh_state (serving 200 (py "OK") (py "<b>hi</b>")) no_model.

Definition not_found_page : State :=
  fresh_state (serving 404 (py "Not Found") (py "<h1>nothing here</h1>")) no_model.

Definition choices_page : State :=
  fresh_state (serving 300 (py "Multiple Choices") (py "<p>moved</p>")) no_model.

(** A store whose only document lost its content file. *)
Definition orphaned : State :=
  set_files ∅ (store_document sample_runtime example_url (py "some text") None
                 (fresh_state offline no_model)).2.

(** ** The encoder of [json.dump] *)

(** [json.dump(obj, f, indent=n)], the call of [_save_index], as the
    encoder of the [json] module writes a value: [ensure_ascii] is on, the
    separators are a comma and a colon followed by a space, the keys keep
    their order, and every item of a non-empty array or object is on a line
    of its own, indented by [n] spaces for each level.  The result is [None]
    when the encoder raises: [ValueError] for an integer of more than 4300
    digits, [RecursionError] when the value is nested deeper than the
    interpreter allows ([room] levels; an empty array or object needs none,
    a float needs one for the call of [float.__repr__]). *)
Module Dumps.
Section Dumps.

Context (rt : Runtime).

Definition hex_digit (d : N) : N := if d <? 10 then 48 + d else 87 + d.

(** A code unit written as a backslash, [u] and four hexadecimal digits. *)
Definition u_escape (n : N) : str :=
  [BACKSLASH; chr "u"; hex_digit (n / 4096 mod 16); hex_digit (n / 256 mod 16);
   hex_digit (n / 16 mod 16); hex_digit (n mod 16)].

(** One character of a string: the short escapes, printable ASCII as it
    is, any other character of the basic plane as one escape and a character
    beyond it as the two escapes of its surrogate pair. *)
Definition escape (c : N) : str :=
  if c =? QUOTE then [BACKSLASH; QUOTE]
  else if c =? BACKSLASH then [BACKSLASH; BACKSLASH]
  else if c =? 10 then [BACKSLASH; chr "n"]
  else if c =? 13 then [BACKSLASH; chr "r"]
  else if c =? 9 then [BACKSLASH; chr "t"]
  else if c =? 12 then [BACKSLASH; chr "f"]
  else if c =? 8 then [BACKSLASH; chr "b"]
  else if (32 <=? c) && (c <=? 126) then [c]
  else if c <? 65536 then u_escape c
  else let n := c - 65536 in
       u_escape (N.lor 55296 (N.land (N.shiftr n 10) 1023))
       ++ u_escape (N.lor 56320 (N.land n 1023)).

Definition encode_basestring_ascii (s : str) : str :=
  QUOTE :: mjoin (escape <$> s) ++ [QUOTE].

(** [int.__repr__], within the limit on the digits of a conversion. *)
Definition int_repr (z : Z) : option str :=
  let digits := Str.of_N (Z.abs_N z) in
  if (Json.int_max_str_digits <? length digits)%nat then None
  else Some (if (z <? 0)%Z then chr "-" :: digits else digits).

(** [float.__repr__], with the JavaScript names of the values that are not
    finite ([allow_nan] is on). *)
Definition floatstr (literal : str) : str :=
  let text := py_repr rt (VFloat literal) in
  if bool_decide (text = py "nan") then py "NaN"
  else if bool_decide (text = py "inf") then py "Infinity"
  else if bool_decide (text = py "-inf") then py "-Infinity"
  else text.

Definition newline_indent (indent level : nat) : str :=
  LF :: replicate (indent * level) (chr " ").

Fixpoint join (sep : str) (pieces : list str) : str :=
  match pieces with
  | [] => []
  | [p] => p
  | p :: rest => p ++ sep ++ join sep rest
  end.

(** The pieces of a container, unless one of them raises. *)
Fixpoint sequence {A} (l : list (option A)) : option (list A) :=
  match l with
  | [] => Some []
  | x :: l' => a ← x; r ← sequence l'; Some (a :: r)
  end.

Definition bracketed (indent level : nat) (open close : N) (pieces : list str) : str :=
  open :: newline_indent indent (S level)
    ++ join (chr "," :: newline_indent indent (S level)) pieces
    ++ newline_indent indent level ++ [close].

Fixpoint encode (indent room level : nat) (v : value) {struct v} : option str :=
  match v with
  | VNone => Some (py "null")
  | VBool true => Some (py "true")
  | VBool false => Some (py "false")
  | VInt z => int_repr z
  | VFloat literal =>
      match room with
      | O => None
      | S _ => Some (floatstr literal)
      end
  | VStr s => Some (encode_basestring_ascii s)
  | VList [] => Some (py "[]")
  | VList items =>
      match room with
      | O => None
      | S room' =>
          pieces ← sequence (encode indent room' (S level) <$> items);
          Some (bracketed indent level (chr "[") (chr "]") pieces)
      end
  | VDict [] => Some (py "{}")
  | VDict items =>
      match room with
      | O => None
      | S room' =>
          pieces ← sequence ((fun kv : str * value =>
                                text ← encode indent room' (S level) kv.2;
                                Some (encode_basestring_ascii kv.1 ++ py ": " ++ text))
                             <$> items);
          Some (bracketed indent level (chr "{") (chr "}") pieces)
      end
  end.

Definition dumps (indent room : nat) (v : value) : option str := encode indent room 0 v.

End Dumps.
End Dumps.

(** Unicode scalar values: the code points a text file can hold. *)
Definition is_scalar (c : N) : bool :=
  (c <? 55296) || ((57344 <=? c) && (c <? 1114112)).

(** The values that the encoder writes and the decoder reads back as they
    were: no float (its text is the interpreter's), strings and keys made of
    scalar values, and no key twice in an object. *)
Fixpoint plain (v : value) : bool :=
  match v with
  | VNone | VBool _ | VInt _ => true
  | VFloat _ => false
  | VStr s => forallb is_scalar s
  | VList items => forallb plain items
  | VDict items =>
      forallb (fun kv : str * value => forallb is_scalar kv.1) items
      && bool_decide (NoDup items.*1)
      && forallb (fun kv : str * value => plain kv.2) items
  end.

(** How many arrays and objects are nested in a value. *)
Fixpoint depth (v : value) : nat :=
  match v with
  | VList items => S (max_list (depth <$> items))
  | VDict items => S (max_list ((fun kv : str * value => depth kv.2) <$> items))
  | _ => 0
  end.

(** ** [document_memory.py]: the index loaded from disk *)

(** What [_load_index] gives the constructor: the decoded index, or
    [json.JSONDecodeError], which leaves the constructor. *)
Inductive loaded :=
| Loaded (index : value)
| LoadDecodeError.

(** [os.path.exists(path)]: a path the file system knows exists, whether
    its file can be read or not. *)
Definition path_exists (path : str) : M bool :=
  fun st => (Ret (bool_decide (is_Some (files st !! path))), st).

Section Loading.

Context (rt : Runtime).

(** [json.load(f)] is [json.loads(f.read())]. *)
Definition _load_index (self : DocumentMemory) : M loaded :=
  found ← path_exists (index_file self);
  if found : bool then
    text ← read_text rt (index_file self);
    match Json.loads (recursion_room rt) text with
    | Json.JOk index => mret (Loaded index)
    | Json.JDecodeError => mret LoadDecodeError
    | Json.JRaise e => raise e
    end
  else mret (Loaded (VDict [(py "documents", VDict [])])).

End Loading.

(** ** [agent_adapter.py]: the [run] method given to [Agent] *)

Module Adapter.

(** [ToolCall] *)
Record ToolCall := {
  name : str;
  inputs : list (str * value);
}.

(** [MinimalResult(text, conv_id)], the object that [run] builds its
    response from; its [raw_responses] is the empty list. *)
Record MinimalResult := {
  final_output : option str;   (* the content of the reply; it may be [None] *)
  conv_id : value;
}.

Record AgentResponse := {
  message : str;
  conversation_id : value;
  tool_calls : list ToolCall;
}.

(** [AgentResponse(result)] on the two objects [run] gives it: a
    [MinimalResult], or [None], which has none of the three attributes.
    [str(None)] is the text of a final output that is [None]; the loop over
    the [raw_responses] of a [MinimalResult] has nothing to go through. *)
Definition new_AgentResponse (result : option MinimalResult) : AgentResponse :=
  match result with
  | Some result =>
      {| message := default (py "None") (final_output result);
         conversation_id := conv_id result;
         tool_calls := [] |}
  | None =>
      {| message := py "I'm sorry, I couldn't process that request.";
         conversation_id := VNone;
         tool_calls := [] |}
  end.

(** [response.message = ...] *)
Definition set_message (text : str) (response : AgentResponse) : AgentResponse :=
  {| message := text; conversation_id := conversation_id response;
     tool_calls := tool_calls response |}.

(** The process and what the logger of the module has written, one message
    for each record, all of level [ERROR]. *)
Record Console := {
  process : State;
  logged : list str;
}.

Section Adapter.

(** [traceback.format_exc()] in the handler of an exception. *)
Context (format_exc : exc -> str).

Definition run_prompt (instructions message : str) : str :=
  [LF] ++ py "        " ++ instructions ++
  [LF] ++ py "        " ++
  [LF] ++ py "        User query: " ++ message ++
  [LF] ++ py "        ".

(** Lines 96-122: the body of the [try] of [run].  The request is the one of
    the tools but for its temperature, [0.7]. *)
Definition run_reply (instructions message : str) (conversation_id : value)
    : M AgentResponse :=
  response_text ← Tools.chat_completions_create (run_prompt instructions message);
  mret (new_AgentResponse (Some {| final_output := response_text;
                                   conv_id := conversation_id |})).

(** [agent.run(message, conversation_id)], for an agent whose instructions
    are [instructions] and whose model is the client of the process. *)
Definition run (instructions message : str) (conversation_id : value) (c : Console)
    : result AgentResponse * Console :=
  match run_reply instructions message conversation_id (process c) with
  | (Ret response, st) => (Ret response, {| process := st; logged := logged c |})
  | (Raise e, st) =>
      (Ret (set_message (py "An error occurred: " ++ exc_msg e) (new_AgentResponse None)),
       {| process := st;
          logged := logged c ++ [py "Error running agent: " ++ exc_msg e
                                 ++ [LF] ++ format_exc e] |})
  end.

End Adapter.
End Adapter.

(** ** [main.py]: the banner and the command [list] *)

Module Main.

(** [s.center(width)] *)
Definition center (width : nat) (s : str) : str :=
  let marg := (width - length s)%nat in
  let left := (marg / 2 + (if Nat.odd marg && Nat.odd width then 1 else 0))%nat in
  replicate left (chr " ") ++ s ++ replicate (marg - left) (chr " ").

Definition rule : str := replicate 60 (chr "=").

(** The books and the card file box with its variation selector. *)
Definition BOOKS : N := 128218.
Definition CARD_FILE_BOX : str := [128451; 65039].

(** [for i, doc in enumerate(docs, start): print(line(i, doc))] *)
Fixpoint print_each (line : N -> Listing -> str) (start : N) (docs : list Listing) : M unit :=
  match docs with
  | [] => mret ()
  | doc :: rest => print (line start doc);; print_each line (start + 1) rest
  end.

Section Main.

Context (rt : Runtime).

Definition banner_line (i : N) (doc : Listing) : str :=
  py "  " ++ Str.of_N i ++ py ". " ++ listing_url doc.

Definition print_banner : M unit :=
  print ([LF] ++ rule);;
  print (center 60 ([BOOKS] ++ py " Document Analysis Agent " ++ [BOOKS]));;
  print rule;;
  print ([LF] ++ py "This agent can analyze documents, extract information, and search for content.");;
  print (py "It also has document memory to store and retrieve documents between sessions.");;
  st ← get_state;
  let docs := list_documents (document_memory st) in
  match docs with
  | [] => mret ()
  | _ =>
      print ([LF] ++ CARD_FILE_BOX ++ py "  " ++ Str.of_N (N.of_nat (length docs))
             ++ py " documents already in memory:");;
      print_each banner_line 1 docs
  end;;
  print ([LF] ++ py "Commands:");;
  print (py "  'exit' - Quit the program");;
  print (py "  'list' - Show stored documents");;
  print (py "  'help' - Show this help message");;
  print (rule ++ [LF]).

(** [metadata.get('fetched_at', 'unknown time')], formatted. *)
Definition fetched_at_of (doc : Listing) : str :=
  match dict_get (py "fetched_at") (listing_metadata doc) with
  | Some v => Tools.py_str rt v
  | None => py "unknown time"
  end.

Definition list_line (i : N) (doc : Listing) : str :=
  py "  " ++ Str.of_N i ++ py ". " ++ listing_url doc
  ++ py " (fetched: " ++ fetched_at_of doc ++ py ")".

(** Lines 67-75 of [main]: what the command [list] does. *)
Definition list_command : M unit :=
  st ← get_state;
  let docs := list_documents (document_memory st) in
  match docs with
  | [] => print ([LF] ++ py "No documents in memory yet.")
  | _ =>
      print ([LF] ++ [BOOKS] ++ py " Documents in memory (" ++ Str.of_N (N.of_nat (length docs))
             ++ py "):");;
      print_each list_line 1 docs
  end.

End Main.
End Main.

(** ** Vocabulary of the further properties *)

(** A request to the web. *)
Definition is_request (ev : event) : bool :=
  match ev with
  | EvHttpGet _ => true
  | _ => false
  end.

Module Reading.
Import Json Dumps.

(** What [scanstring] does once the four digits of an escape are read. *)
Definition after_escape (hi : option N) (v : N) (acc : str) (t : str) : presult str :=
  match hi with
  | Some h =>
      if is_low_surrogate v
      then scanstring_from (SText None) (join_surrogates h v :: acc) t
      else if is_high_surrogate v
      then scanstring_from (SText (Some v)) (h :: acc) t
      else scanstring_from (SText None) (v :: h :: acc) t
  | None =>
      if is_high_surrogate v
      then scanstring_from (SText (Some v)) acc t
      else scanstring_from (SText None) (v :: acc) t
  end.

(** The characters of a decimal number. *)
Fixpoint uint_digits (d : Decimal.uint) : str :=
  match d with
  | Decimal.Nil => []
  | Decimal.D0 l => 48 :: uint_digits l
  | Decimal.D1 l => 49 :: uint_digits l
  | Decimal.D2 l => 50 :: uint_digits l
  | Decimal.D3 l => 51 :: uint_digits l
  | Decimal.D4 l => 52 :: uint_digits l
  | Decimal.D5 l => 53 :: uint_digits l
  | Decimal.D6 l => 54 :: uint_digits l
  | Decimal.D7 l => 55 :: uint_digits l
  | Decimal.D8 l => 56 :: uint_digits l
  | Decimal.D9 l => 57 :: uint_digits l
  end.

(** What follows a value in the text of the encoder: nothing, a comma or a
    line feed. *)
Definition delimited (rest : str) : bool :=
  match rest with
  | [] => true
  | c :: _ => (c =? chr ",") || (c =? LF)
  end.

Definition decimal_step (n c : N) : N := 10 * n + (c - 48).

Definition no_cr (s : str) : Prop := Forall (fun c => c <> CR) s.

Section Reads.

Context (rt : Runtime) (indent : nat).

(** [text] is read as [v], whatever delimited text follows it. *)
Definition reads (room : nat) (text : str) (v : value) : Prop :=
  forall rest, delimited rest = true ->
               exists g, scan_once g room (text ++ rest) = POk v rest.

(** The property proved by induction on the value. *)
Definition read_back (v : value) : Prop :=
  plain v = true ->
  forall room level text room_d,
    encode rt indent room level v = Some text -> (depth v <= room_d)%nat ->
    reads room_d text v.

Definition encode_item (room level : nat) (kv : str * value) : option str :=
  text ← encode rt indent room level kv.2;
  Some (encode_basestring_ascii kv.1 ++ py ": " ++ text).


End Reads.

End Reading.

(** An item of the listing, from an entry of the index. *)
Definition listing_of (e : str * doc_info) : Listing :=
  {| listing_id := e.1; listing_url := info_url e.2; listing_metadata := info_metadata e.2 |}.

(** The document that [get_document] builds from an entry of the index and
    the text of its content file. *)
Definition document_of (doc_id : str) (info : doc_info) (data : str) : Document :=
  {| doc_id := doc_id; doc_url := info_url info;
     doc_content := universal_newlines data; doc_metadata := info_metadata info |}.

(** The calls a client of the store and of the tools can make. *)
Inductive call :=
| CallStore (url content : str) (metadata : option (list (str * value)))
| CallGet (doc_id : str)
| CallGetByUrl (url : str)
| CallFetchDocument (url : str)
| CallExtractInfo (text info_type : str)
| CallSearchDocument (text query : str)
| CallListDocuments
| CallGetDocument (url : str).

(** [st'] has the index and the files of [st]. *)
Definition untouched (st st' : State) : Prop :=
  document_memory st' = document_memory st /\ files st' = files st.

(** The content file of every entry of the index can be read, and no
    identifier has two entries. *)
Definition sound (st : State) : Prop :=
  NoDup (document_index (document_memory st)).*1
  /\ Forall (fun e : str * doc_info =>
               exists data, files st !! info_path e.2 = Some (Readable data))
            (document_index (document_memory st)).

Section Calls.

Context (rt : Runtime).

(** The state a call leaves. *)
Definition state_after (c : call) (st : State) : State :=
  match c with
  | CallStore url content metadata => (store_document rt url content metadata st).2
  | CallGet doc_id => (get_document rt doc_id st).2
  | CallGetByUrl url => (get_document_by_url rt url st).2
  | CallFetchDocument url => (Tools.fetch_document rt url st).2
  | CallExtractInfo text info_type => (Tools.extract_info rt text info_type st).2
  | CallSearchDocument text query => (Tools.search_document rt text query st).2
  | CallListDocuments => (Tools.list_documents st).2
  | CallGetDocument url => (Tools.get_document rt url st).2
  end.

(** The states of a process that started with an empty store, and in which
    the index and the files of the store change through the calls only; the
    world (the web, the model, the clock) may change between two calls. *)
Inductive reachable : State -> Prop :=
| reachable_empty st : document_index (document_memory st) = [] -> reachable st
| reachable_call c st : reachable st -> reachable (state_after c st)
| reachable_world st st' : reachable st -> untouched st st' -> reachable st'.

End Calls.

(** A tag, as the pattern of [fetch_document] matches it: an opening angle
    bracket, at least one character that is not a closing one, and a
    closing angle bracket. *)
Definition has_tag (s : str) : Prop :=
  exists pre inside post,
    s = pre ++ chr "<" :: inside ++ chr ">" :: post
    /\ inside <> [] /\ chr ">" ∉ inside.

(** The texts in which no tag can be matched, by their shape: characters
    other than an opening angle bracket, empty pairs of brackets, and at
    most one opening bracket that is never closed, at the end. *)
Inductive tagless : str -> Prop :=
| tagless_nil : tagless []
| tagless_char c s : c <> chr "<" -> tagless s -> tagless (c :: s)
| tagless_pair s : tagless s -> tagless (chr "<" :: chr ">" :: s)
| tagless_open s : chr ">" ∉ s -> tagless (chr "<" :: s).

(** ** More runtimes, states and inputs for the closed examples *)

(** A runtime whose [json.dumps] with an indent is the encoder above. *)
Definition encoding_runtime : Runtime :=
  {| md5_hexdigest := fun url => url;
     json_dumps := fun indent v =>
                     match indent with
                     | Some n => default [] (Dumps.dumps sample_runtime n 900 v)
                     | None => py "<json>"
                     end;
     py_repr := fun _ => py "<repr>";
     str_upper := fun s => s;
     recursion_room := 900 |}.

(** A runtime in which every URL has the same digest. *)
Definition one_digest : Runtime :=
  {| md5_hexdigest := fun _ => py "d41d8cd98f00b204e9800998ecf8427e";
     json_dumps := fun _ _ => py "<json>";
     py_repr := fun _ => py "<repr>";
     str_upper := fun s => s;
     recursion_room := 900 |}.

Definition other_url : str := py "http://example.com/b".

(** The store after the page of [example_url] was fetched. *)
Definition hi_fetched : State :=
  (Tools.fetch_document sample_runtime example_url hi_page).2.

(** A store whose only document lost its content file, and a web that
    serves its page again. *)
Definition orphaned_online : State :=
  set_network (serving 200 (py "OK") (py "<p>some <i>new</i> text</p>")) orphaned.

(** A reply with an array between two sentences. *)
Definition chatty_reply : str :=
  dq "Sure! Here you are: ['Ann', 'Bob'] I hope this helps.".

(** A reply that is a JSON object. *)
Definition object_reply : str := dq "{'names': 'Ann and Bob'} ".

(** A reply whose array holds objects with and without a text. *)
Definition mixed_reply : str :=
  dq "[{'rating': 9, 'text': 'P1'}, {'rating': 7}, {'text': 'P3'}]".

(** * Properties *)

(** ** The JSON decoder never runs out of gas *)
Module JsonFacts.
Import Json.

Lemma skip_ws_length s : (length (skip_ws s) <= length s)%nat.
Proof. induction s as [|c t IH]; simpl; [lia|]. destruct (is_ws c); simpl; lia. Qed.

Lemma scanstring_from_shrinks st acc s v r :
  scanstring_from st acc s = POk v r -> (length r < length s)%nat.
Proof.
  revert st acc. induction s as [|c t IH]; intros st acc H; simpl in H; [discriminate|].
  destruct st; repeat case_match; simplify_eq; simpl; try lia;
    match goal with H : scanstring_from _ _ _ = POk _ _ |- _ => apply IH in H; lia end.
Qed.

Lemma scanstring_from_gas st acc s : scanstring_from st acc s <> PGas.
Proof.
  revert st acc. induction s as [|c t IH]; intros st acc; simpl; [discriminate|].
  destruct st; repeat case_match; try discriminate; apply IH.
Qed.

Lemma span_digits_length s d r :
  span_digits s = (d, r) -> (length d + length r = length s)%nat.
Proof.
  revert d r. induction s as [|c t IH]; intros d r H; simpl in H; [by simplify_eq|].
  destruct (is_digit c); [|by simplify_eq].
  destruct (span_digits t) as [d' r'] eqn:E. simplify_eq.
  specialize (IH _ _ eq_refl). simpl. lia.
Qed.

Ltac shrink_by_digits :=
  intros; repeat case_match; simplify_eq;
  repeat match goal with
         | H : span_digits _ = _ |- _ => apply span_digits_length in H
         end;
  simpl in *; try lia.

Lemma match_int_shrinks s i r : match_int s = Some (i, r) -> (length r < length s)%nat.
Proof. unfold match_int. shrink_by_digits. Qed.

Lemma match_frac_shrinks s i r : match_frac s = Some (i, r) -> (length r < length s)%nat.
Proof. unfold match_frac. shrink_by_digits. Qed.

Lemma match_exp_shrinks s i r : match_exp s = Some (i, r) -> (length r < length s)%nat.
Proof. unfold match_exp. shrink_by_digits. Qed.

Lemma match_number_shrinks s v r : match_number s = POk v r -> (length r < length s)%nat.
Proof.
  unfold match_number. intros H.
  destruct (match_int s) as [[i r0]|] eqn:Hi; [|discriminate].
  apply match_int_shrinks in Hi.
  destruct (match_frac r0) as [[f r1]|] eqn:Hf;
    [apply match_frac_shrinks in Hf|];
    (destruct (match_exp _) as [[e r2]|] eqn:He; [apply match_exp_shrinks in He|]);
    repeat case_match; simplify_eq; lia.
Qed.

Lemma match_number_gas s : match_number s <> PGas.
Proof. unfold match_number. repeat case_match; discriminate. Qed.

Lemma startswith_length s p : Str.startswith s p = true -> (length p <= length s)%nat.
Proof.
  revert s. induction p as [|a p IH]; intros [|c s] H; simpl in *; try lia; try discriminate.
  apply andb_prop in H as [_ H]. apply IH in H. lia.
Qed.

Lemma match_constant_shrinks cs s v r :
  Forall (fun nv => nv.1 <> []) cs ->
  match_constant cs s = Some (v, r) -> (length r < length s)%nat.
Proof.
  induction 1 as [|[name w] cs Hn _ IH]; simpl; [discriminate|].
  destruct (Str.startswith s name) eqn:E; [|exact IH].
  intros; simplify_eq. apply startswith_length in E. rewrite length_drop.
  simpl in Hn. destruct name; [done|]. simpl in *. lia.
Qed.

Lemma scan_atom_shrinks s v r : scan_atom s = POk v r -> (length r < length s)%nat.
Proof.
  unfold scan_atom. destruct (match_constant constants s) as [[w r']|] eqn:E.
  - intros; simplify_eq. eapply match_constant_shrinks; [|exact E].
    unfold constants. repeat constructor; discriminate.
  - apply match_number_shrinks.
Qed.

Lemma scan_atom_gas s : scan_atom s <> PGas.
Proof. unfold scan_atom. case_match; [by case_match|apply match_number_gas]. Qed.

Lemma well_fuelled_pmap {A B} (f : A -> B) s p :
  well_fuelled s p -> well_fuelled s (pmap f p).
Proof.
  intros [Hg Hs]. split; destruct p; simpl; try done.
  intros v r [= <- <-]. eauto.
Qed.

Lemma well_fuelled_weaken {A} s s' (p : presult A) :
  (length s <= length s')%nat -> well_fuelled s p -> well_fuelled s' p.
Proof. intros Hl [Hg Hs]. split; [done|]. intros v r E. apply Hs in E. lia. Qed.

Lemma well_fuelled_error {A} s : @well_fuelled A s PDecodeError.
Proof. split; discriminate. Qed.

Lemma well_fuelled_raise {A} s e : @well_fuelled A s (PRaise e).
Proof. split; discriminate. Qed.

Lemma well_fuelled_ok {A} s (a : A) r :
  (length r < length s)%nat -> well_fuelled s (POk a r).
Proof. intros H. split; [discriminate|]. by intros ? ? [= <- <-]. Qed.

(** One step of each of the three mutually recursive functions. *)
Lemma scan_once_unfold gas room s :
  scan_once (S gas) room s =
    match s with
    | [] => PDecodeError
    | c :: t =>
        if c =? QUOTE then pmap VStr (scanstring t)
        else if c =? chr "{" then
          match room with
          | O => PRaise (recursion_error (py "object"))
          | S room =>
              match skip_ws t with
              | c' :: t' =>
                  if c' =? chr "}" then POk (VDict []) t'
                  else pmap VDict (object_items gas room (c' :: t') [])
              | [] => PDecodeError
              end
          end
        else if c =? chr "[" then
          match room with
          | O => PRaise (recursion_error (py "array"))
          | S room =>
              match skip_ws t with
              | c' :: t' =>
                  if c' =? chr "]" then POk (VList []) t'
                  else pmap VList (array_items gas room (c' :: t') [])
              | [] => PDecodeError
              end
          end
        else scan_atom s
    end.
Proof. reflexivity. Qed.

Lemma array_items_unfold gas room s acc :
  array_items (S gas) room s acc =
    match scan_once gas room s with
    | POk v r =>
        match skip_ws r with
        | c :: t =>
            if c =? chr "]" then POk (rev (v :: acc)) t
            else if c =? chr "," then array_items gas room (skip_ws t) (v :: acc)
            else PDecodeError
        | [] => PDecodeError
        end
    | PDecodeError => PDecodeError
    | PRaise e => PRaise e
    | PGas => PGas
    end.
Proof. reflexivity. Qed.

Lemma object_items_unfold gas room s acc :
  object_items (S gas) room s acc =
    match s with
    | q :: t =>
        if q =? QUOTE then
          match scanstring t with
          | POk key r =>
              match skip_ws r with
              | c :: r1 =>
                  if c =? chr ":" then
                    match scan_once gas room (skip_ws r1) with
                    | POk v r2 =>
                        match skip_ws r2 with
                        | c' :: t' =>
                            if c' =? chr "}"
                            then POk (dict_of_pairs (rev ((key, v) :: acc))) t'
                            else if c' =? chr ","
                            then object_items gas room (skip_ws t') ((key, v) :: acc)
                            else PDecodeError
                        | [] => PDecodeError
                        end
                    | PDecodeError => PDecodeError
                    | PRaise e => PRaise e
                    | PGas => PGas
                    end
                  else PDecodeError
              | [] => PDecodeError
              end
          | PDecodeError => PDecodeError
          | PRaise e => PRaise e
          | PGas => PGas
          end
        else PDecodeError
    | [] => PDecodeError
    end.
Proof. reflexivity. Qed.

(** Twice the length of the text is gas enough: each call consumes a
    character before the next call of the same function. *)
Lemma gas_enough gas :
  (forall room s, (2 * length s < gas)%nat -> well_fuelled s (scan_once gas room s)) /\
  (forall room s acc,
     (2 * length s + 1 < gas)%nat -> well_fuelled s (array_items gas room s acc)) /\
  (forall room s acc,
     (2 * length s + 1 < gas)%nat -> well_fuelled s (object_items gas room s acc)).
Proof.
  induction gas as [|g (IHs & IHa & IHo)]; [repeat split; intros; lia|].
  split; [|split].
  - intros room [|c t] Hg; rewrite scan_once_unfold; [apply well_fuelled_error|].
    simpl in Hg.
    destruct (c =? QUOTE).
    { apply well_fuelled_pmap. split; [apply scanstring_from_gas|].
      intros v r E. apply scanstring_from_shrinks in E. simpl. lia. }
    destruct (c =? chr "{").
    { destruct room as [|room]; [apply well_fuelled_raise|].
      pose proof (skip_ws_length t) as Hw.
      destruct (skip_ws t) as [|c' t'] eqn:E; [apply well_fuelled_error|].
      simpl in Hw.
      destruct (c' =? chr "}"); [apply well_fuelled_ok; simpl; lia|].
      apply well_fuelled_pmap.
      eapply well_fuelled_weaken; [|apply IHo; simpl; lia]. simpl. lia. }
    destruct (c =? chr "[").
    { destruct room as [|room]; [apply well_fuelled_raise|].
      pose proof (skip_ws_length t) as Hw.
      destruct (skip_ws t) as [|c' t'] eqn:E; [apply well_fuelled_error|].
      simpl in Hw.
      destruct (c' =? chr "]"); [apply well_fuelled_ok; simpl; lia|].
      apply well_fuelled_pmap.
      eapply well_fuelled_weaken; [|apply IHa; simpl; lia]. simpl. lia. }
    split; [apply scan_atom_gas|apply scan_atom_shrinks].
  - intros room s acc Hg. rewrite array_items_unfold.
    destruct (IHs room s ltac:(lia)) as [Hgas Hshrink].
    destruct (scan_once g room s) as [v r| | |] eqn:E;
      [|apply well_fuelled_error|apply well_fuelled_raise|done].
    specialize (Hshrink _ _ eq_refl).
    pose proof (skip_ws_length r) as Hw.
    destruct (skip_ws r) as [|c t] eqn:E'; [apply well_fuelled_error|].
    simpl in Hw.
    destruct (c =? chr "]"); [apply well_fuelled_ok; lia|].
    destruct (c =? chr ","); [|apply well_fuelled_error].
    pose proof (skip_ws_length t) as Hw'.
    eapply well_fuelled_weaken; [|apply IHa; lia]. lia.
  - intros room [|q t] acc Hg; rewrite object_items_unfold; [apply well_fuelled_error|].
    simpl in Hg.
    destruct (q =? QUOTE); [|apply well_fuelled_error].
    destruct (scanstring t) as [key r| | |] eqn:E;
      [|apply well_fuelled_error|apply well_fuelled_raise|by apply scanstring_from_gas in E].
    apply scanstring_from_shrinks in E.
    pose proof (skip_ws_length r) as Hw.
    destruct (skip_ws r) as [|c r1] eqn:E1; [apply well_fuelled_error|].
    simpl in Hw.
    destruct (c =? chr ":"); [|apply well_fuelled_error].
    pose proof (skip_ws_length r1) as Hw1.
    destruct (IHs room (skip_ws r1) ltac:(lia)) as [Hgas Hshrink].
    destruct (scan_once g room (skip_ws r1)) as [v r2| | |] eqn:E2;
      [|apply well_fuelled_error|apply well_fuelled_raise|done].
    specialize (Hshrink _ _ eq_refl).
    pose proof (skip_ws_length r2) as Hw2.
    destruct (skip_ws r2) as [|c' t'] eqn:E3; [apply well_fuelled_error|].
    simpl in Hw2.
    destruct (c' =? chr "}"); [apply well_fuelled_ok; simpl; lia|].
    destruct (c' =? chr ","); [|apply well_fuelled_error].
    pose proof (skip_ws_length t') as Hw'.
    eapply well_fuelled_weaken; [|apply IHo; lia]. simpl. lia.
Qed.

(** [loads] never takes its last branch. *)
Lemma scan_once_gas room s : scan_once (gas_for s) room (skip_ws s) <> PGas.
Proof.
  pose proof (skip_ws_length s).
  apply (gas_enough (gas_for s)). unfold gas_for. lia.
Qed.

(** A text that starts with an opening bracket decodes to a list, if at all. *)
Lemma loads_bracket_list room t v :
  loads room (chr "[" :: t) = JOk v -> exists items, v = VList items.
Proof.
  unfold loads, gas_for.
  change (Str.startswith (chr "[" :: t) [65279]) with false.
  change (skip_ws (chr "[" :: t)) with (chr "[" :: t).
  rewrite scan_once_unfold.
  change (chr "[" =? QUOTE) with false. change (chr "[" =? chr "{") with false.
  change (chr "[" =? chr "[") with true. cbv iota.
  destruct room as [|room]; [discriminate|].
  destruct (skip_ws t) as [|c' t']; [discriminate|].
  destruct (c' =? chr "]").
  - case_bool_decide; [|discriminate]. intros [= <-]. eauto.
  - destruct (array_items _ _ _ _) as [l r| | |]; simpl; try discriminate.
    case_bool_decide; [|discriminate]. intros [= <-]. eauto.
Qed.

(** The decoder on the inputs of the specification and on malformed ones. *)
Example loads_two_lines : loads 900 item1_item2 = JDecodeError.
Proof. vm_compute. reflexivity. Qed.

Example loads_array : loads 900 (dq "['a','b']") = JOk (VList [VStr (py "a"); VStr (py "b")]).
Proof. vm_compute. reflexivity. Qed.

Example loads_ranked :
  loads 900 ranked_reply
  = JOk (VList [VDict [(py "rating", VInt 9); (py "text", VStr (py "P1"))];
                VDict [(py "rating", VInt 4); (py "text", VStr (py "P2"))]]).
Proof. vm_compute. reflexivity. Qed.

Example loads_trailing_comma : loads 900 (py "[1,]") = JDecodeError.
Proof. vm_compute. reflexivity. Qed.

Example loads_extra_data : loads 900 (py "[1] x") = JDecodeError.
Proof. vm_compute. reflexivity. Qed.

Example loads_surrogate_pair :
  loads 900 ([QUOTE] ++ py "\ud83d\ude00" ++ [QUOTE]) = JOk (VStr [128512]).
Proof. vm_compute. reflexivity. Qed.

Example loads_too_deep :
  loads 3 (py "[[[[]]]]") = JRaise (recursion_error (py "array")).
Proof. vm_compute. reflexivity. Qed.

End JsonFacts.

(** ** The regular expressions *)

Lemma sub_tags_text pre s :
  chr "<" ∉ pre -> Re.sub_tags_from None (pre ++ s) = pre ++ Re.sub_tags_from None s.
Proof.
  induction pre as [|c pre IH]; [done|]. intros Hn.
  apply not_elem_of_cons in Hn as [Hc Hpre]. simpl.
  destruct (c =? chr "<") eqn:E; [apply N.eqb_eq in E; congruence|].
  by rewrite IH.
Qed.

Lemma sub_tags_inside b inside s :
  chr ">" ∉ inside ->
  Re.sub_tags_from (Some b) (inside ++ s) = Re.sub_tags_from (Some (rev inside ++ b)) s.
Proof.
  revert b. induction inside as [|c inside IH]; intros b Hn; [done|].
  apply not_elem_of_cons in Hn as [Hc Hin]. simpl.
  destruct (c =? chr ">") eqn:E; [apply N.eqb_eq in E; congruence|].
  rewrite IH by done. by rewrite <- app_assoc.
Qed.

(** A tag is deleted, and the text before its opening bracket is kept. *)
Lemma sub_tags_tag pre inside post :
  chr "<" ∉ pre -> inside <> [] -> chr ">" ∉ inside ->
  Re.sub_tags (pre ++ chr "<" :: inside ++ chr ">" :: post) = pre ++ Re.sub_tags post.
Proof.
  intros Hpre Hne Hin. unfold Re.sub_tags. rewrite sub_tags_text by done. f_equal.
  simpl. change (chr "<" =? chr "<") with true. cbv iota.
  rewrite sub_tags_inside by done. simpl. change (chr ">" =? chr ">") with true. cbv iota.
  rewrite app_nil_r. destruct (rev inside) eqn:E; [|done].
  apply (f_equal (@rev N)) in E. rewrite rev_involutive in E. done.
Qed.

Example sub_tags_hi : Re.sub_tags (py "<b>hi</b>") = py "hi".
Proof. vm_compute. reflexivity. Qed.

Example sub_tags_kept : Re.sub_tags (py "a<>b<c<d>e<f") = py "a<>be<f".
Proof. vm_compute. reflexivity. Qed.

Lemma through_last_none c s : c ∉ s -> Re.through_last c s = None.
Proof.
  induction s as [|x s IH]; [done|]. intros Hn.
  apply not_elem_of_cons in Hn as [Hc Hs]. simpl. rewrite IH by done.
  destruct (x =? c) eqn:E; [apply N.eqb_eq in E; congruence|done].
Qed.

Lemma through_last_app c mid post :
  c ∉ post -> Re.through_last c (mid ++ c :: post) = Some (mid ++ [c]).
Proof.
  intros Hn. induction mid as [|x mid IH]; simpl.
  - rewrite through_last_none by done. by rewrite N.eqb_refl.
  - by rewrite IH.
Qed.

(** The match runs from the first opening bracket to the last closing one. *)
Lemma search_bracket_span pre mid post :
  chr "[" ∉ pre -> chr "]" ∉ post ->
  Re.search_bracket (pre ++ chr "[" :: mid ++ chr "]" :: post)
  = Some (chr "[" :: mid ++ [chr "]"]).
Proof.
  intros Hpre Hpost. induction pre as [|x pre IH]; simpl.
  - change (chr "[" =? chr "[") with true. cbv iota. by rewrite through_last_app.
  - apply not_elem_of_cons in Hpre as [Hx Hpre].
    destruct (x =? chr "[") eqn:E; [apply N.eqb_eq in E; congruence|]. by apply IH.
Qed.

(** There is no match without a closing bracket. *)
Lemma search_bracket_none s : chr "]" ∉ s -> Re.search_bracket s = None.
Proof.
  induction s as [|x s IH]; [done|]. intros Hn.
  apply not_elem_of_cons in Hn as [Hx Hs]. simpl.
  rewrite through_last_none by done. rewrite IH by done. by destruct (x =? chr "[").
Qed.

Lemma search_bracket_head s g : Re.search_bracket s = Some g -> exists t, g = chr "[" :: t.
Proof.
  induction s as [|x t IH]; simpl; [discriminate|].
  destruct (x =? chr "[") eqn:E.
  - apply N.eqb_eq in E as ->.
    destruct (Re.through_last _ t) as [p|]; [|exact IH].
    intros [= <-]. eauto.
  - exact IH.
Qed.

Example findall_quoted_pairs :
  Re.findall_quoted (dq "''a' 'b' '' 'c") = [py "a"; py "b"; py " "].
Proof. vm_compute. reflexivity. Qed.

Example split_blank_paragraphs :
  Re.split_blank (py "a" ++ [LF; LF] ++ py "b" ++ [LF] ++ py "   " ++ [LF] ++ py " c"
                  ++ [LF] ++ py "d" ++ [LF] ++ py " " ++ [LF])
  = [py "a"; py "b"; py " c" ++ [LF] ++ py "d"; []].
Proof. vm_compute. reflexivity. Qed.

(** ** Dictionaries and paths *)

Lemma dict_get_set {A} k (v : A) d : dict_get k (dict_set k v d) = Some v.
Proof.
  induction d as [|[k' v'] d IH]; simpl.
  - by rewrite bool_decide_eq_true_2.
  - destruct (bool_decide (k' = k)) eqn:E; simpl; rewrite ?E;
      [by rewrite bool_decide_eq_true_2|done].
Qed.

Lemma dict_get_set_ne {A} k k' (v : A) d :
  k <> k' -> dict_get k' (dict_set k v d) = dict_get k' d.
Proof.
  intros Hne. induction d as [|[k0 v0] d IH]; simpl.
  - by rewrite bool_decide_eq_false_2.
  - destruct (bool_decide (k0 = k)) eqn:E; simpl.
    + apply bool_decide_eq_true_1 in E as ->. by rewrite !bool_decide_eq_false_2.
    + by rewrite IH.
Qed.

(** Setting a key that is there takes no new place. *)
Lemma dict_set_length {A} k (v w : A) d :
  dict_get k d = Some w -> length (dict_set k v d) = length d.
Proof.
  induction d as [|[k' v'] d IH]; simpl; [discriminate|].
  case_bool_decide; [done|]. intros Hget. simpl. by rewrite IH.
Qed.

Lemma last_app_nonempty {A} (a b : list A) : b <> [] -> last (a ++ b) = last b.
Proof.
  intros Hb. induction a as [|x a IH]; [done|].
  simpl. destruct (a ++ b) eqn:E; [|done].
  apply app_eq_nil in E as [_ ->]. done.
Qed.

(** A joined path ends as its last component does. *)
Lemma path_join_last a b : b <> [] -> last (path_join a b) = last b.
Proof.
  intros Hb. unfold path_join. repeat case_match; [done|by apply last_app_nonempty|].
  rewrite !app_assoc. by apply last_app_nonempty.
Qed.

Lemma universal_newlines_no_cr s : CR ∉ s -> universal_newlines s = s.
Proof.
  induction s as [|c t IH]; [done|]. intros Hn.
  apply not_elem_of_cons in Hn as [Hc Ht]. simpl.
  destruct (c =? CR) eqn:E; [apply N.eqb_eq in E; congruence|].
  by rewrite IH.
Qed.

Lemma traced_traced evs evs' st : traced evs' (traced evs st) = traced (evs ++ evs') st.
Proof. unfold traced, set_trace. simpl. by rewrite app_assoc. Qed.

(** ** The document store *)
Section DocumentStore.

Context (rt : Runtime).

(** A content file is never the index file: one ends in [.txt], the other in
    [.json]. *)
Lemma doc_path_not_index self url : doc_path rt self url <> index_file self.
Proof.
  intros E. apply (f_equal last) in E. unfold doc_path, index_file in E.
  rewrite !path_join_last in E; [|done|by destruct (_generate_doc_id rt url)].
  rewrite last_app_nonempty in E; [|done]. vm_compute in E. discriminate.
Qed.

Lemma store_document_run url content metadata st :
  store_document rt url content metadata st
  = (Ret (_generate_doc_id rt url), stored rt url content (default [] metadata) st).
Proof.
  unfold store_document, stored, _save_index, write_text, get_state, set_files, set_trace,
    set_document_memory, doc_path, index_file, mbind, M_bind, mret, M_ret. simpl.
  by rewrite <- app_assoc.
Qed.

Lemma get_document_run doc_id st :
  get_document rt doc_id st =
    match dict_get doc_id (document_index (document_memory st)) with
    | None => (Ret None, st)
    | Some info =>
        match files st !! info_path info with
        | Some (Readable data) =>
            (Ret (Some {| doc_id := doc_id; doc_url := info_url info;
                          doc_content := universal_newlines data;
                          doc_metadata := info_metadata info |}),
             traced [EvOpenRead (info_path info)] st)
        | Some (Unreadable e) =>
            (Ret None,
             traced [EvOpenRead (info_path info); EvPrint (retrieval_error_line doc_id e)] st)
        | None =>
            (Ret None,
             traced [EvOpenRead (info_path info);
                     EvPrint (retrieval_error_line doc_id
                                (file_not_found rt (info_path info)))] st)
        end
    end.
Proof.
  unfold get_document, get_state, mbind, M_bind. simpl.
  destruct (dict_get doc_id _) as [info|]; [|done].
  unfold try_except, read_text, print, emit, traced, set_trace, mbind, M_bind, mret, M_ret.
  simpl.
  destruct (files st !! info_path info) as [[data|e]|]; simpl; try done;
    by rewrite <- app_assoc.
Qed.

(** Looking a document up never raises and changes nothing but the trace,
    where it leaves reads and printed lines only. *)
Lemma get_document_frame doc_id st :
  exists found evs,
    get_document rt doc_id st = (Ret found, traced evs st)
    /\ Forall (fun ev => match ev with
                         | EvOpenRead _ | EvPrint _ => True
                         | _ => False
                         end) evs.
Proof.
  rewrite get_document_run.
  destruct (dict_get _ _) as [info|].
  - destruct (files st !! _) as [[data|e]|]; eexists _, _; split; try reflexivity;
      repeat constructor.
  - exists None, []. split; [|constructor].
    unfold traced, set_trace. rewrite app_nil_r. by destruct st.
Qed.

(** The result of a lookup depends on the index and the files only. *)
Lemma get_document_result doc_id st st' :
  document_memory st' = document_memory st -> files st' = files st ->
  (get_document rt doc_id st').1 = (get_document rt doc_id st).1.
Proof.
  intros Hm Hf. rewrite !get_document_run, Hm, Hf.
  destruct (dict_get _ _) as [info|]; [|done].
  by destruct (files st !! _) as [[data|e]|].
Qed.

Lemma get_document_found doc_id st doc :
  (get_document rt doc_id st).1 = Ret (Some doc) ->
  exists path, get_document rt doc_id st = (Ret (Some doc), traced [EvOpenRead path] st).
Proof.
  rewrite get_document_run.
  destruct (dict_get _ _) as [info|]; [|done].
  destruct (files st !! _) as [[data|e]|]; try done.
  intros [= <-]. eauto.
Qed.

Lemma get_after_store url content metadata st :
  get_document_by_url rt url (stored rt url content metadata st)
  = (Ret (Some {| doc_id := _generate_doc_id rt url; doc_url := url;
                  doc_content := universal_newlines content;
                  doc_metadata := metadata |}),
     traced [EvOpenRead (doc_path rt (document_memory st) url)]
            (stored rt url content metadata st)).
Proof.
  unfold get_document_by_url. rewrite get_document_run.
  cbn [stored document_memory document_index files].
  rewrite dict_get_set. cbn [info_path info_url info_metadata].
  rewrite lookup_insert_ne by (apply not_eq_sym, doc_path_not_index).
  by rewrite lookup_insert_eq.
Qed.

(** Claim C1, amended.  After [store_document(u, c, m)],
    [get_document_by_url(u)] returns the document of [u] with the metadata
    [m] and with the content [c] as text-mode input reads it back: every
    carriage-return line ending of [c] has become a line feed.  After a
    second store of [u] only the values of that store are visible, and the
    index has as many entries as before it.  The content is [c] itself when
    [c] holds no carriage return. *)
Theorem store_then_get_by_url url c m c' m' st :
  let st1 := (store_document rt url c (Some m) st).2 in
  let st2 := (store_document rt url c' (Some m') st1).2 in
  let found content metadata :=
    Ret (Some {| doc_id := _generate_doc_id rt url; doc_url := url;
                 doc_content := content; doc_metadata := metadata |}) in
  (get_document_by_url rt url st1).1 = found (universal_newlines c) m
  /\ (get_document_by_url rt url st2).1 = found (universal_newlines c') m'
  /\ length (document_index (document_memory st2))
     = length (document_index (document_memory st1))
  /\ (CR ∉ c -> (get_document_by_url rt url st1).1 = found c m).
Proof.
  cbv zeta. rewrite !store_document_run. cbn [snd default].
  rewrite !get_after_store. cbn [fst]. repeat split.
  - cbn [stored document_memory document_index].
    eapply dict_set_length, dict_get_set.
  - intros Hc. by rewrite universal_newlines_no_cr.
Qed.

Lemma dict_get_elem {A} k (v : A) d : dict_get k d = Some v -> (k, v) ∈ d.
Proof.
  induction d as [|[k' v'] d IH]; simpl; [discriminate|].
  case_bool_decide as Hk.
  - intros [= ->]. subst k'. apply elem_of_cons. by left.
  - intros H. apply elem_of_cons. right. by apply IH.
Qed.

(** Claim C8.  [list_documents] answers from the index alone: the state,
    trace included, is as before, so no file was opened, and its items are
    the entries of the index, each as id, URL and metadata.  An entry whose
    content file is missing or unreadable is listed all the same, while
    [get_document] on its id returns [None] after printing the error of the
    read. *)
Theorem listing_without_content doc_id info st :
  dict_get doc_id (document_index (document_memory st)) = Some info ->
  (files st !! info_path info = None
   \/ exists e, files st !! info_path info = Some (Unreadable e)) ->
  Tools.list_documents st
  = (Ret {| Tools.documents := list_documents (document_memory st) |}, st)
  /\ (forall item,
        item ∈ list_documents (document_memory st) <->
        exists k i, (k, i) ∈ document_index (document_memory st)
                    /\ item = {| listing_id := k; listing_url := info_url i;
                                 listing_metadata := info_metadata i |})
  /\ {| listing_id := doc_id; listing_url := info_url info;
        listing_metadata := info_metadata info |} ∈ list_documents (document_memory st)
  /\ exists e,
       get_document rt doc_id st
       = (Ret None,
          traced [EvOpenRead (info_path info); EvPrint (retrieval_error_line doc_id e)] st).
Proof.
  intros Hidx Hfile.
  assert (forall item,
            item ∈ list_documents (document_memory st) <->
            exists k i, (k, i) ∈ document_index (document_memory st)
                        /\ item = {| listing_id := k; listing_url := info_url i;
                                     listing_metadata := info_metadata i |}) as Hitems.
  { intros item. unfold list_documents. rewrite list_elem_of_fmap. split.
    - intros ([k i] & -> & Hin). eauto.
    - intros (k & i & Hin & ->). exists (k, i). eauto. }
  split; [done|]. split; [exact Hitems|]. split.
  - apply Hitems. exists doc_id, info. split; [|done]. by apply dict_get_elem.
  - rewrite get_document_run, Hidx.
    destruct Hfile as [->|[e ->]]; eauto.
Qed.

End DocumentStore.

(** ** The extraction tool *)
Section Extraction.

Context (rt : Runtime).

(** The parsing chain yields a list whenever it yields a value. *)
Lemma extract_parse_list r v :
  Tools.extract_parse rt r = Ret v -> exists items, v = VList items.
Proof.
  unfold Tools.extract_parse.
  destruct (Re.search_bracket r) as [g|] eqn:Eg.
  - apply search_bracket_head in Eg as [t ->].
    destruct (Json.loads _ _) as [w| |e] eqn:El; [|intros [= <-]; eauto|discriminate].
    apply JsonFacts.loads_bracket_list in El as [items ->]. intros [= <-]. eauto.
  - destruct (Json.loads _ _) as [w| |e]; [|intros [= <-]; eauto..].
    destruct w; simpl; intros [= <-]; eauto.
Qed.

(** What the body of the [try] does in a state. *)
Lemma extract_reply_run prompt st :
  Tools.extract_reply rt prompt st =
    match llm st prompt with
    | ChatRaises e => (Raise e, traced [EvChat prompt] st)
    | ChatContent None => (Raise subscript_none, traced [EvChat prompt] st)
    | ChatContent (Some r) =>
        (Tools.extract_parse rt r,
         traced [EvChat prompt;
                 EvPrint (py "Extract info response: " ++ Str.slice_to 100 r ++ py "...")] st)
    end.
Proof.
  unfold Tools.extract_reply, Tools.chat_completions_create, emit, get_state, raise, print,
    emit, lift, traced, set_trace, mbind, M_bind, mret, M_ret. simpl.
  destruct (llm st prompt) as [e|[r|]]; simpl; try done.
  rewrite <- app_assoc. by destruct (Tools.extract_parse rt r).
Qed.

Lemma extract_info_run text info_type st :
  Tools.extract_info rt text info_type st =
    match Tools.extract_reply rt (Tools.extract_prompt rt text info_type) (announced st) with
    | (Ret v, st') => (Ret {| Tools.information := v |}, st')
    | (Raise e, st') =>
        (Ret {| Tools.information := error_information e |},
         traced [EvPrint (py "Error in extract_info: " ++ exc_msg e)] st')
    end.
Proof.
  unfold Tools.extract_info, Tools.OllamaClient, try_except, print, emit, announced, traced,
    mbind, M_bind, mret, M_ret. simpl.
  destruct (Tools.extract_reply _ _ _) as [[v|e] st']; reflexivity.
Qed.

(** Claim C2, amended.  When JSON parsing fails on a reply [r], a reply with
    no bracketed span gives the single item [r.strip()]; a reply with a
    bracketed span gives its stripped lines that are not empty and neither
    start nor end with a code fence, and only if there is none, the stripped
    pieces of [r] between commas. *)
Theorem extract_info_json_failure text info_type st r :
  llm st (Tools.extract_prompt rt text info_type) = ChatContent (Some r) ->
  json_fails rt r ->
  (Tools.extract_info rt text info_type st).1 =
    Ret {| Tools.information :=
             VList (VStr <$> match Re.search_bracket r with
                             | None => [Str.strip r]
                             | Some _ =>
                                 match Tools.reply_lines r with
                                 | [] => Tools.comma_items r
                                 | lines => lines
                                 end
                             end) |}.
Proof.
  intros Hllm Hfail. rewrite extract_info_run, extract_reply_run.
  change (llm (announced st)) with (llm st). rewrite Hllm.
  unfold json_fails in Hfail. unfold Tools.extract_parse, Tools.split_fallback.
  by destruct (Re.search_bracket r) as [g|]; rewrite Hfail.
Qed.

(** The exceptions that leave the parsing chain: those that [json.loads]
    raises on a bracketed span, [json.JSONDecodeError] apart. *)
Lemma extract_parse_raises r e :
  Tools.extract_parse rt r = Raise e <->
  exists group0, Re.search_bracket r = Some group0
                 /\ Json.loads (recursion_room rt) group0 = Json.JRaise e.
Proof.
  unfold Tools.extract_parse. split.
  - destruct (Re.search_bracket r) as [g|].
    + destruct (Json.loads _ g) as [w| |e'] eqn:El; try discriminate.
      intros [= ->]. eauto.
    + destruct (Json.loads _ r) as [w| |e']; try discriminate.
      by destruct (Tools.is_list w).
  - intros (g & -> & ->). done.
Qed.

(** Claim C3, amended.  [extract_info] returns, whatever the text, the type
    of information and the behaviour of the model, and its result holds a
    list under [information].  When an exception [e] leaves the body of its
    [try], that list is the single string "Error extracting information: "
    followed by [str(e)]; the exceptions that do are those of the call of the
    model, the [TypeError] of a reply without text, and what [json.loads]
    raises on the bracketed span of the reply other than
    [json.JSONDecodeError].  (The other exceptions of the parsing stages are
    handled by the chain, which then gives its fallback list.) *)
Theorem extract_info_never_raises text info_type st :
  let prompt := Tools.extract_prompt rt text info_type in
  exists items st',
    Tools.extract_info rt text info_type st = (Ret {| Tools.information := VList items |}, st')
    /\ (forall e st1,
          Tools.extract_reply rt prompt (announced st) = (Raise e, st1) ->
          items = [VStr (py "Error extracting information: " ++ exc_msg e)])
    /\ (forall e,
          (exists st1, Tools.extract_reply rt prompt (announced st) = (Raise e, st1)) <->
          llm st prompt = ChatRaises e
          \/ (llm st prompt = ChatContent None /\ e = subscript_none)
          \/ (exists r group0,
                llm st prompt = ChatContent (Some r)
                /\ Re.search_bracket r = Some group0
                /\ Json.loads (recursion_room rt) group0 = Json.JRaise e)).
Proof.
  cbv zeta. rewrite extract_info_run.
  assert (forall e,
            (exists st1, Tools.extract_reply rt (Tools.extract_prompt rt text info_type)
                           (announced st) = (Raise e, st1)) <->
            llm st (Tools.extract_prompt rt text info_type) = ChatRaises e
            \/ (llm st (Tools.extract_prompt rt text info_type) = ChatContent None
                /\ e = subscript_none)
            \/ (exists r group0,
                  llm st (Tools.extract_prompt rt text info_type) = ChatContent (Some r)
                  /\ Re.search_bracket r = Some group0
                  /\ Json.loads (recursion_room rt) group0 = Json.JRaise e)) as Hraises.
  { intros e. rewrite extract_reply_run. change (llm (announced st)) with (llm st).
    destruct (llm st _) as [e'|[r|]]; split.
    - intros [st1 [= -> _]]. by left.
    - intros [[= ->]|[[? _]|(? & ? & ? & _)]]; try discriminate. eauto.
    - intros [st1 [= Hp _]]. apply extract_parse_raises in Hp as (g & Hg & Hl).
      right. right. eauto.
    - intros [?|[[? _]|(r' & g & [= <-] & Hg & Hl)]]; try discriminate.
      eexists. f_equal. apply extract_parse_raises. eauto.
    - intros [st1 [= <- _]]. right. by left.
    - intros [?|[[_ ->]|(? & ? & ? & _)]]; try discriminate. eauto. }
  destruct (Tools.extract_reply _ _ _) as [[v|e] st1] eqn:E.
  - rewrite extract_reply_run in E.
    destruct (llm _ _) as [e|[r|]]; try discriminate.
    injection E as E _. apply extract_parse_list in E as [items ->].
    exists items, st1. split; [done|]. split; [intros; discriminate|exact Hraises].
  - eexists _, _. split; [reflexivity|]. split; [by intros ? ? [= <- _]|exact Hraises].
Qed.

End Extraction.

(** ** The search tool *)
Section Search.

Context (rt : Runtime).

(** The third replacement field of the prompt has no valid format
    specification. *)
Lemma search_prompt_raises query paragraphs :
  Tools.search_prompt rt query paragraphs = Raise format_error.
Proof. reflexivity. Qed.

(** Claim C5 (the code departs from it).  Whatever the text, the query and
    the model, [search_document] raises [ValueError] while it builds its
    prompt, after the constructor of the client has run and before the
    model is called: no reply is ever parsed. *)
Theorem search_document_raises text query st :
  Tools.search_document rt text query st = (Raise format_error, announced st).
Proof. reflexivity. Qed.

(** Claim C4, amended.  In the parsing chain of [search_document], when
    JSON parsing fails on a reply [r]: a reply with no bracketed span gives
    its double-quoted substrings, and [r] itself as the sole result if there
    is none; a reply with a bracketed span gives [r] itself as the sole
    result. *)
Theorem search_parse_json_failure r :
  json_fails rt r ->
  Tools.search_parse rt r =
    Ret (match Re.search_bracket r with
         | None => match Re.findall_quoted r with
                   | [] => [VStr r]
                   | found => VStr <$> found
                   end
         | Some _ => [VStr r]
         end).
Proof.
  unfold json_fails, Tools.search_parse.
  destruct (Re.search_bracket r); by intros ->.
Qed.

Lemma texts_of_objects items texts :
  mapM text_of items = Some texts -> Tools.texts_of items = Ret texts.
Proof.
  revert texts. induction items as [|item items IH]; intros texts H; simpl in *.
  - by injection H as <-.
  - unfold mbind, option_bind in H. cbn in H.
    destruct (text_of item) as [v|] eqn:Ev; [|done]. simpl in H.
    destruct (mapM text_of items) as [vs|] eqn:Evs; [|done]. simpl in H. injection H as <-.
    destruct item; try discriminate. simpl in Ev. simpl. rewrite Ev.
    rewrite bool_decide_eq_true_2 by eauto. by rewrite (IH _ eq_refl).
Qed.

(** The parsing chain keeps the order of the reply: when the bracketed span
    of [r] is an array of objects that all have a ["text"] field, the results
    are those fields in the order of the array. *)
Lemma search_parse_ranked r group0 items texts :
  Re.search_bracket r = Some group0 ->
  Json.loads (recursion_room rt) group0 = Json.JOk (VList items) ->
  mapM text_of items = Some texts ->
  Tools.search_parse rt r = Ret texts.
Proof.
  intros Hg Hl Ht. unfold Tools.search_parse. rewrite Hg, Hl. simpl.
  by apply texts_of_objects.
Qed.

(** So it is for a reply that is such an array from its first character to
    its last. *)
Corollary search_parse_array_reply mid items texts :
  let r := chr "[" :: mid ++ [chr "]"] in
  Json.loads (recursion_room rt) r = Json.JOk (VList items) ->
  mapM text_of items = Some texts ->
  Tools.search_parse rt r = Ret texts.
Proof.
  cbv zeta. intros Hl Ht. eapply search_parse_ranked; [|exact Hl|exact Ht].
  apply (search_bracket_span [] mid []); apply not_elem_of_nil.
Qed.

End Search.

(** ** The retrieval tool and the catalog tools *)
Section Retrieval.

Context (rt : Runtime).

(** [raise_for_status] raises on the statuses from 400 to 599 and on no
    other. *)
Lemma status_error_range r :
  is_Some (Tools.status_error r) <-> 400 <= status_code r < 600.
Proof.
  unfold Tools.status_error.
  destruct (400 <=? status_code r) eqn:E1; destruct (status_code r <? 500) eqn:E2;
    destruct (500 <=? status_code r) eqn:E3; destruct (status_code r <? 600) eqn:E4;
    simpl; rewrite ?is_Some_alt;
    rewrite ?N.leb_le, ?N.leb_gt, ?N.ltb_lt, ?N.ltb_ge in *; split; try done; lia.
Qed.

Lemma fetch_from_url_run url st :
  Tools.fetch_from_url rt url st =
    match network st url with
    | HttpRaises e => (Raise e, requested url st)
    | HttpResponse r =>
        match Tools.status_error r with
        | Some e => (Raise e, requested url st)
        | None =>
            (Ret {| Tools.content := Re.sub_tags (text r) |},
             stored rt url (Re.sub_tags (text r)) (fetched_at st) (requested url st))
        end
    end.
Proof.
  unfold Tools.fetch_from_url, Tools.requests_get, Tools.raise_for_status, Tools.datetime_now,
    requested, traced.
  unfold print, emit, get_state, raise, mbind, M_bind, mret, M_ret.
  cbn -[store_document]. rewrite <- app_assoc. cbn -[store_document].
  destruct (network st url) as [e|r]; [done|].
  destruct (Tools.status_error r) as [e|]; [done|].
  by rewrite store_document_run.
Qed.

Lemma fetch_document_run url st :
  Tools.fetch_document rt url st =
    match get_document_by_url rt url st with
    | (Ret (Some doc), st1) =>
        (Ret {| Tools.content := doc_content doc |}, traced [retrieved_line url] st1)
    | (Ret None, st1) =>
        match Tools.fetch_from_url rt url st1 with
        | (Ret out, st2) => (Ret out, st2)
        | (Raise e, st2) =>
            (Ret {| Tools.content := py "Error fetching document: " ++ exc_msg e |}, st2)
        end
    | (Raise e, st1) => (Raise e, st1)
    end.
Proof.
  unfold Tools.fetch_document, mbind, M_bind.
  destruct (get_document_by_url rt url st) as [[[doc|]|e] st1]; try done.
Qed.

(** A failed request: the state after the lookup, the announcement and the
    request, and the error as content. *)
Lemma fetch_document_failed url st e :
  (get_document_by_url rt url st).1 = Ret None ->
  fetch_failure (network st url) = Some e ->
  exists evs,
    Forall (fun ev => match ev with
                      | EvOpenRead _ | EvPrint _ => True
                      | _ => False
                      end) evs
    /\ Tools.fetch_document rt url st
       = (Ret {| Tools.content := py "Error fetching document: " ++ exc_msg e |},
          requested url (traced evs st)).
Proof.
  intros Hmiss Hfail.
  destruct (get_document_frame rt (_generate_doc_id rt url) st) as (found & evs & Hget & Hevs).
  unfold get_document_by_url in Hmiss. rewrite Hget in Hmiss. simpl in Hmiss.
  injection Hmiss as ->. exists evs. split; [done|].
  rewrite fetch_document_run. unfold get_document_by_url. rewrite Hget.
  rewrite fetch_from_url_run. change (network (traced evs st)) with (network st).
  unfold fetch_failure in Hfail.
  destruct (network st url) as [e'|r]; [by injection Hfail as ->|].
  by rewrite Hfail.
Qed.

Lemma fetch_document_hit url st doc :
  (get_document_by_url rt url st).1 = Ret (Some doc) ->
  exists path,
    Tools.fetch_document rt url st
    = (Ret {| Tools.content := doc_content doc |},
       traced [EvOpenRead path; retrieved_line url] st).
Proof.
  intros Hhit. apply get_document_found in Hhit as [path Hget].
  exists path. rewrite fetch_document_run. unfold get_document_by_url. rewrite Hget.
  by rewrite traced_traced.
Qed.

(** Claim C6.  For a URL that the store returns a document for,
    [fetch_document] returns the content of that document as it is and does
    nothing but read the content file and print a line: no request is sent.
    For a URL that the store returns nothing for, when the request is
    answered with a status that [raise_for_status] accepts, it sends the
    request, returns the body with its tags deleted, and stores that text
    under the URL with the time of the fetch as metadata; the next
    [fetch_document] of the URL is served from the store without a request,
    whatever the network then is. *)
Theorem fetch_document_cache url st :
  (forall doc,
     (get_document_by_url rt url st).1 = Ret (Some doc) ->
     exists path,
       Tools.fetch_document rt url st
       = (Ret {| Tools.content := doc_content doc |},
          traced [EvOpenRead path; retrieved_line url] st))
  /\ (forall r,
        (get_document_by_url rt url st).1 = Ret None ->
        network st url = HttpResponse r ->
        Tools.status_error r = None ->
        let body := Re.sub_tags (text r) in
        let st' := (Tools.fetch_document rt url st).2 in
        (Tools.fetch_document rt url st).1 = Ret {| Tools.content := body |}
        /\ EvHttpGet url ∈ trace st'
        /\ files st' !! doc_path rt (document_memory st) url = Some (Readable body)
        /\ dict_get (_generate_doc_id rt url) (document_index (document_memory st'))
           = Some {| info_url := url; info_path := doc_path rt (document_memory st) url;
                     info_metadata := [(py "fetched_at", VStr (clock st))] |}
        /\ forall net, exists path,
             Tools.fetch_document rt url (set_network net st')
             = (Ret {| Tools.content := universal_newlines body |},
                traced [EvOpenRead path; retrieved_line url] (set_network net st'))).
Proof.
  split; [intros doc; apply fetch_document_hit|].
  intros r Hmiss Hnet Hok. cbv zeta.
  destruct (get_document_frame rt (_generate_doc_id rt url) st) as (found & evs & Hget & _).
  unfold get_document_by_url in Hmiss. rewrite Hget in Hmiss. simpl in Hmiss.
  injection Hmiss as ->.
  assert (Tools.fetch_document rt url st
          = (Ret {| Tools.content := Re.sub_tags (text r) |},
             stored rt url (Re.sub_tags (text r)) (fetched_at st)
               (requested url (traced evs st)))) as Hrun.
  { rewrite fetch_document_run. unfold get_document_by_url. rewrite Hget.
    rewrite fetch_from_url_run. change (network (traced evs st)) with (network st).
    by rewrite Hnet, Hok. }
  rewrite Hrun. cbn [fst snd].
  split; [done|]. split.
  { cbn [stored trace requested traced set_trace]. rewrite !elem_of_app. left. right.
    apply elem_of_cons. right. by apply list_elem_of_singleton. }
  split.
  { cbn [stored files requested traced set_trace document_memory].
    rewrite lookup_insert_ne by (apply not_eq_sym, doc_path_not_index).
    by rewrite lookup_insert_eq. }
  split.
  { cbn [stored document_memory document_index requested traced set_trace].
    by rewrite dict_get_set. }
  intros net.
  apply (fetch_document_hit url _
           {| doc_id := _generate_doc_id rt url; doc_url := url;
              doc_content := universal_newlines (Re.sub_tags (text r));
              doc_metadata := fetched_at st |}).
  change (set_network net (stored rt url (Re.sub_tags (text r)) (fetched_at st)
                             (requested url (traced evs st))))
    with (stored rt url (Re.sub_tags (text r)) (fetched_at st)
            (set_network net (requested url (traced evs st)))).
  by rewrite get_after_store.
Qed.

(** Claim C7, amended.  For a URL that the store returns nothing for, when
    the request raises or is answered with a status from 400 to 599,
    [fetch_document] does not raise: it returns "Error fetching document: "
    followed by [str(e)] as content, [e] being the exception of the
    request. *)
Theorem fetch_document_failure url st e :
  (get_document_by_url rt url st).1 = Ret None ->
  fetch_failure (network st url) = Some e ->
  (Tools.fetch_document rt url st).1
  = Ret {| Tools.content := py "Error fetching document: " ++ exc_msg e |}.
Proof.
  intros Hmiss Hfail.
  destruct (fetch_document_failed url st e Hmiss Hfail) as (evs & _ & ->). done.
Qed.

(** Claim C10.  When the request of [fetch_document] fails, the store is as
    before: the index in memory and the files are unchanged, no file was
    opened for writing, and the URL is still not found. *)
Theorem fetch_failure_leaves_store url st e :
  (get_document_by_url rt url st).1 = Ret None ->
  fetch_failure (network st url) = Some e ->
  let st' := (Tools.fetch_document rt url st).2 in
  document_memory st' = document_memory st
  /\ files st' = files st
  /\ (forall path, EvOpenWrite path ∈ trace st' -> EvOpenWrite path ∈ trace st)
  /\ (get_document_by_url rt url st').1 = Ret None.
Proof.
  intros Hmiss Hfail. cbv zeta.
  destruct (fetch_document_failed url st e Hmiss Hfail) as (evs & Hevs & ->).
  cbn [snd]. repeat split.
  - intros path. cbn [requested traced set_trace trace].
    rewrite !elem_of_app. intros [[?|Hin]|Hin]; [done|..].
    + rewrite Forall_forall in Hevs. by apply Hevs in Hin.
    + apply elem_of_cons in Hin as [?|Hin]; [done|].
      by apply list_elem_of_singleton in Hin.
  - unfold get_document_by_url in *. by rewrite (get_document_result rt _ st).
Qed.

(** Claim C9.  The tool [get_document] never raises and always returns both
    fields: the content and the metadata of the document the store returns
    for the URL, or "Document not found" and empty metadata when the store
    returns none; for a URL whose id is not in the index that is the answer,
    and the state is untouched. *)
Theorem get_document_tool_shape url st :
  exists found st',
    get_document_by_url rt url st = (Ret found, st')
    /\ Tools.get_document rt url st
       = (Ret match found with
              | Some doc => {| Tools.found_content := doc_content doc;
                               Tools.metadata := doc_metadata doc |}
              | None => not_found
              end, st')
    /\ (dict_get (_generate_doc_id rt url) (document_index (document_memory st)) = None ->
        found = None /\ st' = st).
Proof.
  destruct (get_document_frame rt (_generate_doc_id rt url) st) as (found & evs & Hget & _).
  exists found, (traced evs st). unfold Tools.get_document, get_document_by_url, mbind, M_bind.
  rewrite Hget. split; [done|]. split; [by destruct found|].
  intros Hnone. rewrite get_document_run, Hnone in Hget.
  by injection Hget as <- <-.
Qed.

End Retrieval.

(** ** The properties at the inputs of the specification *)

(** Against claim C1 as stated: a content with a carriage return does not
    come back as it was stored. *)
Lemma store_then_get_carriage_return :
  let c := [chr "a"; CR; chr "b"] in
  let st1 := (store_document sample_runtime example_url c (Some [])
                (fresh_state offline no_model)).2 in
  (get_document_by_url sample_runtime example_url st1).1
  <> Ret (Some {| doc_id := _generate_doc_id sample_runtime example_url;
                  doc_url := example_url; doc_content := c; doc_metadata := [] |}).
Proof. vm_compute. discriminate. Qed.

Example store_then_get_line_feed :
  let c := [chr "a"; CR; chr "b"] in
  let st1 := (store_document sample_runtime example_url c (Some [])
                (fresh_state offline no_model)).2 in
  (get_document_by_url sample_runtime example_url st1).1
  = Ret (Some {| doc_id := _generate_doc_id sample_runtime example_url;
                 doc_url := example_url; doc_content := [chr "a"; LF; chr "b"];
                 doc_metadata := [] |}).
Proof. vm_compute. reflexivity. Qed.

Lemma extract_info_json_failure_witness :
  (Tools.extract_info sample_runtime (py "a text") (py "names")
     (fresh_state offline (replying item1_item2))).1
  = Ret {| Tools.information := VList [VStr item1_item2] |}.
Proof.
  exact (extract_info_json_failure sample_runtime (py "a text") (py "names")
           (fresh_state offline (replying item1_item2)) item1_item2
           eq_refl ltac:(vm_compute; reflexivity)).
Defined.

(** Against claim C2 as stated: the reply of two lines has no bracketed
    span and is not JSON, and is not split into its lines. *)
Lemma extract_info_keeps_lines_together :
  Re.search_bracket item1_item2 = None
  /\ Json.loads (recursion_room sample_runtime) item1_item2 = Json.JDecodeError
  /\ (Tools.extract_info sample_runtime (py "a text") (py "names")
        (fresh_state offline (replying item1_item2))).1
     <> Ret {| Tools.information := VList [VStr (py "item1"); VStr (py "item2")] |}.
Proof. vm_compute. repeat split; discriminate. Qed.

(** The line split, on a reply with a bracketed span that is not JSON. *)
Example extract_info_line_split :
  (Tools.extract_info sample_runtime (py "a text") (py "names")
     (fresh_state offline
        (replying (py "Names: [Ann, Bob]" ++ [LF] ++ py "```" ++ [LF] ++ py " - Cy ")))).1
  = Ret {| Tools.information := VList [VStr (py "Names: [Ann, Bob]"); VStr (py "- Cy")] |}.
Proof. vm_compute. reflexivity. Qed.

Example extract_info_array :
  (Tools.extract_info sample_runtime (py "a text") (py "names")
     (fresh_state offline (replying (dq "['a','b']")))).1
  = Ret {| Tools.information := VList [VStr (py "a"); VStr (py "b")] |}.
Proof. vm_compute. reflexivity. Qed.

Lemma extract_info_never_raises_witness :
  exists items st',
    Tools.extract_info sample_runtime (py "a text") (py "names")
      (fresh_state offline (replying deep_reply))
    = (Ret {| Tools.information := VList items |}, st')
    /\ items = [VStr (py "Error extracting information: "
                      ++ exc_msg (Json.recursion_error (py "array")))].
Proof.
  destruct (extract_info_never_raises sample_runtime (py "a text") (py "names")
              (fresh_state offline (replying deep_reply)))
    as (items & st' & Hrun & Herr & _).
  exists items, st'. split; [exact Hrun|].
  rewrite (Herr (Json.recursion_error (py "array")) _ ltac:(vm_compute; reflexivity)).
  vm_compute. reflexivity.
Defined.

(** Against claim C3 as stated: two replies that make a parsing stage throw
    and for which the result describes no error.  On the first,
    [json.loads] raises [JSONDecodeError] on the bracketed span and the
    result is the two lines of the reply; on the second, which has no
    bracketed span, [json.loads] raises [RecursionError] and the result is
    the reply itself. *)
Lemma extract_info_absorbs_parse_errors :
  (Re.search_bracket two_arrays = Some two_arrays
   /\ Json.loads (recursion_room sample_runtime) two_arrays = Json.JDecodeError
   /\ (Tools.extract_info sample_runtime (py "a text") (py "names")
         (fresh_state offline (replying two_arrays))).1
      = Ret {| Tools.information := VList [VStr (py "[a]"); VStr (py "[b]")] |})
  /\ (Re.search_bracket deep_object = None
      /\ Json.loads (recursion_room sample_runtime) deep_object
         = Json.JRaise (Json.recursion_error (py "object"))
      /\ (Tools.extract_info sample_runtime (py "a text") (py "names")
            (fresh_state offline (replying deep_object))).1
         = Ret {| Tools.information := VList [VStr deep_object] |}
      /\ VList [VStr deep_object]
         <> error_information (Json.recursion_error (py "object"))).
Proof. vm_compute. repeat split; discriminate. Qed.

Example extract_info_model_down :
  (Tools.extract_info sample_runtime (py "a text") (py "names")
     (fresh_state offline no_model)).1
  = Ret {| Tools.information :=
             VList [VStr (py "Error extracting information: Connection error.")] |}.
Proof. vm_compute. reflexivity. Qed.

Lemma search_parse_json_failure_witness :
  Tools.search_parse sample_runtime broken_array = Ret [VStr broken_array].
Proof.
  exact (search_parse_json_failure sample_runtime broken_array
           ltac:(vm_compute; reflexivity)).
Defined.

(** Against claim C4 as stated: JSON parsing fails on this reply, it has a
    double-quoted substring, and the result is not that substring, neither
    for the parsing chain nor for the tool. *)
Lemma search_keeps_raw_reply :
  Json.loads (recursion_room sample_runtime) broken_array = Json.JDecodeError
  /\ Re.findall_quoted broken_array = [py "a"]
  /\ Tools.search_parse sample_runtime broken_array <> Ret [VStr (py "a")]
  /\ (Tools.search_document sample_runtime (py "a text") (py "a query")
        (fresh_state offline (replying broken_array))).1
     <> Ret {| Tools.results := [VStr (py "a")] |}.
Proof. vm_compute. repeat split; discriminate. Qed.

Example search_parse_quoted :
  Tools.search_parse sample_runtime (dq "the 'a' and the 'b'")
  = Ret [VStr (py "a"); VStr (py "b")].
Proof. vm_compute. reflexivity. Qed.

(** The ranked reply of the specification: the parsing chain keeps its
    order, and the tool raises before it asks for a reply. *)
Example search_parse_ranked_reply :
  Tools.search_parse sample_runtime ranked_reply = Ret [VStr (py "P1"); VStr (py "P2")].
Proof. vm_compute. reflexivity. Qed.

Example search_document_ranked_reply :
  (Tools.search_document sample_runtime (py "P1" ++ [LF; LF] ++ py "P2") (py "a query")
     (fresh_state offline (replying ranked_reply))).1
  = Raise (Exc (py "ValueError")
             (py "Invalid format specifier ' 8, " ++ dq "'text': 'paragraph text'"
              ++ py "' for object of type 'str'")).
Proof. vm_compute. reflexivity. Qed.

Lemma fetch_document_cache_witness :
  let st' := (Tools.fetch_document sample_runtime example_url hi_page).2 in
  (Tools.fetch_document sample_runtime example_url hi_page).1
  = Ret {| Tools.content := py "hi" |}
  /\ (Tools.fetch_document sample_runtime example_url (set_network offline st')).1
     = Ret {| Tools.content := py "hi" |}
  /\ EvHttpGet example_url
     ∉ drop (length (trace st'))
         (trace (Tools.fetch_document sample_runtime example_url
                   (set_network offline st')).2).
Proof.
  destruct (proj2 (fetch_document_cache sample_runtime example_url hi_page)
              {| status_code := 200; reason := py "OK"; response_url := example_url;
                 text := py "<b>hi</b>" |}
              ltac:(vm_compute; reflexivity) eq_refl eq_refl)
    as (Hfirst & _ & _ & _ & Hsecond).
  cbv zeta. split; [exact Hfirst|].
  destruct (Hsecond offline) as [path ->].
  split; [reflexivity|].
  cbn [snd traced set_trace trace set_network]. rewrite drop_app_length.
  intros Hin. apply elem_of_cons in Hin as [?|Hin]; [done|].
  by apply list_elem_of_singleton in Hin.
Defined.

Lemma fetch_document_failure_witness :
  (Tools.fetch_document sample_runtime example_url not_found_page).1
  = Ret {| Tools.content :=
             py "Error fetching document: 404 Client Error: Not Found for url: "
             ++ example_url |}.
Proof.
  exact (fetch_document_failure sample_runtime example_url not_found_page _
           ltac:(vm_compute; reflexivity) ltac:(vm_compute; reflexivity)).
Defined.

Example fetch_document_offline :
  (Tools.fetch_document sample_runtime example_url (fresh_state offline no_model)).1
  = Ret {| Tools.content := py "Error fetching document: Connection refused" |}.
Proof. vm_compute. reflexivity. Qed.

(** Against claim C7 as stated: the URL is not in the store and the status
    of the answer is not a 2xx one, yet the content returned is the body of
    the answer and no description of an error. *)
Lemma fetch_document_keeps_3xx_body :
  (get_document_by_url sample_runtime example_url choices_page).1 = Ret None
  /\ (exists r, network choices_page example_url = HttpResponse r
                /\ ((200 <=? status_code r) && (status_code r <? 300)) = false)
  /\ (Tools.fetch_document sample_runtime example_url choices_page).1
     = Ret {| Tools.content := py "moved" |}
  /\ ~ exists msg,
         (Tools.fetch_document sample_runtime example_url choices_page).1
         = Ret {| Tools.content := py "Error fetching document: " ++ msg |}.
Proof.
  split; [vm_compute; reflexivity|].
  split; [eexists; split; [reflexivity|vm_compute; reflexivity]|].
  split; [vm_compute; reflexivity|].
  intros [msg H]. vm_compute in H. discriminate.
Qed.

Lemma fetch_failure_leaves_store_witness :
  let st' := (Tools.fetch_document sample_runtime example_url not_found_page).2 in
  document_memory st' = document_memory not_found_page
  /\ files st' = files not_found_page
  /\ (forall path, EvOpenWrite path ∈ trace st' -> EvOpenWrite path ∈ trace not_found_page)
  /\ (get_document_by_url sample_runtime example_url st').1 = Ret None.
Proof.
  exact (fetch_failure_leaves_store sample_runtime example_url not_found_page _
           ltac:(vm_compute; reflexivity) ltac:(vm_compute; reflexivity)).
Defined.

Lemma listing_without_content_witness :
  Tools.list_documents orphaned
  = (Ret {| Tools.documents :=
              [{| listing_id := example_url; listing_url := example_url;
                  listing_metadata := [] |}] |}, orphaned)
  /\ (get_document sample_runtime example_url orphaned).1 = Ret None.
Proof.
  destruct (listing_without_content sample_runtime example_url
              {| info_url := example_url;
                 info_path := py "./document_memory/http://example.com/a.txt";
                 info_metadata := [] |} orphaned
              ltac:(vm_compute; reflexivity) (or_introl eq_refl))
    as (Hlist & _ & _ & e & Hget).
  split; [exact Hlist|]. by rewrite Hget.
Defined.

Lemma get_document_tool_shape_witness :
  Tools.get_document sample_runtime example_url (fresh_state offline no_model)
  = (Ret not_found, fresh_state offline no_model).
Proof.
  destruct (get_document_tool_shape sample_runtime example_url (fresh_state offline no_model))
    as (found & st' & _ & Hrun & Hmiss).
  destruct (Hmiss eq_refl) as [-> ->]. exact Hrun.
Defined.

Example get_document_tool_stored :
  let st1 := (store_document sample_runtime example_url (py "some text")
                (Some [(py "k", VInt 1)]) (fresh_state offline no_model)).2 in
  (Tools.get_document sample_runtime example_url st1).1
  = Ret {| Tools.found_content := py "some text"; Tools.metadata := [(py "k", VInt 1)] |}.
Proof. vm_compute. reflexivity. Qed.

(** * Further properties of the code *)

Lemma value_nested_ind (P : value -> Prop) :
  P VNone -> (forall b, P (VBool b)) -> (forall z, P (VInt z)) ->
  (forall literal, P (VFloat literal)) -> (forall s, P (VStr s)) ->
  (forall items, Forall P items -> P (VList items)) ->
  (forall items, Forall (fun kv => P kv.2) items -> P (VDict items)) ->
  forall v, P v.
Proof.
  intros HNone HBool HInt HFloat HStr HList HDict.
  fix IH 1. intros [|b|z|literal|s|items|items];
    [apply HNone|apply HBool|apply HInt|apply HFloat|apply HStr| |].
  - apply HList. induction items as [|x items IHitems]; constructor; [apply IH|exact IHitems].
  - apply HDict. induction items as [|[k x] items IHitems]; constructor; [apply IH|exact IHitems].
Qed.

Module DumpsFacts.
Import Json Dumps JsonFacts Reading.

(** *** Strings *)

Lemma hexval_hex_digit d : d < 16 -> hexval (hex_digit d) = Some d.
Proof.
  intros Hd. unfold hexval, hex_digit, is_digit.
  destruct (d <? 10) eqn:E.
  - apply N.ltb_lt in E.
    replace ((48 <=? 48 + d) && (48 + d <=? 57)) with true
      by (symmetry; apply andb_true_intro; split; apply N.leb_le; lia).
    f_equal. lia.
  - apply N.ltb_ge in E.
    replace ((48 <=? 87 + d) && (87 + d <=? 57)) with false
      by (symmetry; apply andb_false_intro2, N.leb_gt; lia).
    replace ((97 <=? 87 + d) && (87 + d <=? 102)) with true
      by (symmetry; apply andb_true_intro; split; apply N.leb_le; lia).
    f_equal. lia.
Qed.

Lemma hex4_value n :
  n < 65536 ->
  16 * (16 * (16 * (16 * 0 + n / 4096 mod 16) + n / 256 mod 16) + n / 16 mod 16) + n mod 16
  = n.
Proof.
  intros Hn.
  pose proof (N.div_mod n 16 ltac:(lia)) as H0.
  pose proof (N.div_mod (n / 16) 16 ltac:(lia)) as H1.
  pose proof (N.div_mod (n / 256) 16 ltac:(lia)) as H2.
  pose proof (N.Div0.div_div n 16 16) as D1. pose proof (N.Div0.div_div n 256 16) as D2.
  change (16 * 16) with 256 in D1. change (256 * 16) with 4096 in D2.
  assert (n / 4096 < 16) by (apply N.Div0.div_lt_upper_bound; lia).
  rewrite (N.mod_small (n / 4096) 16) by lia.
  rewrite <- D2, <- D1 in *. lia.
Qed.

Lemma scanstring_u_escape hi n acc t :
  n < 65536 ->
  scanstring_from (SText hi) acc (u_escape n ++ t) = after_escape hi n acc t.
Proof.
  intros Hn. unfold u_escape.
  cbn [app scanstring_from].
  change (BACKSLASH =? QUOTE) with false. change (BACKSLASH =? BACKSLASH) with true.
  change (chr "u" =? chr "u") with true. cbv iota.
  rewrite !hexval_hex_digit by (apply N.mod_lt; lia).
  cbn [Nat.ltb Nat.leb]. cbv iota.
  rewrite hex4_value by done.
  reflexivity.
Qed.

Lemma lor_low a b k : N.land a (N.ones k) = 0 -> b < 2 ^ k -> N.lor a b = a + b.
Proof.
  intros Ha Hb.
  assert (N.land a b = 0) as Hab.
  { rewrite <- (N.mod_small b (2 ^ k)) by done. rewrite <- N.land_ones.
    by rewrite (N.land_comm b), N.land_assoc, Ha, N.land_0_l. }
  by rewrite N.add_nocarry_lxor, N.lxor_lor.
Qed.

Lemma is_scalar_not_surrogate c :
  is_scalar c = true -> is_high_surrogate c = false /\ is_low_surrogate c = false.
Proof.
  unfold is_scalar, is_high_surrogate, is_low_surrogate. intros H.
  apply orb_prop in H as [H|H].
  - apply N.ltb_lt in H. split; apply andb_false_intro1, N.leb_gt; lia.
  - apply andb_prop in H as [H _]. apply N.leb_le in H.
    split; apply andb_false_intro2, N.leb_gt; lia.
Qed.

(** The escape of a character decodes to that character. *)
Lemma scanstring_escape c acc t :
  is_scalar c = true ->
  scanstring_from (SText None) acc (escape c ++ t) = scanstring_from (SText None) (c :: acc) t.
Proof.
  intros Hc. unfold escape.
  destruct (c =? QUOTE) eqn:E1; [by apply N.eqb_eq in E1 as ->|].
  destruct (c =? BACKSLASH) eqn:E2; [by apply N.eqb_eq in E2 as ->|].
  destruct (c =? 10) eqn:E3; [by apply N.eqb_eq in E3 as ->|].
  destruct (c =? 13) eqn:E4; [by apply N.eqb_eq in E4 as ->|].
  destruct (c =? 9) eqn:E5; [by apply N.eqb_eq in E5 as ->|].
  destruct (c =? 12) eqn:E6; [by apply N.eqb_eq in E6 as ->|].
  destruct (c =? 8) eqn:E7; [by apply N.eqb_eq in E7 as ->|].
  destruct ((32 <=? c) && (c <=? 126)) eqn:E8.
  { apply andb_prop in E8 as [Hlo Hhi]. apply N.leb_le in Hlo.
    cbn [app scanstring_from]. rewrite E1, E2.
    by replace (c <=? 31) with false by (symmetry; apply N.leb_gt; lia). }
  destruct (is_scalar_not_surrogate c Hc) as [Hh Hl].
  destruct (c <? 65536) eqn:E9.
  { apply N.ltb_lt in E9. rewrite scanstring_u_escape by done.
    unfold after_escape. by rewrite Hh. }
  apply N.ltb_ge in E9.
  assert (c < 1114112) as Hmax.
  { unfold is_scalar in Hc. apply orb_prop in Hc as [H|H].
    - apply N.ltb_lt in H. lia.
    - apply andb_prop in H as [_ H]. by apply N.ltb_lt in H. }
  cbv zeta. set (n := c - 65536).
  assert (n < 1048576) as Hn by (unfold n; lia).
  assert (c = 65536 + n) as Hcn by (unfold n; lia). clearbody n.
  rewrite N.shiftr_div_pow2, (N.land_ones _ 10 : N.land _ 1023 = _).
  rewrite (N.land_ones _ 10 : N.land n 1023 = _).
  change (2 ^ 10) with 1024.
  assert (n / 1024 < 1024) as Hq by (apply N.Div0.div_lt_upper_bound; lia).
  rewrite (N.mod_small (n / 1024)) by done.
  pose proof (N.mod_lt n 1024 ltac:(lia)) as Hr.
  pose proof (N.div_mod n 1024 ltac:(lia)) as Hdm.
  rewrite (lor_low 55296 (n / 1024) 10), (lor_low 56320 (n mod 1024) 10) by done.
  set (q := n / 1024) in *. set (r := n mod 1024) in *. clearbody q r.
  rewrite <- app_assoc.
  rewrite (scanstring_u_escape None (55296 + q)) by lia.
  unfold after_escape.
  replace (is_high_surrogate (55296 + q)) with true
    by (symmetry; apply andb_true_intro; split; apply N.leb_le; lia).
  rewrite (scanstring_u_escape _ (56320 + r)) by lia.
  unfold after_escape.
  replace (is_low_surrogate (56320 + r)) with true
    by (symmetry; apply andb_true_intro; split; apply N.leb_le; lia).
  do 2 f_equal. unfold join_surrogates. lia.
Qed.

Lemma scanstring_escapes s acc t :
  forallb is_scalar s = true ->
  scanstring_from (SText None) acc (mjoin (escape <$> s) ++ QUOTE :: t)
  = POk (rev acc ++ s) t.
Proof.
  revert acc. induction s as [|c s IH]; intros acc Hs.
  - simpl. change (QUOTE =? QUOTE) with true. cbv iota. by rewrite app_nil_r.
  - apply andb_prop in Hs as [Hc Hs]. cbn [fmap list_fmap mjoin list_join].
    rewrite <- app_assoc, scanstring_escape, IH by done.
    cbn [rev]. by rewrite <- app_assoc.
Qed.

(** A string literal of the encoder decodes to its string. *)
Lemma scanstring_encoded s t :
  forallb is_scalar s = true ->
  exists body, encode_basestring_ascii s = QUOTE :: body
               /\ scanstring (body ++ t) = POk s t.
Proof.
  intros Hs. eexists. split; [reflexivity|].
  unfold scanstring. rewrite <- app_assoc. cbn [app]. by rewrite scanstring_escapes.
Qed.

(** *** Integers *)

Lemma py_string_of_uint d : py (NilEmpty.string_of_uint d) = uint_digits d.
Proof.
  unfold py. induction d; cbn [NilEmpty.string_of_uint String.list_ascii_of_string
    fmap list_fmap uint_digits]; [done|..]; by rewrite IHd.
Qed.

Lemma of_N_digits n : Str.of_N n = uint_digits (N.to_uint n).
Proof.
  unfold Str.of_N. rewrite <- py_string_of_uint.
  destruct n as [|p]; [done|].
  pose proof (DecimalPos.Unsigned.to_uint_nonnil p) as Hp.
  cbn [N.to_uint]. by destruct (Pos.to_uint p).
Qed.

Lemma uint_digits_are_digits d : Forall (fun c => is_digit c = true) (uint_digits d).
Proof. induction d; cbn [uint_digits]; constructor; done. Qed.

Lemma of_uint_acc_fold d acc :
  N.pos (Pos.of_uint_acc d acc) = fold_left decimal_step (uint_digits d) (N.pos acc).
Proof.
  revert acc. induction d; intros acc; cbn [uint_digits Pos.of_uint_acc fold_left]; [done|..];
    rewrite IHd; f_equal; unfold decimal_step; lia.
Qed.

Lemma of_uint_fold d : Pos.of_uint d = fold_left decimal_step (uint_digits d) 0.
Proof.
  induction d; cbn [uint_digits Pos.of_uint fold_left]; [done|exact IHd|..];
    by rewrite of_uint_acc_fold.
Qed.

Lemma of_N_value n : fold_left decimal_step (Str.of_N n) 0 = n.
Proof.
  rewrite of_N_digits, <- of_uint_fold.
  exact (DecimalN.Unsigned.of_to n).
Qed.

Lemma nzhead_not_D0 d u : Decimal.nzhead d <> Decimal.D0 u.
Proof. induction d; cbn [Decimal.nzhead]; try discriminate. exact IHd. Qed.

(** A printed number has no leading zero, unless it is [0]. *)
Lemma of_N_head n :
  exists c t, Str.of_N n = c :: t /\ is_digit c = true
              /\ Forall (fun d => is_digit d = true) t
              /\ (c = 48 -> t = []).
Proof.
  rewrite of_N_digits.
  assert (Decimal.unorm (N.to_uint n) = N.to_uint n) as Hnorm.
  { rewrite <- (DecimalN.Unsigned.of_to n) at 2. by rewrite DecimalN.Unsigned.to_of. }
  pose proof (uint_digits_are_digits (N.to_uint n)) as Hd.
  destruct (N.to_uint n) as [|l|l|l|l|l|l|l|l|l|l] eqn:E; cbn [uint_digits] in *.
  { by apply DecimalFacts.unorm_nonnil in Hnorm. }
  2-10: (eexists _, _; split; [reflexivity|]; apply Forall_cons in Hd as [? ?];
         repeat split; try done).
  eexists _, _. split; [reflexivity|]. apply Forall_cons in Hd as [? ?].
  repeat split; try done. intros _.
  unfold Decimal.unorm in Hnorm. cbn [Decimal.nzhead] in Hnorm.
  destruct (Decimal.nzhead l) eqn:El; try discriminate.
  - by injection Hnorm as <-.
  - by apply nzhead_not_D0 in El.
Qed.

Lemma span_digits_delimited rest : delimited rest = true -> span_digits rest = ([], rest).
Proof.
  destruct rest as [|c t]; [done|]. cbn [delimited span_digits]. intros H.
  apply orb_prop in H as [H|H]; apply N.eqb_eq in H as ->; done.
Qed.

Lemma span_digits_app ds rest :
  Forall (fun c => is_digit c = true) ds -> delimited rest = true ->
  span_digits (ds ++ rest) = (ds, rest).
Proof.
  intros Hds Hrest. induction Hds as [|c ds Hc _ IH]; [by apply span_digits_delimited|].
  cbn [app span_digits]. by rewrite Hc, IH.
Qed.

Lemma filter_digits ds :
  Forall (fun c => is_digit c = true) ds -> filter (fun c => is_digit c = true) ds = ds.
Proof.
  induction 1 as [|c ds Hc _ IH]; [done|].
  rewrite filter_cons_True by done. by rewrite IH.
Qed.

Lemma match_frac_delimited rest : delimited rest = true -> match_frac rest = None.
Proof.
  destruct rest as [|c [|d t]]; try done. cbn [delimited match_frac]. intros H.
  apply orb_prop in H as [H|H]; apply N.eqb_eq in H as ->; done.
Qed.

Lemma match_exp_delimited rest : delimited rest = true -> match_exp rest = None.
Proof.
  destruct rest as [|c t]; [done|]. cbn [delimited match_exp]. intros H.
  apply orb_prop in H as [H|H]; apply N.eqb_eq in H as ->; done.
Qed.

(** The decimal text of an integer is matched as a number, up to the
    delimiter, and read back as that integer. *)
Lemma match_number_int z text rest :
  int_repr z = Some text -> delimited rest = true ->
  match_number (text ++ rest) = POk (VInt z) rest.
Proof.
  unfold int_repr. intros Hrepr Hrest.
  destruct (int_max_str_digits <? length (Str.of_N (Z.abs_N z)))%nat eqn:Hlimit;
    [discriminate|].
  injection Hrepr as <-.
  pose proof (of_N_value (Z.abs_N z)) as Hvalue.
  destruct (of_N_head (Z.abs_N z)) as (c & t & Hds & Hc & Ht & Hzero).
  rewrite Hds in *.
  assert (c <> chr "-") as Hminus.
  { intros ->. discriminate. }
  set (sign := if (z <? 0)%Z then [chr "-"] else []).
  assert ((if (z <? 0)%Z then chr "-" :: c :: t else c :: t) = sign ++ c :: t) as ->
    by (unfold sign; by destruct (z <? 0)%Z).
  assert (match_int ((sign ++ c :: t) ++ rest) = Some (sign ++ c :: t, rest)) as Hint.
  { unfold match_int.
    assert ((let '(sg, s1) := match (sign ++ c :: t) ++ rest with
                               | c0 :: t0 => if c0 =? chr "-" then ([c0], t0)
                                             else ([], (sign ++ c :: t) ++ rest)
                               | [] => ([], (sign ++ c :: t) ++ rest)
                               end in (sg, s1)) = (sign, c :: t ++ rest)) as Hsign.
    { unfold sign. destruct (z <? 0)%Z; cbn [app].
      - done.
      - by rewrite (proj2 (N.eqb_neq _ _) Hminus). }
    destruct (match (sign ++ c :: t) ++ rest with
              | c0 :: t0 => if c0 =? chr "-" then ([c0], t0)
                            else ([], (sign ++ c :: t) ++ rest)
              | [] => ([], (sign ++ c :: t) ++ rest)
              end) as [sg s1].
    injection Hsign as -> ->.
    destruct ((49 <=? c) && (c <=? 57)) eqn:Hnz.
    - by rewrite span_digits_app.
    - assert (c = 48) as ->.
      { unfold is_digit in Hc. apply andb_prop in Hc as [H1 H2].
        apply N.leb_le in H1, H2.
        apply andb_false_iff in Hnz as [H|H]; apply N.leb_gt in H; lia. }
      rewrite (Hzero eq_refl). done. }
  unfold match_number. rewrite Hint.
  rewrite match_frac_delimited, match_exp_delimited by done.
  rewrite bool_decide_eq_true_2 by done.
  assert (filter (fun d => is_digit d = true) (sign ++ c :: t) = c :: t) as Hfilter.
  { rewrite filter_app, (filter_digits (c :: t)) by (by constructor).
    unfold sign. by destruct (z <? 0)%Z. }
  rewrite Hfilter, Hlimit. do 2 f_equal.
  unfold int_of_lexeme. rewrite Hfilter.
  change (fold_left _ (c :: t) 0) with (fold_left decimal_step (c :: t) 0).
  rewrite Hvalue. unfold sign.
  destruct (z <? 0)%Z eqn:Hz.
  - apply Z.ltb_lt in Hz. cbn [app Str.startswith]. change (py "-") with [chr "-"].
    cbn [Str.startswith]. rewrite N.eqb_refl. cbn [andb]. lia.
  - apply Z.ltb_ge in Hz. cbn [app]. change (py "-") with [chr "-"].
    cbn [Str.startswith].
    rewrite (proj2 (N.eqb_neq _ _) (not_eq_sym Hminus)). cbn [andb]. lia.
Qed.

(** *** More gas changes nothing *)

Lemma pmap_gas {A B} (f : A -> B) p : pmap f p <> PGas -> p <> PGas.
Proof. by destruct p. Qed.

Lemma gas_step g :
  (forall room s, scan_once g room s <> PGas ->
                  scan_once (S g) room s = scan_once g room s) /\
  (forall room s acc, array_items g room s acc <> PGas ->
                      array_items (S g) room s acc = array_items g room s acc) /\
  (forall room s acc, object_items g room s acc <> PGas ->
                      object_items (S g) room s acc = object_items g room s acc).
Proof.
  induction g as [|g (IHs & IHa & IHo)]; [by repeat split|].
  split; [|split].
  - intros room s. rewrite (scan_once_unfold (S g)), (scan_once_unfold g).
    destruct s as [|c t]; [done|].
    destruct (c =? QUOTE); [done|].
    destruct (c =? chr "{").
    { destruct room as [|room]; [done|]. destruct (skip_ws t) as [|c' t']; [done|].
      destruct (c' =? chr "}"); [done|].
      intros H. apply pmap_gas in H. by rewrite IHo. }
    destruct (c =? chr "[").
    { destruct room as [|room]; [done|]. destruct (skip_ws t) as [|c' t']; [done|].
      destruct (c' =? chr "]"); [done|].
      intros H. apply pmap_gas in H. by rewrite IHa. }
    done.
  - intros room s acc. rewrite (array_items_unfold (S g)), (array_items_unfold g).
    destruct (scan_once g room s) as [v r| | |] eqn:E; [| | |done];
      rewrite IHs, E by (by rewrite E); [|done..].
    destruct (skip_ws r) as [|c t]; [done|].
    destruct (c =? chr "]"); [done|]. destruct (c =? chr ","); [|done].
    intros H. by rewrite IHa.
  - intros room s acc. rewrite (object_items_unfold (S g)), (object_items_unfold g).
    destruct s as [|q t]; [done|]. destruct (q =? QUOTE); [|done].
    destruct (scanstring t) as [key r| | |]; try done.
    destruct (skip_ws r) as [|c r1]; [done|]. destruct (c =? chr ":"); [|done].
    destruct (scan_once g room (skip_ws r1)) as [v r2| | |] eqn:E; [| | |done];
      rewrite IHs, E by (by rewrite E); [|done..].
    destruct (skip_ws r2) as [|c' t']; [done|].
    destruct (c' =? chr "}"); [done|]. destruct (c' =? chr ","); [|done].
    intros H. by rewrite IHo.
Qed.

Lemma scan_once_more g g' room s :
  (g <= g')%nat -> scan_once g room s <> PGas -> scan_once g' room s = scan_once g room s.
Proof.
  intros Hle Hg. induction Hle as [|g' _ IH]; [done|].
  rewrite (proj1 (gas_step g')); [done|]. by rewrite IH.
Qed.

Lemma array_items_more g g' room s acc :
  (g <= g')%nat -> array_items g room s acc <> PGas ->
  array_items g' room s acc = array_items g room s acc.
Proof.
  intros Hle Hg. induction Hle as [|g' _ IH]; [done|].
  rewrite (proj1 (proj2 (gas_step g'))); [done|]. by rewrite IH.
Qed.

Lemma object_items_more g g' room s acc :
  (g <= g')%nat -> object_items g room s acc <> PGas ->
  object_items g' room s acc = object_items g room s acc.
Proof.
  intros Hle Hg. induction Hle as [|g' _ IH]; [done|].
  rewrite (proj2 (proj2 (gas_step g'))); [done|]. by rewrite IH.
Qed.

(** The decoder's answer does not depend on the gas it is given, once that
    is enough. *)
Lemma loads_by_scan room s v :
  (exists g, scan_once g room (skip_ws s) = POk v []) ->
  Str.startswith s [65279] = false ->
  loads room s = JOk v.
Proof.
  intros [g Hg] Hbom. unfold loads. rewrite Hbom.
  pose proof (scan_once_gas room s) as Hgas.
  assert (scan_once (gas_for s) room (skip_ws s) = POk v []) as ->; [|done].
  destruct (Nat.le_ge_cases g (gas_for s)) as [Hle|Hle].
  - rewrite (scan_once_more _ _ _ _ Hle); [done|]. by rewrite Hg.
  - by rewrite <- (scan_once_more _ _ _ _ Hle Hgas).
Qed.

(** *** The text of the encoder, read by the decoder *)

Lemma skip_ws_spaces k c t :
  is_ws c = false -> skip_ws (replicate k (chr " ") ++ c :: t) = c :: t.
Proof. intros Hc. induction k as [|k IH]; cbn [replicate app skip_ws]; [by rewrite Hc|exact IH]. Qed.

Lemma skip_ws_newline_indent indent level c t :
  is_ws c = false -> skip_ws (newline_indent indent level ++ c :: t) = c :: t.
Proof. intros Hc. unfold newline_indent. cbn [app skip_ws]. by apply skip_ws_spaces. Qed.

Lemma join_cons sep p q qs : join sep (p :: q :: qs) = p ++ sep ++ join sep (q :: qs).
Proof. reflexivity. Qed.

Lemma sequence_cons {A B} (f : A -> option B) x l pieces :
  sequence (f <$> x :: l) = Some pieces ->
  exists p ps, f x = Some p /\ sequence (f <$> l) = Some ps /\ pieces = p :: ps.
Proof.
  cbn [fmap list_fmap sequence]. destruct (f x) as [p|]; cbn; [|done].
  destruct (sequence (f <$> l)) as [ps|]; cbn; [|done].
  intros [= <-]. eauto.
Qed.

Lemma dict_set_fresh {A} k (v : A) d : k ∉ d.*1 -> dict_set k v d = d ++ [(k, v)].
Proof.
  induction d as [|[k' v'] d IH]; [done|]. cbn [fmap list_fmap fst dict_set app].
  intros Hk. apply not_elem_of_cons in Hk as [Hne Hk].
  rewrite bool_decide_eq_false_2 by done. by rewrite IH.
Qed.

Lemma dict_of_pairs_distinct {A} (d pairs : list (str * A)) :
  NoDup (d ++ pairs).*1 ->
  fold_left (fun d kv => dict_set kv.1 kv.2 d) pairs d = d ++ pairs.
Proof.
  revert d. induction pairs as [|[k v] pairs IH]; intros d Hd; cbn [fold_left fst snd].
  { by rewrite app_nil_r. }
  rewrite dict_set_fresh.
  - rewrite IH; rewrite <- app_assoc; done.
  - rewrite fmap_app in Hd. apply NoDup_app in Hd as (_ & Hd & _).
    intros Hk. apply (Hd _ Hk). cbn. apply elem_of_cons. by left.
Qed.

Lemma is_digit_opens c :
  is_digit c = true -> is_ws c = false /\ (c =? chr "]") = false /\ c <> 65279.
Proof.
  unfold is_digit, is_ws. intros H. apply andb_prop in H as [H1 H2].
  apply N.leb_le in H1, H2.
  repeat split; [|apply N.eqb_neq; intros ->; vm_compute in H2; done|intros ->; vm_compute in H2; done].
  repeat (apply orb_false_intro); apply N.eqb_neq; lia.
Qed.

Section ReadBack.

Context (rt : Runtime) (indent : nat).

(** A value starts with a character that is neither whitespace nor a
    closing bracket nor a byte-order mark. *)
Lemma encode_head room level v text :
  plain v = true -> encode rt indent room level v = Some text ->
  exists c t, text = c :: t /\ is_ws c = false /\ (c =? chr "]") = false /\ c <> 65279.
Proof.
  intros Hplain.
  destruct v as [|[|]|z|literal|s|[|x items]|[|kv items]]; cbn [encode]; try discriminate.
  1-3, 5-6, 8: (intros [= <-]; eexists _, _; split; [reflexivity|]; by vm_compute).
  - unfold int_repr. case_match; [done|]. intros [= <-].
    destruct (of_N_head (Z.abs_N z)) as (c & t & -> & Hc & _).
    destruct (is_digit_opens c Hc) as (? & ? & ?).
    destruct (z <? 0)%Z; eexists _, _; (split; [reflexivity|]); [by vm_compute|done].
  - destruct room; [done|]. intros H. apply bind_Some in H as (pieces & _ & [= <-]).
    eexists _, _. split; [reflexivity|]. by vm_compute.
  - destruct room; [done|]. intros H. apply bind_Some in H as (pieces & _ & [= <-]).
    eexists _, _. split; [reflexivity|]. by vm_compute.
Qed.

Lemma match_constant_number c t :
  is_digit c = true \/ (c = chr "-" /\ exists d t', t = d :: t' /\ is_digit d = true) ->
  match_constant constants (c :: t) = None.
Proof.
  assert (forall d, is_digit d = true -> forall a, (a <? 48) || (57 <? a) = true -> (a =? d) = false)
    as Hne.
  { intros d Hd a Ha. unfold is_digit in Hd. apply andb_prop in Hd as [H1 H2].
    apply N.leb_le in H1, H2. apply N.eqb_neq.
    apply orb_prop in Ha as [Ha|Ha]; apply N.ltb_lt in Ha; lia. }
  intros [Hc|[-> (d & t' & -> & Hd)]].
  - unfold constants. cbn [match_constant]. unfold py.
    cbn [String.list_ascii_of_string fmap list_fmap Str.startswith].
    by rewrite !(Hne c Hc) by done.
  - unfold constants. cbn [match_constant]. unfold py.
    cbn [String.list_ascii_of_string fmap list_fmap Str.startswith].
    change (Ascii.N_of_ascii "-" =? chr "-") with true.
    by rewrite !(Hne d Hd) by done.
Qed.

Lemma scan_once_int g room z text rest :
  int_repr z = Some text -> delimited rest = true ->
  scan_once (S g) room (text ++ rest) = POk (VInt z) rest.
Proof.
  intros Hrepr Hrest. pose proof (match_number_int z text rest Hrepr Hrest) as Hnumber.
  unfold int_repr in Hrepr. case_match; [done|]. injection Hrepr as <-.
  destruct (of_N_head (Z.abs_N z)) as (c & t & Hds & Hc & _).
  rewrite Hds in *. clear Hds.
  destruct (is_digit_opens c Hc) as (_ & _ & _).
  assert (forall a, (a <? 48) || (57 <? a) = true -> (c =? a) = false) as Hne.
  { intros a Ha. unfold is_digit in Hc. apply andb_prop in Hc as [H1 H2].
    apply N.leb_le in H1, H2. apply N.eqb_neq.
    apply orb_prop in Ha as [Ha|Ha]; apply N.ltb_lt in Ha; lia. }
  rewrite scan_once_unfold.
  destruct (z <? 0)%Z; cbn [app] in *.
  - change (chr "-" =? QUOTE) with false. change (chr "-" =? chr "{") with false.
    change (chr "-" =? chr "[") with false. cbv iota.
    unfold scan_atom. rewrite match_constant_number; [done|].
    right. split; [done|]. eauto.
  - rewrite !Hne by done.
    unfold scan_atom. rewrite match_constant_number; [done|]. by left.
Qed.

Lemma array_items_encoded room level close room_d items :
  Forall (read_back rt indent) items ->
  forall pieces acc rest,
    forallb plain items = true -> items <> [] ->
    sequence (encode rt indent room level <$> items) = Some pieces ->
    (max_list (depth <$> items) <= room_d)%nat ->
    exists g, array_items g room_d
                (join (chr "," :: newline_indent indent level) pieces
                 ++ newline_indent indent close ++ chr "]" :: rest) acc
              = POk (rev acc ++ items) rest.
Proof.
  induction 1 as [|x items Hx _ IH]; intros pieces acc rest Hplain Hne Hseq Hdepth; [done|].
  apply sequence_cons in Hseq as (p & ps & Hp & Hps & ->).
  cbn [forallb] in Hplain. apply andb_prop in Hplain as [Hpx Hpitems].
  cbn [fmap list_fmap max_list] in Hdepth. unfold id in Hdepth.
  apply Nat.max_lub_iff in Hdepth as [Hdx Hditems].
  destruct items as [|y items].
  - injection Hps as <-. cbn [join].
    destruct (Hx Hpx room level p room_d Hp Hdx
                (newline_indent indent close ++ chr "]" :: rest) eq_refl) as [g Hg].
    exists (S g). rewrite array_items_unfold, Hg.
    rewrite skip_ws_newline_indent by done.
    change (chr "]" =? chr "]") with true. cbv iota. done.
  - apply sequence_cons in Hps as Hq. destruct Hq as (q & qs & Hq & _ & ->).
    rewrite join_cons, <- !app_assoc. cbn [app].
    set (tail := join (chr "," :: newline_indent indent level) (q :: qs)
                 ++ newline_indent indent close ++ chr "]" :: rest) in *.
    destruct (Hx Hpx room level p room_d Hp Hdx
                (chr "," :: newline_indent indent level ++ tail) eq_refl) as [g1 Hg1].
    destruct (IH (q :: qs) (x :: acc) rest Hpitems ltac:(done) Hps Hditems) as [g2 Hg2].
    fold tail in Hg2.
    exists (S (g1 `max` g2)). rewrite array_items_unfold.
    rewrite (scan_once_more g1), Hg1 by (lia || by rewrite Hg1).
    change (skip_ws (chr "," :: ?t)) with (chr "," :: t).
    change (chr "," =? chr "]") with false. change (chr "," =? chr ",") with true. cbv iota.
    assert (exists c t, tail = c :: t /\ is_ws c = false) as (c & t & Htail & Hc).
    { cbn [forallb] in Hpitems. apply andb_prop in Hpitems as [Hpy _].
      destruct (encode_head _ _ _ _ Hpy Hq) as (c & t & -> & Hc & _).
      unfold tail. destruct qs; cbn [join app]; eauto. }
    rewrite Htail in *. rewrite skip_ws_newline_indent by done.
    rewrite (array_items_more g2), Hg2 by (lia || by rewrite Hg2).
    cbn [rev]. by rewrite <- app_assoc.
Qed.

(** One item of an object: the key, the colon and the value. *)
Lemma object_items_item g room key text v rest acc :
  forallb is_scalar key = true ->
  (exists c t, text = c :: t /\ is_ws c = false) ->
  scan_once g room (text ++ rest) = POk v rest ->
  object_items (S g) room (encode_basestring_ascii key ++ py ": " ++ text ++ rest) acc
  = match skip_ws rest with
    | c' :: t' =>
        if c' =? chr "}" then POk (dict_of_pairs (rev ((key, v) :: acc))) t'
        else if c' =? chr "," then object_items g room (skip_ws t') ((key, v) :: acc)
        else PDecodeError
    | [] => PDecodeError
    end.
Proof.
  intros Hkey (c & t & -> & Hc) Hscan.
  rewrite object_items_unfold. unfold encode_basestring_ascii.
  cbn [app]. change (QUOTE =? QUOTE) with true. cbv iota.
  unfold scanstring. rewrite <- !app_assoc. cbn [app].
  rewrite scanstring_escapes by done. cbn [rev app].
  change (py ": ") with [chr ":"; chr " "]. cbn [app skip_ws].
  change (is_ws (chr ":")) with false. cbv iota.
  change (chr ":" =? chr ":") with true. cbv iota.
  cbn [skip_ws]. change (is_ws (chr " ")) with true. cbv iota.
  rewrite Hc. cbn [app] in Hscan. by rewrite Hscan.
Qed.

Lemma encode_item_Some room level k x p :
  encode_item rt indent room level (k, x) = Some p ->
  exists text, encode rt indent room level x = Some text
               /\ p = encode_basestring_ascii k ++ py ": " ++ text.
Proof.
  unfold encode_item. cbn [fst snd].
  destruct (encode rt indent room level x) as [text|]; [|done].
  intros H. exists text. split; [done|]. symmetry. exact (Some_inj _ _ H).
Qed.

Lemma object_items_encoded room level close room_d items :
  Forall (fun kv : str * value => read_back rt indent kv.2) items ->
  forall pieces acc rest,
    forallb (fun kv : str * value => forallb is_scalar kv.1) items = true ->
    forallb (fun kv : str * value => plain kv.2) items = true -> items <> [] ->
    sequence (encode_item rt indent room level <$> items) = Some pieces ->
    (max_list ((fun kv : str * value => depth kv.2) <$> items) <= room_d)%nat ->
    exists g, object_items g room_d
                (join (chr "," :: newline_indent indent level) pieces
                 ++ newline_indent indent close ++ chr "}" :: rest) acc
              = POk (dict_of_pairs (rev acc ++ items)) rest.
Proof.
  induction 1 as [|[k x] items Hx _ IH];
    intros pieces acc rest Hkeys Hplain Hne Hseq Hdepth; [done|].
  apply sequence_cons in Hseq as (p & ps & Hp & Hps & ->).
  cbn [forallb fst snd] in Hkeys, Hplain, Hx.
  apply andb_prop in Hkeys as [Hk Hkeys]. apply andb_prop in Hplain as [Hpx Hpitems].
  cbn [fmap list_fmap max_list snd] in Hdepth. unfold id in Hdepth.
  apply Nat.max_lub_iff in Hdepth as [Hdx Hditems].
  apply encode_item_Some in Hp as (text & Htext & ->).
  pose proof (encode_head _ _ _ _ Hpx Htext) as (c & t & Hhead & Hc & _).
  destruct items as [|[k' y] items].
  - injection Hps as <-. cbn [join]. rewrite <- !app_assoc.
    destruct (Hx Hpx room level text room_d Htext Hdx
                (newline_indent indent close ++ chr "}" :: rest) eq_refl) as [g Hg].
    exists (S g). rewrite (object_items_item g) with (v := x) by eauto.
    rewrite skip_ws_newline_indent by done.
    change (chr "}" =? chr "}") with true. cbv iota. cbn [rev]. done.
  - apply sequence_cons in Hps as Hq. destruct Hq as (q & qs & Hq & _ & ->).
    rewrite join_cons, <- !app_assoc. cbn [app].
    set (tail := join (chr "," :: newline_indent indent level) (q :: qs)
                 ++ newline_indent indent close ++ chr "}" :: rest) in *.
    destruct (Hx Hpx room level text room_d Htext Hdx
                (chr "," :: newline_indent indent level ++ tail) eq_refl) as [g1 Hg1].
    destruct (IH (q :: qs) ((k, x) :: acc) rest Hkeys Hpitems ltac:(done) Hps Hditems)
      as [g2 Hg2].
    fold tail in Hg2.
    exists (S (g1 `max` g2)).
    rewrite (object_items_item _ _ _ _ x); [|done|eauto|].
    2: { rewrite (scan_once_more g1), Hg1; [done|lia|by rewrite Hg1]. }
    change (skip_ws (chr "," :: ?t)) with (chr "," :: t).
    change (chr "," =? chr "}") with false. change (chr "," =? chr ",") with true. cbv iota.
    assert (exists c t, tail = c :: t /\ is_ws c = false) as (c1 & t1 & Htail & Hc1).
    { apply encode_item_Some in Hq as (? & _ & ->).
      unfold tail, encode_basestring_ascii. destruct qs; cbn [join app]; eauto. }
    rewrite Htail in *. rewrite skip_ws_newline_indent by done.
    rewrite (object_items_more g2), Hg2 by (lia || by rewrite Hg2).
    cbn [rev]. by rewrite <- app_assoc.
Qed.

Lemma startswith_app p rest : Str.startswith (p ++ rest) p = true.
Proof.
  induction p as [|a p IH]; [by destruct rest|].
  cbn [app Str.startswith]. by rewrite N.eqb_refl, IH.
Qed.

(** The three constants of the encoder are read back. *)
Lemma scan_once_constant g room name v rest :
  (name, v) ∈ [(py "null", VNone); (py "true", VBool true); (py "false", VBool false)] ->
  scan_once (S g) room (name ++ rest) = POk v rest.
Proof.
  intros Hin. assert (match_constant constants (name ++ rest) = Some (v, rest)) as Hconst.
  { unfold constants. cbn [match_constant].
    apply elem_of_cons in Hin as [[= -> ->]|Hin]; [|apply elem_of_cons in Hin as [[= -> ->]|Hin]];
      [| |apply list_elem_of_singleton in Hin as [= -> ->]].
    - by rewrite startswith_app, drop_app_length.
    - change (Str.startswith (py "true" ++ rest) (py "null")) with false. cbv iota.
      by rewrite startswith_app, drop_app_length.
    - change (Str.startswith (py "false" ++ rest) (py "null")) with false.
      change (Str.startswith (py "false" ++ rest) (py "true")) with false. cbv iota.
      by rewrite startswith_app, drop_app_length. }
  rewrite scan_once_unfold.
  repeat (apply elem_of_cons in Hin as [[= -> ->]|Hin]); [..|by apply elem_of_nil in Hin];
    [change (py "null" ++ rest) with (chr "n" :: py "ull" ++ rest) in *
    |change (py "true" ++ rest) with (chr "t" :: py "rue" ++ rest) in *
    |change (py "false" ++ rest) with (chr "f" :: py "alse" ++ rest) in *];
    unfold scan_atom; by rewrite Hconst.
Qed.

Lemma encode_reads v : read_back rt indent v.
Proof.
  induction v as [|b|z|literal|s|items IH|items IH] using value_nested_ind;
    intros Hplain room level text room_d Henc Hdepth rest Hrest.
  - injection Henc as <-. exists 1%nat. apply scan_once_constant. set_solver.
  - destruct b; injection Henc as <-; exists 1%nat; apply scan_once_constant; set_solver.
  - exists 1%nat. by apply scan_once_int.
  - done.
  - injection Henc as <-. exists 1%nat. rewrite scan_once_unfold.
    unfold encode_basestring_ascii. cbn [app].
    change (QUOTE =? QUOTE) with true. cbv iota. unfold scanstring.
    rewrite <- app_assoc. cbn [app]. by rewrite scanstring_escapes.
  - cbn [depth] in Hdepth. destruct room_d as [|room_d]; [lia|].
    destruct items as [|x items]; cbn [encode] in Henc.
    { injection Henc as <-. exists 1%nat. reflexivity. }
    destruct room as [|room]; [done|].
    apply bind_Some in Henc as (pieces & Hseq & Heq). apply Some_inj in Heq as <-.
    cbn [plain] in Hplain.
    destruct (array_items_encoded room (S level) level room_d (x :: items) IH
                pieces [] rest Hplain ltac:(done) Hseq ltac:(lia)) as [g Hg].
    exists (S g). rewrite scan_once_unfold. unfold bracketed. cbn [app].
    change (chr "[" =? QUOTE) with false. change (chr "[" =? chr "{") with false.
    change (chr "[" =? chr "[") with true. cbv iota.
    apply sequence_cons in Hseq as (p & ps & Hp & _ & ->).
    cbn [forallb] in Hplain. apply andb_prop in Hplain as [Hpx _].
    destruct (encode_head _ _ _ _ Hpx Hp) as (c & t & -> & Hc & Hclose & _).
    rewrite <- !app_assoc in *. cbn [app] in *.
    assert (exists t', join (chr "," :: newline_indent indent (S level)) ((c :: t) :: ps)
                       = c :: t') as [t' Ht'].
    { destruct ps; cbn [join app]; eauto. }
    rewrite Ht' in *. cbn [app] in *.
    rewrite skip_ws_newline_indent by done. rewrite Hclose, Hg. done.
  - cbn [depth] in Hdepth. destruct room_d as [|room_d]; [lia|].
    destruct items as [|[k x] items]; cbn [encode] in Henc.
    { injection Henc as <-. exists 1%nat. reflexivity. }
    destruct room as [|room]; [done|].
    apply bind_Some in Henc as (pieces & Hseq & Heq). apply Some_inj in Heq as <-.
    cbn [plain] in Hplain.
    apply andb_prop in Hplain as [Hplain Hvalues].
    apply andb_prop in Hplain as [Hkeys Hdistinct].
    apply bool_decide_eq_true_1 in Hdistinct.
    destruct (object_items_encoded room (S level) level room_d ((k, x) :: items) IH
                pieces [] rest Hkeys Hvalues ltac:(done) Hseq ltac:(lia)) as [g Hg].
    exists (S g). rewrite scan_once_unfold. unfold bracketed. cbn [app].
    change (chr "{" =? QUOTE) with false. change (chr "{" =? chr "{") with true. cbv iota.
    apply sequence_cons in Hseq as (p & ps & Hp & _ & ->).
    apply encode_item_Some in Hp as (x0 & _ & ->).
    rewrite <- !app_assoc in *. cbn [app] in *.
    assert (exists t', join (chr "," :: newline_indent indent (S level))
                         ((encode_basestring_ascii k ++ py ": " ++ x0) :: ps)
                       = QUOTE :: t') as [t' Ht'].
    { unfold encode_basestring_ascii. destruct ps; cbn [join app]; eauto. }
    rewrite Ht' in *. cbn [app] in *.
    rewrite skip_ws_newline_indent by done.
    change (QUOTE =? chr "}") with false. cbv iota. rewrite Hg. cbn [pmap rev app].
    unfold dict_of_pairs. by rewrite (dict_of_pairs_distinct []).
Qed.

End ReadBack.

(** *** The text of the encoder holds no carriage return *)

Lemma no_cr_app a b : no_cr a -> no_cr b -> no_cr (a ++ b).
Proof. intros. by apply Forall_app. Qed.

Lemma hex_digit_no_cr d : hex_digit d <> CR.
Proof. unfold hex_digit, CR. destruct (d <? 10); lia. Qed.

Lemma escape_no_cr c : no_cr (escape c).
Proof.
  unfold escape, u_escape.
  repeat case_match; repeat (apply Forall_cons; split); try apply Forall_nil;
    try apply hex_digit_no_cr; try (by vm_compute).
  by apply N.eqb_neq.
Qed.

Lemma encode_basestring_ascii_no_cr s : no_cr (encode_basestring_ascii s).
Proof.
  unfold encode_basestring_ascii. apply Forall_cons. split; [by vm_compute|].
  apply no_cr_app; [|by repeat constructor].
  induction s as [|c s IH]; [constructor|]. cbn. apply no_cr_app; [apply escape_no_cr|exact IH].
Qed.

Lemma int_repr_no_cr z text : int_repr z = Some text -> no_cr text.
Proof.
  unfold int_repr. case_match; [done|]. intros [= <-].
  assert (no_cr (Str.of_N (Z.abs_N z))) as Hd.
  { rewrite of_N_digits. eapply Forall_impl; [apply uint_digits_are_digits|].
    intros c Hc ->. done. }
  destruct (z <? 0)%Z; [|done]. apply Forall_cons. split; [by vm_compute|done].
Qed.

Lemma newline_indent_no_cr indent level : no_cr (newline_indent indent level).
Proof.
  unfold newline_indent. apply Forall_cons. split; [by vm_compute|].
  apply Forall_replicate. by vm_compute.
Qed.

Lemma join_no_cr sep pieces : no_cr sep -> Forall no_cr pieces -> no_cr (join sep pieces).
Proof.
  intros Hsep. induction 1 as [|p pieces Hp Hps IH]; [constructor|].
  destruct pieces as [|q qs]; [done|].
  rewrite join_cons. by repeat apply no_cr_app.
Qed.

Lemma bracketed_no_cr indent level open close pieces :
  open <> CR -> close <> CR -> Forall no_cr pieces ->
  no_cr (bracketed indent level open close pieces).
Proof.
  intros Ho Hc Hp. unfold bracketed. apply Forall_cons. split; [done|].
  repeat apply no_cr_app; try apply newline_indent_no_cr; [|by repeat constructor].
  apply join_no_cr; [|done]. apply Forall_cons. split; [by vm_compute|].
  apply newline_indent_no_cr.
Qed.

Lemma encode_no_cr rt indent v :
  plain v = true -> forall room level text,
  encode rt indent room level v = Some text -> no_cr text.
Proof.
  induction v as [|b|z|literal|s|items IH|items IH] using value_nested_ind;
    intros Hplain room level text Henc.
  - injection Henc as <-. by repeat constructor.
  - destruct b; injection Henc as <-; by repeat constructor.
  - by apply int_repr_no_cr in Henc.
  - done.
  - injection Henc as <-. apply encode_basestring_ascii_no_cr.
  - destruct items as [|x items]; cbn [encode] in Henc.
    { injection Henc as <-. by repeat constructor. }
    destruct room as [|room]; [done|].
    apply bind_Some in Henc as (pieces & Hseq & Heq). apply Some_inj in Heq as <-.
    apply bracketed_no_cr; [done..|]. cbn [plain] in Hplain.
    clear -IH Hplain Hseq. revert pieces Hseq.
    induction IH as [|y l Hy _ IHl]; intros pieces Hseq.
    { injection Hseq as <-. constructor. }
    apply sequence_cons in Hseq as (p & ps & Hp & Hps & ->).
    cbn [forallb] in Hplain. apply andb_prop in Hplain as [Hpy Hpl].
    constructor; [by eapply Hy|by apply IHl].
  - destruct items as [|[k x] items]; cbn [encode] in Henc.
    { injection Henc as <-. by repeat constructor. }
    destruct room as [|room]; [done|].
    apply bind_Some in Henc as (pieces & Hseq & Heq). apply Some_inj in Heq as <-.
    apply bracketed_no_cr; [done..|]. cbn [plain] in Hplain.
    apply andb_prop in Hplain as [_ Hplain].
    change (sequence (encode_item rt indent room (S level) <$> (k, x) :: items) = Some pieces)
      in Hseq.
    clear -IH Hplain Hseq. revert pieces Hseq.
    induction IH as [|[k' y] l Hy _ IHl]; intros pieces Hseq.
    { injection Hseq as <-. constructor. }
    apply sequence_cons in Hseq as (p & ps & Hp & Hps & ->).
    cbn [forallb snd] in Hplain, Hy. apply andb_prop in Hplain as [Hpy Hpl].
    apply encode_item_Some in Hp as (text & Htext & ->).
    constructor; [|by apply IHl].
    repeat apply no_cr_app; [apply encode_basestring_ascii_no_cr|by repeat constructor|].
    by eapply Hy.
Qed.

(** [json.loads(json.dumps(v, indent=n))] is [v], for a value without
    floats whose strings are made of scalar values. *)
Lemma loads_dumps rt indent room room_d v text :
  plain v = true -> dumps rt indent room v = Some text -> (depth v <= room_d)%nat ->
  loads room_d text = JOk v.
Proof.
  intros Hplain Hdumps Hdepth.
  destruct (encode_head rt indent room 0%nat v text Hplain Hdumps)
    as (c & t & -> & Hc & _ & Hbom).
  apply loads_by_scan.
  - cbn [skip_ws]. rewrite Hc.
    destruct (encode_reads rt indent v Hplain _ _ _ _ Hdumps Hdepth [] eq_refl) as [g Hg].
    exists g. by rewrite app_nil_r in Hg.
  - cbn [Str.startswith]. by rewrite (proj2 (N.eqb_neq _ _) (not_eq_sym Hbom)).
Qed.

End DumpsFacts.

(** ** The index on disk *)
Section Persistence.

Context (rt : Runtime).

Lemma load_index_run self st :
  _load_index rt self st =
    match files st !! index_file self with
    | None => (Ret (Loaded (VDict [(py "documents", VDict [])])), st)
    | Some (Unreadable e) => (Raise e, traced [EvOpenRead (index_file self)] st)
    | Some (Readable data) =>
        (match Json.loads (recursion_room rt) (universal_newlines data) with
         | Json.JOk index => Ret (Loaded index)
         | Json.JDecodeError => Ret LoadDecodeError
         | Json.JRaise e => Raise e
         end, traced [EvOpenRead (index_file self)] st)
    end.
Proof.
  unfold _load_index, path_exists, read_text, raise, traced, mbind, M_bind, mret, M_ret.
  destruct (files st !! index_file self) as [[data|e]|] eqn:E; cbn; rewrite ?E; try done.
  by destruct (Json.loads _ _).
Qed.

(** An index file that holds the text of the encoder for the index in
    memory is loaded as that index. *)
Lemma load_saved_index room text st :
  let self := document_memory st in
  files st !! index_file self = Some (Readable text) ->
  Dumps.dumps rt 2 room (index_value self) = Some text ->
  plain (index_value self) = true ->
  (depth (index_value self) <= recursion_room rt)%nat ->
  _load_index rt self st
  = (Ret (Loaded (index_value self)), traced [EvOpenRead (index_file self)] st).
Proof.
  cbv zeta. intros Hfile Hdumps Hplain Hdepth.
  rewrite load_index_run, Hfile.
  rewrite universal_newlines_no_cr.
  - by rewrite (DumpsFacts.loads_dumps _ _ _ _ _ _ Hplain Hdumps Hdepth).
  - pose proof (DumpsFacts.encode_no_cr _ _ _ Hplain _ _ _ Hdumps) as Hcr.
    intros Hin. by apply (proj1 (Forall_forall _ _) Hcr) in Hin.
Qed.

Lemma dict_get_fmap {A B} (f : A -> B) k (d : list (str * A)) :
  dict_get k ((fun e : str * A => (e.1, f e.2)) <$> d) = f <$> dict_get k d.
Proof.
  induction d as [|[k' v] d IH]; [done|]. cbn [fmap list_fmap dict_get fst snd].
  by case_bool_decide.
Qed.

(** Property X1.  The store outlives the process.  After [store_document(url,
    content, metadata)], what [_load_index] reads from the index file is the
    index that the store holds in memory, in which the identifier of [url]
    maps to its URL, its path and [metadata]; this holds when the index can be
    written as JSON text and read back: no float in it, strings made of scalar
    values, [json.dump] not stopped by its limits, and no more nesting than
    the decoder can enter. *)
Theorem index_survives_restart room url content metadata st :
  let st1 := (store_document rt url content (Some metadata) st).2 in
  let self := document_memory st1 in
  plain (index_value self) = true ->
  (depth (index_value self) <= recursion_room rt)%nat ->
  Dumps.dumps rt 2 room (index_value self)
  = Some (json_dumps rt (Some 2%nat) (index_value self)) ->
  _load_index rt self st1
  = (Ret (Loaded (index_value self)), traced [EvOpenRead (index_file self)] st1)
  /\ exists entries,
       index_value self = VDict [(py "documents", VDict entries)]
       /\ dict_get (_generate_doc_id rt url) entries
          = Some (VDict [(py "url", VStr url);
                         (py "path", VStr (doc_path rt (document_memory st) url));
                         (py "metadata", VDict metadata)]).
Proof.
  cbv zeta. rewrite store_document_run. cbn [snd default].
  intros Hplain Hdepth Hdumps. split.
  - eapply (load_saved_index room); [|exact Hdumps|done..].
    cbn [stored document_memory files]. unfold index_file at 1. cbn [storage_dir].
    apply lookup_insert_eq.
  - eexists. split; [reflexivity|].
    cbn [stored document_memory document_index].
    rewrite (dict_get_fmap (fun i => VDict [(py "url", VStr (info_url i));
                                            (py "path", VStr (info_path i));
                                            (py "metadata", VDict (info_metadata i))])).
    by rewrite dict_get_set.
Qed.

End Persistence.

(** ** More on the document store *)
Section StoreMore.

Context (rt : Runtime).

(** Property X2.  [get_document] never raises and changes neither the index
    nor the files; it returns a document exactly when the identifier is in the
    index and the file at the path of its entry can be read, and the document
    is then made of the entry and of the text of that file as text mode reads
    it. *)
Theorem get_document_spec doc_id st :
  (exists found, (get_document rt doc_id st).1 = Ret found)
  /\ document_memory (get_document rt doc_id st).2 = document_memory st
  /\ files (get_document rt doc_id st).2 = files st
  /\ forall doc,
       (get_document rt doc_id st).1 = Ret (Some doc) <->
       exists info data,
         dict_get doc_id (document_index (document_memory st)) = Some info
         /\ files st !! info_path info = Some (Readable data)
         /\ doc = document_of doc_id info data.
Proof.
  rewrite get_document_run.
  destruct (dict_get doc_id _) as [info|] eqn:Hidx.
  - destruct (files st !! info_path info) as [[data|e]|] eqn:Hfile; cbn [fst snd];
      (split; [eauto|]); (split; [done|]); (split; [done|]); intros doc; split.
    + intros [= <-]. eauto.
    + intros (info' & data' & [= <-] & Hf & ->). rewrite Hfile in Hf. by injection Hf as <-.
    + done.
    + intros (info' & data' & [= <-] & Hf & _). by rewrite Hfile in Hf.
    + done.
    + intros (info' & data' & [= <-] & Hf & _). by rewrite Hfile in Hf.
  - cbn [fst snd]. split; [eauto|]. split; [done|]. split; [done|].
    intros doc. split; [done|]. by intros (? & ? & ? & _).
Qed.

(** Property X3.  Storing a URL leaves the other documents as they are: a
    document with another identifier, whose content file is neither the
    content file of the URL nor the index file, is retrieved after the store
    as before. *)
Theorem store_document_keeps_others url content metadata other info st :
  other <> _generate_doc_id rt url ->
  dict_get other (document_index (document_memory st)) = Some info ->
  info_path info <> doc_path rt (document_memory st) url ->
  info_path info <> index_file (document_memory st) ->
  (get_document rt other (store_document rt url content metadata st).2).1
  = (get_document rt other st).1.
Proof.
  intros Hother Hidx Hdoc Hindex.
  rewrite store_document_run. cbn [snd]. rewrite !get_document_run.
  cbn [stored document_memory document_index files].
  rewrite dict_get_set_ne by done. rewrite Hidx.
  rewrite !lookup_insert_ne by (by apply not_eq_sym).
  by destruct (files st !! info_path info) as [[data|e]|].
Qed.

(** Property X4.  The listing after a store.  A URL whose identifier is new is
    listed last, after the entries that were there; a URL whose identifier is
    known keeps the place of its entry, which now shows the URL and the
    metadata of this store, and the other entries are as before. *)
Theorem list_documents_after_store url content metadata st :
  let self := document_memory st in
  let self' := document_memory (store_document rt url content metadata st).2 in
  let doc_id := _generate_doc_id rt url in
  let item := {| listing_id := doc_id; listing_url := url;
                 listing_metadata := default [] metadata |} in
  (dict_get doc_id (document_index self) = None ->
   list_documents self' = list_documents self ++ [item])
  /\ (forall before old after,
        document_index self = before ++ (doc_id, old) :: after ->
        doc_id ∉ before.*1 ->
        list_documents self'
        = (listing_of <$> before) ++ item :: (listing_of <$> after)).
Proof.
  cbv zeta. rewrite store_document_run. cbn [snd stored document_memory].
  unfold list_documents. cbn [document_index].
  set (info := {| info_url := url; info_path := _; info_metadata := _ |}).
  split.
  - intros Hnew.
    assert (forall d, dict_get (_generate_doc_id rt url) d = None ->
                      dict_set (_generate_doc_id rt url) info d
                      = d ++ [(_generate_doc_id rt url, info)]) as Hset.
    { induction d as [|[k v] d IH]; [done|]. cbn [dict_get dict_set app].
      case_bool_decide; [done|]. intros Hd. by rewrite IH. }
    by rewrite Hset, fmap_app.
  - intros before old after -> Hfresh.
    assert (dict_set (_generate_doc_id rt url) info
              (before ++ (_generate_doc_id rt url, old) :: after)
            = before ++ (_generate_doc_id rt url, info) :: after) as ->.
    { induction before as [|[k v] before IH]; cbn [dict_set app].
      - by rewrite bool_decide_eq_true_2.
      - cbn [fmap list_fmap fst] in Hfresh.
        apply not_elem_of_cons in Hfresh as [Hne Hfresh].
        rewrite bool_decide_eq_false_2 by done. by rewrite IH. }
    by rewrite fmap_app.
Qed.

(** Property X5.  Storing the same URL, content and metadata again changes
    neither the index nor the files. *)
Theorem store_document_twice url content metadata st :
  let st1 := (store_document rt url content metadata st).2 in
  let st2 := (store_document rt url content metadata st1).2 in
  document_memory st2 = document_memory st1 /\ files st2 = files st1.
Proof.
  cbv zeta. rewrite !store_document_run. cbn [snd].
  cbn [stored document_memory files storage_dir document_index].
  assert (forall (k : str) (v : doc_info) d, dict_set k v (dict_set k v d) = dict_set k v d)
    as Hset.
  { intros k v d. induction d as [|[k' v'] d IH]; cbn [dict_set].
    - by rewrite bool_decide_eq_true_2.
    - case_bool_decide; cbn [dict_set].
      + by rewrite bool_decide_eq_true_2.
      + rewrite bool_decide_eq_false_2 by done. by rewrite IH. }
  rewrite Hset. split; [done|].
  pose proof (doc_path_not_index rt (document_memory st) url) as Hne.
  set (doc := doc_path rt (document_memory st) url) in *.
  change (index_file {| storage_dir := storage_dir (document_memory st);
                        document_index := _ |})
    with (index_file (document_memory st)).
  change (doc_path rt {| storage_dir := storage_dir (document_memory st);
                         document_index := _ |} url) with doc.
  set (index := index_file (document_memory st)) in *.
  rewrite (insert_insert_ne _ doc index) by done.
  by rewrite insert_insert_eq, insert_insert_eq.
Qed.

(** Property X6.  Documents are looked up by the digest of the URL alone.  Two
    URLs with the same digest share one entry and one content file: after both
    are stored, looking up the first returns the document of the second. *)
Theorem same_digest_same_document url1 content1 metadata1 url2 content2 metadata2 st :
  _generate_doc_id rt url1 = _generate_doc_id rt url2 ->
  let st1 := (store_document rt url1 content1 (Some metadata1) st).2 in
  let st2 := (store_document rt url2 content2 (Some metadata2) st1).2 in
  (get_document_by_url rt url1 st2).1
  = Ret (Some {| doc_id := _generate_doc_id rt url2; doc_url := url2;
                 doc_content := universal_newlines content2;
                 doc_metadata := metadata2 |})
  /\ length (document_index (document_memory st2))
     = length (document_index (document_memory st1)).
Proof.
  intros Hsame. cbv zeta. rewrite !store_document_run. cbn [snd default].
  unfold get_document_by_url at 1. rewrite Hsame.
  change (get_document rt (_generate_doc_id rt url2)) with (get_document_by_url rt url2).
  rewrite get_after_store. split; [done|].
  cbn [stored document_memory document_index]. rewrite <- Hsame.
  eapply dict_set_length, dict_get_set.
Qed.

End StoreMore.

(** ** An invariant of the store *)
Section Invariant.

Context (rt : Runtime).

Lemma untouched_refl st : untouched st st.
Proof. done. Qed.

Lemma untouched_traced evs st : untouched st (traced evs st).
Proof. done. Qed.

Lemma untouched_trans st1 st2 st3 : untouched st1 st2 -> untouched st2 st3 -> untouched st1 st3.
Proof. intros [H1 H2] [H3 H4]. split; congruence. Qed.

Lemma get_document_untouched doc_id st : untouched st (get_document rt doc_id st).2.
Proof.
  destruct (get_document_frame rt doc_id st) as (found & evs & -> & _).
  apply untouched_traced.
Qed.

Lemma extract_info_untouched text info_type st :
  untouched st (Tools.extract_info rt text info_type st).2.
Proof.
  rewrite extract_info_run, extract_reply_run.
  destruct (llm (announced st) _) as [e|[r|]]; [done..| |done].
  by destruct (Tools.extract_parse rt r).
Qed.

(** A call leaves the index and the files as they are, or as a
    [store_document] leaves them. *)
Lemma call_footprint c st :
  untouched st (state_after rt c st)
  \/ exists url content metadata st0,
       untouched st st0 /\ state_after rt c st = stored rt url content metadata st0.
Proof.
  destruct c as [url content metadata|doc_id|url|url|text info_type|text query| |url];
    cbn [state_after].
  - right. rewrite store_document_run. eexists _, _, _, st. by split.
  - left. apply get_document_untouched.
  - left. apply get_document_untouched.
  - rewrite fetch_document_run. unfold get_document_by_url.
    pose proof (get_document_untouched (_generate_doc_id rt url) st) as Hget.
    destruct (get_document rt _ st) as [[[doc|]|e] st1]; cbn [snd] in *; [by left| |by left].
    rewrite fetch_from_url_run.
    destruct (network st1 url) as [e|r]; [left; by destruct Hget|].
    destruct (Tools.status_error r) as [e|]; [left; by destruct Hget|].
    right. eexists _, _, _, _. split; [|reflexivity]. by destruct Hget.
  - left. apply extract_info_untouched.
  - by left.
  - by left.
  - left. unfold Tools.get_document, mbind, M_bind. unfold get_document_by_url.
    pose proof (get_document_untouched (_generate_doc_id rt url) st) as Hget.
    by destruct (get_document rt _ st) as [[[doc|]|e] st1].
Qed.

Lemma sound_untouched st st' : untouched st st' -> sound st -> sound st'.
Proof. intros [Hm Hf] [Hnodup Hfiles]. unfold sound. by rewrite Hm, Hf. Qed.

Lemma dict_set_keys {A} k (v : A) d :
  (dict_set k v d).*1 = if bool_decide (k ∈ d.*1) then d.*1 else d.*1 ++ [k].
Proof.
  induction d as [|[k' v'] d IH]; [done|]. cbn [dict_set fmap list_fmap fst].
  destruct (decide (k' = k)) as [->|Hne].
  - rewrite !bool_decide_eq_true_2; [done|apply elem_of_cons; by left|done].
  - rewrite (bool_decide_eq_false_2 (k' = k)) by done.
    cbn [fmap list_fmap fst]. rewrite IH.
    destruct (decide (k ∈ d.*1)) as [Hin|Hin].
    + rewrite !bool_decide_eq_true_2; [done|apply elem_of_cons; by right|done].
    + rewrite !bool_decide_eq_false_2; [done| |done].
      intros [->|?]%elem_of_cons; done.
Qed.

Lemma dict_set_elem {A} k (v : A) d e :
  e ∈ dict_set k v d -> e = (k, v) \/ e ∈ d.
Proof.
  induction d as [|[k' v'] d IH]; cbn [dict_set].
  - intros ->%list_elem_of_singleton. by left.
  - case_bool_decide.
    + intros [->|?]%elem_of_cons; [by left|]. right. apply elem_of_cons. by right.
    + intros [->|?]%elem_of_cons; [right; apply elem_of_cons; by left|].
      destruct (IH H0) as [->|?]; [by left|]. right. apply elem_of_cons. by right.
Qed.

Lemma sound_stored url content metadata st :
  sound st -> sound (stored rt url content metadata st).
Proof.
  intros [Hnodup Hfiles]. split; cbn [stored document_memory document_index files].
  - rewrite dict_set_keys. case_bool_decide as Hin; [done|].
    apply NoDup_app. split; [done|]. split; [|apply NoDup_singleton].
    intros k Hk ->%list_elem_of_singleton. done.
  - apply Forall_forall. intros e He.
    assert (forall path,
              (exists data, files st !! path = Some (Readable data))
              \/ path = doc_path rt (document_memory st) url ->
              exists data,
                <[index_file (document_memory st) :=
                    Readable (json_dumps rt (Some 2%nat)
                                (index_value
                                   {| storage_dir := storage_dir (document_memory st);
                                      document_index :=
                                        dict_set (_generate_doc_id rt url)
                                          {| info_url := url;
                                             info_path := doc_path rt (document_memory st) url;
                                             info_metadata := metadata |}
                                          (document_index (document_memory st)) |}))]>
                  (<[doc_path rt (document_memory st) url := Readable content]> (files st))
                !! path = Some (Readable data)) as Hreadable.
    { intros path Hpath.
      destruct (decide (index_file (document_memory st) = path)) as [<-|Hi];
        [rewrite lookup_insert_eq; eauto|].
      rewrite lookup_insert_ne by done.
      destruct (decide (doc_path rt (document_memory st) url = path)) as [<-|Hd];
        [rewrite lookup_insert_eq; eauto|].
      rewrite lookup_insert_ne by done. by destruct Hpath as [? | ->]. }
    apply Hreadable. apply dict_set_elem in He as [->|He]; [by right|].
    left. by apply (proj1 (Forall_forall _ _) Hfiles).
Qed.

Lemma reachable_sound st : reachable rt st -> sound st.
Proof.
  induction 1 as [st Hempty|c st _ IH|st st' _ IH Hsame].
  - unfold sound. rewrite Hempty. split; constructor.
  - destruct (call_footprint c st) as [Hsame|(url & content & metadata & st0 & Hsame & ->)].
    + by apply (sound_untouched st).
    + apply sound_stored. by apply (sound_untouched st).
  - by apply (sound_untouched st).
Qed.

Lemma dict_get_distinct {A} k (v : A) d : NoDup d.*1 -> (k, v) ∈ d -> dict_get k d = Some v.
Proof.
  induction d as [|[k' v'] d IH]; [by intros _ ?%elem_of_nil|].
  cbn [fmap list_fmap fst dict_get]. intros [Hk Hd]%NoDup_cons [[= -> ->]|Hin]%elem_of_cons.
  - by rewrite bool_decide_eq_true_2.
  - case_bool_decide as Heq; [|by apply IH]. subst.
    exfalso. apply Hk. apply list_elem_of_fmap. by exists (k, v).
Qed.

(** Property X7.  Every document that is listed can be retrieved.  In a
    process that started with an empty store, whatever calls were made to the
    store and to the tools and however they ended, [get_document] returns a
    document for each item of [list_documents], with the URL and the metadata
    of the item: the store never leaves an entry without its content file. *)
Theorem listed_documents_are_retrievable st item :
  reachable rt st ->
  item ∈ list_documents (document_memory st) ->
  exists doc,
    (get_document rt (listing_id item) st).1 = Ret (Some doc)
    /\ doc_url doc = listing_url item
    /\ doc_metadata doc = listing_metadata item.
Proof.
  intros [Hnodup Hfiles]%reachable_sound Hitem.
  unfold list_documents in Hitem. apply list_elem_of_fmap in Hitem as ([k info] & -> & Hin).
  cbn [listing_id listing_url listing_metadata fst snd].
  apply (proj1 (Forall_forall _ _) Hfiles) in Hin as Hfile. destruct Hfile as [data Hfile].
  rewrite get_document_run, (dict_get_distinct k info) by done.
  cbn [snd] in Hfile. rewrite Hfile. eauto.
Qed.

End Invariant.

(** ** Tag stripping *)

Lemma elem_of_rev {A} (x : A) l : x ∈ rev l <-> x ∈ l.
Proof. by rewrite !list_elem_of_In, <- in_rev. Qed.

Lemma sub_tags_from_tagless s :
  tagless (Re.sub_tags_from None s)
  /\ forall b, chr ">" ∉ b -> tagless (Re.sub_tags_from (Some b) s).
Proof.
  induction s as [|c s [IHnone IHsome]]; cbn [Re.sub_tags_from].
  - split; [constructor|]. intros b Hb. apply tagless_open. by rewrite elem_of_rev.
  - split.
    + destruct (c =? chr "<") eqn:E.
      * apply IHsome, not_elem_of_nil.
      * apply tagless_char; [by apply N.eqb_neq|done].
    + intros b Hb. destruct (c =? chr ">") eqn:E.
      * destruct b; [|exact IHnone].
        apply N.eqb_eq in E as ->. apply tagless_pair. exact IHnone.
      * apply IHsome. apply not_elem_of_cons. split; [|done].
        apply N.eqb_neq in E. congruence.
Qed.

Lemma tagless_no_tag s : tagless s -> ~ has_tag s.
Proof.
  induction 1 as [|c s Hc _ IH|s _ IH|s Hs]; intros (pre & inside & post & Heq & Hne & Hin).
  - by destruct pre.
  - destruct pre as [|p pre]; simplify_eq/=. apply IH. by exists pre, inside, post.
  - destruct pre as [|p [|q pre]]; simplify_eq/=.
    + destruct inside as [|i inside]; simplify_eq/=. apply Hin, elem_of_cons. by left.
    + apply IH. by exists pre, inside, post.
  - apply Hs. destruct pre as [|p pre]; simplify_eq/=.
    + apply elem_of_app. right. apply elem_of_cons. by left.
    + apply elem_of_app. right. apply elem_of_cons. right.
      apply elem_of_app. right. apply elem_of_cons. by left.
Qed.

Lemma sub_tags_from_sublist s :
  Re.sub_tags_from None s `sublist_of` s
  /\ forall b, Re.sub_tags_from (Some b) s `sublist_of` chr "<" :: rev b ++ s.
Proof.
  induction s as [|c s [IHnone IHsome]]; cbn [Re.sub_tags_from].
  - split; [done|]. intros b. by rewrite app_nil_r.
  - split.
    + destruct (c =? chr "<") eqn:E.
      * apply N.eqb_eq in E as ->. apply (IHsome []).
      * by apply sublist_skip.
    + intros b.
      assert (forall t, t `sublist_of` s -> t `sublist_of` chr "<" :: rev b ++ c :: s) as Hdrop.
      { intros t Ht. apply sublist_cons, sublist_inserts_l, sublist_cons, Ht. }
      destruct (c =? chr ">") eqn:E.
      * apply N.eqb_eq in E as ->. destruct b as [|x b]; [|by apply Hdrop].
        by do 2 apply sublist_skip.
      * specialize (IHsome (c :: b)). cbn [rev] in IHsome.
        by rewrite <- app_assoc in IHsome.
Qed.

(** ** What the decoder leaves is the end of what it was given *)
Module SuffixFacts.
Import Json JsonFacts.

Lemma skip_ws_suffix s : skip_ws s `suffix_of` s.
Proof.
  induction s as [|c t IH]; [done|]. cbn [skip_ws].
  destruct (is_ws c); [by apply suffix_cons_r|done].
Qed.

Lemma scanstring_from_suffix st acc s v r :
  scanstring_from st acc s = POk v r -> r `suffix_of` s.
Proof.
  revert st acc. induction s as [|c t IH]; intros st acc H; cbn [scanstring_from] in H;
    [discriminate|].
  apply suffix_cons_r.
  destruct st; repeat case_match; simplify_eq; try done; by eapply IH.
Qed.

Lemma span_digits_split s d r : span_digits s = (d, r) -> s = d ++ r.
Proof.
  revert d r. induction s as [|c t IH]; intros d r H; cbn [span_digits] in H; [by simplify_eq|].
  destruct (is_digit c); [|by simplify_eq].
  destruct (span_digits t) as [d' r'] eqn:E. simplify_eq. by rewrite (IH _ _ eq_refl).
Qed.

Lemma span_digits_suffix s d r : span_digits s = (d, r) -> r `suffix_of` s.
Proof. intros ->%span_digits_split. by apply suffix_app_r. Qed.

Ltac suffix_by_digits :=
  intros; repeat case_match; simplify_eq;
  repeat match goal with
         | H : span_digits _ = _ |- _ => apply span_digits_suffix in H
         end;
  first [done
        |apply suffix_cons_r; first [done|apply suffix_cons_r; first [done|by apply suffix_cons_r]]].

Lemma match_int_suffix s i r : match_int s = Some (i, r) -> r `suffix_of` s.
Proof. unfold match_int. suffix_by_digits. Qed.

Lemma match_frac_suffix s i r : match_frac s = Some (i, r) -> r `suffix_of` s.
Proof. unfold match_frac. suffix_by_digits. Qed.

Lemma match_exp_suffix s i r : match_exp s = Some (i, r) -> r `suffix_of` s.
Proof. unfold match_exp. suffix_by_digits. Qed.

Lemma match_number_suffix s v r : match_number s = POk v r -> r `suffix_of` s.
Proof.
  unfold match_number. intros H.
  destruct (match_int s) as [[i r0]|] eqn:Hi; [|discriminate].
  apply match_int_suffix in Hi.
  destruct (match_frac r0) as [[f r1]|] eqn:Hf;
    [apply match_frac_suffix in Hf|];
    (destruct (match_exp _) as [[e r2]|] eqn:He; [apply match_exp_suffix in He|]);
    repeat case_match; simplify_eq; try done;
    repeat (etrans; [eassumption|]); done.
Qed.

Lemma match_constant_suffix cs s v r : match_constant cs s = Some (v, r) -> r `suffix_of` s.
Proof.
  induction cs as [|[name w] cs IH]; cbn [match_constant]; [discriminate|].
  destruct (Str.startswith s name); [|exact IH].
  intros; simplify_eq. apply suffix_drop.
Qed.

Lemma scan_atom_suffix s v r : scan_atom s = POk v r -> r `suffix_of` s.
Proof.
  unfold scan_atom. destruct (match_constant constants s) as [[w r']|] eqn:E.
  - intros; simplify_eq. by eapply match_constant_suffix.
  - apply match_number_suffix.
Qed.

(** The text that a decoding leaves is the end of the text it was given. *)
Lemma scan_suffix gas :
  (forall room s v r, scan_once gas room s = POk v r -> r `suffix_of` s) /\
  (forall room s acc l r, array_items gas room s acc = POk l r -> r `suffix_of` s) /\
  (forall room s acc l r, object_items gas room s acc = POk l r -> r `suffix_of` s).
Proof.
  induction gas as [|g (IHs & IHa & IHo)]; [by repeat split|].
  split; [|split].
  - intros room [|c t] v r; rewrite scan_once_unfold; [discriminate|].
    destruct (c =? QUOTE).
    { destruct (scanstring t) as [w r'| | |] eqn:E; try discriminate.
      intros [= <- <-]. apply suffix_cons_r. by eapply scanstring_from_suffix. }
    destruct (c =? chr "{").
    { destruct room as [|room]; [discriminate|].
      pose proof (skip_ws_suffix t) as Hw.
      destruct (skip_ws t) as [|c' t'] eqn:E; [discriminate|].
      destruct (c' =? chr "}").
      - intros [= <- <-]. apply suffix_cons_r. etrans; [|exact Hw]. by apply suffix_cons_r.
      - destruct (object_items g room (c' :: t') []) as [l r'| | |] eqn:Eo; try discriminate.
        intros [= <- <-]. apply suffix_cons_r. etrans; [|exact Hw]. by eapply IHo. }
    destruct (c =? chr "[").
    { destruct room as [|room]; [discriminate|].
      pose proof (skip_ws_suffix t) as Hw.
      destruct (skip_ws t) as [|c' t'] eqn:E; [discriminate|].
      destruct (c' =? chr "]").
      - intros [= <- <-]. apply suffix_cons_r. etrans; [|exact Hw]. by apply suffix_cons_r.
      - destruct (array_items g room (c' :: t') []) as [l r'| | |] eqn:Ea; try discriminate.
        intros [= <- <-]. apply suffix_cons_r. etrans; [|exact Hw]. by eapply IHa. }
    apply scan_atom_suffix.
  - intros room s acc l r. rewrite array_items_unfold.
    destruct (scan_once g room s) as [v r0| | |] eqn:E; try discriminate.
    apply IHs in E. pose proof (skip_ws_suffix r0) as Hw.
    destruct (skip_ws r0) as [|c t] eqn:E'; [discriminate|].
    destruct (c =? chr "]").
    { intros [= <- <-]. etrans; [|exact E]. etrans; [|exact Hw]. by apply suffix_cons_r. }
    destruct (c =? chr ","); [|discriminate].
    intros H. apply IHa in H. etrans; [exact H|]. etrans; [apply skip_ws_suffix|].
    etrans; [|exact E]. etrans; [|exact Hw]. by apply suffix_cons_r.
  - intros room [|q t] acc l r; rewrite object_items_unfold; [discriminate|].
    destruct (q =? QUOTE); [|discriminate].
    destruct (scanstring t) as [key r0| | |] eqn:E; try discriminate.
    apply scanstring_from_suffix in E. pose proof (skip_ws_suffix r0) as Hw.
    destruct (skip_ws r0) as [|c r1] eqn:E1; [discriminate|].
    destruct (c =? chr ":"); [|discriminate].
    destruct (scan_once g room (skip_ws r1)) as [v r2| | |] eqn:E2; try discriminate.
    apply IHs in E2. pose proof (skip_ws_suffix r2) as Hw2.
    assert (r2 `suffix_of` q :: t) as Hr2.
    { etrans; [exact E2|]. etrans; [apply skip_ws_suffix|].
      apply suffix_cons_r. etrans; [|exact E]. etrans; [|exact Hw]. by apply suffix_cons_r. }
    destruct (skip_ws r2) as [|c' t'] eqn:E3; [discriminate|].
    destruct (c' =? chr "}").
    { intros [= <- <-]. etrans; [|exact Hr2]. etrans; [|exact Hw2]. by apply suffix_cons_r. }
    destruct (c' =? chr ","); [|discriminate].
    intros H. apply IHo in H. etrans; [exact H|]. etrans; [apply skip_ws_suffix|].
    etrans; [|exact Hr2]. etrans; [|exact Hw2]. by apply suffix_cons_r.
Qed.

(** A text that decodes to a list has a closing bracket after an opening
    one. *)
Lemma scan_list_brackets gas room s items r :
  scan_once gas room s = POk (VList items) r ->
  exists t, s = chr "[" :: t /\ chr "]" ∈ t.
Proof.
  destruct gas as [|g]; [discriminate|]. rewrite scan_once_unfold.
  destruct s as [|c t]; [discriminate|].
  destruct (c =? QUOTE); [by destruct (scanstring t)|].
  destruct (c =? chr "{").
  { destruct room; [discriminate|]. destruct (skip_ws t) as [|c' t']; [discriminate|].
    destruct (c' =? chr "}"); [discriminate|]. by destruct (object_items _ _ _ _). }
  destruct (c =? chr "[") eqn:Ec.
  2: { unfold scan_atom. destruct (match_constant constants (c :: t)) as [[w r']|] eqn:E.
       - intros [= -> ->]. unfold constants in E. cbn [match_constant] in E.
         repeat case_match; simplify_eq.
       - unfold match_number. repeat case_match; discriminate. }
  apply N.eqb_eq in Ec as ->. intros H. exists t. split; [done|].
  destruct room as [|room]; [discriminate|].
  pose proof (skip_ws_suffix t) as Hw.
  destruct (skip_ws t) as [|c' t'] eqn:E; [discriminate|].
  destruct (c' =? chr "]") eqn:Ec'.
  - apply N.eqb_eq in Ec' as ->. eapply elem_of_suffix; [|exact Hw]. apply elem_of_cons. by left.
  - destruct (array_items g room (c' :: t') []) as [l r'| | |] eqn:Ea; try discriminate.
    eapply elem_of_suffix; [|exact Hw]. clear -Ea.
    assert (forall gas s acc l r,
              array_items gas room s acc = POk l r -> chr "]" ∈ s) as Hclose.
    { clear. induction gas as [|g IH]; intros s acc l r; [discriminate|].
      rewrite array_items_unfold.
      destruct (scan_once g room s) as [v r0| | |] eqn:E; try discriminate.
      apply (proj1 (scan_suffix g)) in E. pose proof (skip_ws_suffix r0) as Hw.
      destruct (skip_ws r0) as [|c t] eqn:E'; [discriminate|].
      destruct (c =? chr "]") eqn:Ec.
      { apply N.eqb_eq in Ec as ->. intros _.
        eapply elem_of_suffix; [|exact E]. eapply elem_of_suffix; [|exact Hw].
        apply elem_of_cons. by left. }
      destruct (c =? chr ","); [|discriminate].
      intros H. apply IH in H.
      eapply elem_of_suffix; [|exact E]. eapply elem_of_suffix; [|exact Hw].
      apply elem_of_cons. right. eapply elem_of_suffix; [exact H|apply skip_ws_suffix]. }
    by eapply Hclose.
Qed.

(** The last occurrence of a character. *)
Lemma elem_of_last_split (c : N) s :
  c ∈ s -> exists mid post, s = mid ++ c :: post /\ c ∉ post.
Proof.
  induction s as [|x s IH]; [by intros ?%elem_of_nil|]. intros Hin.
  destruct (decide (c ∈ s)) as [Hs|Hs].
  - destruct (IH Hs) as (mid & post & -> & Hpost). by exists (x :: mid), post.
  - apply elem_of_cons in Hin as [->|Hin]; [|done]. by exists [], s.
Qed.

(** A text that [json.loads] decodes to a list has a bracketed span. *)
Lemma loads_list_has_bracket room s items :
  loads room s = JOk (VList items) -> exists group0, Re.search_bracket s = Some group0.
Proof.
  unfold loads. destruct (Str.startswith s [65279]); [discriminate|].
  destruct (scan_once _ _ _) as [v r| | |] eqn:E; try discriminate.
  case_bool_decide; [|discriminate]. intros [= ->].
  apply scan_list_brackets in E as (t & Ht & Hclose).
  destruct (elem_of_last_split _ _ Hclose) as (mid & post & -> & Hpost).
  assert (exists pre, s = pre ++ skip_ws s /\ chr "[" ∉ pre) as (pre & Hs & Hpre).
  { clear. induction s as [|c s (pre & Hs & Hpre)];
      [exists []; split; [done|apply not_elem_of_nil]|].
    cbn [skip_ws].
    destruct (is_ws c) eqn:Hc; [|exists []; split; [done|apply not_elem_of_nil]].
    exists (c :: pre). split; [by rewrite <- app_comm_cons, <- Hs|].
    apply not_elem_of_cons. split; [|done]. intros <-. discriminate. }
  rewrite Hs, Ht. rewrite search_bracket_span by done. eauto.
Qed.

End SuffixFacts.

(** ** More on the extraction tool *)
Section ExtractionMore.

Context (rt : Runtime).

Lemma split_nonempty sep s : Str.split sep s <> [].
Proof.
  destruct s as [|c t]; [done|]. cbn [Str.split].
  destruct (c =? sep); [done|]. by destruct (Str.split sep t).
Qed.

Lemma split_fallback_nonempty r : Tools.split_fallback r <> [].
Proof.
  unfold Tools.split_fallback. destruct (Tools.reply_lines r) eqn:E; [|done].
  unfold Tools.comma_items. intros H%fmap_nil_inv. by apply split_nonempty in H.
Qed.

(** The reply parsed when it has no bracketed span: the test of line 109
    never finds a list. *)
Lemma extract_parse_without_bracket r :
  Re.search_bracket r = None ->
  Tools.extract_parse rt r = Ret (VList [VStr (Str.strip r)]).
Proof.
  intros Hnone. unfold Tools.extract_parse. rewrite Hnone.
  destruct (Json.loads _ r) as [w| |e] eqn:El; [|done..].
  destruct w; try done.
  apply SuffixFacts.loads_list_has_bracket in El as [g Hg]. congruence.
Qed.

(** Property X8.  A reply without a bracketed span is returned whole.
    Whatever such a reply is, JSON or not, [extract_info] returns it stripped
    as the only item: a JSON text that is not an array is not decoded into the
    result, and none that is an array is without a bracketed span. *)
Theorem extract_info_without_bracket text info_type st r :
  llm st (Tools.extract_prompt rt text info_type) = ChatContent (Some r) ->
  Re.search_bracket r = None ->
  (Tools.extract_info rt text info_type st).1
  = Ret {| Tools.information := VList [VStr (Str.strip r)] |}.
Proof.
  intros Hllm Hnone. rewrite extract_info_run, extract_reply_run.
  change (llm (announced st)) with (llm st). rewrite Hllm.
  by rewrite extract_parse_without_bracket.
Qed.

(** Property X9.  An array inside a reply is what [extract_info] returns.
    When the text from the first opening bracket of the reply to its last
    closing bracket is JSON, the information is the decoded value, a list,
    whatever the model wrote before and after it. *)
Theorem extract_info_embedded_array text info_type st before inside after v :
  llm st (Tools.extract_prompt rt text info_type)
  = ChatContent (Some (before ++ chr "[" :: inside ++ chr "]" :: after)) ->
  chr "[" ∉ before -> chr "]" ∉ after ->
  Json.loads (recursion_room rt) (chr "[" :: inside ++ [chr "]"]) = Json.JOk v ->
  (Tools.extract_info rt text info_type st).1 = Ret {| Tools.information := v |}
  /\ exists items, v = VList items.
Proof.
  intros Hllm Hbefore Hafter Hloads. split.
  - rewrite extract_info_run, extract_reply_run.
    change (llm (announced st)) with (llm st). rewrite Hllm.
    unfold Tools.extract_parse. by rewrite search_bracket_span, Hloads.
  - by eapply JsonFacts.loads_bracket_list.
Qed.

(** Property X10.  The list of [extract_info] is empty only when the model
    said so: the bracketed span of its reply is an empty JSON array.  Every
    fallback and every error gives at least one item. *)
Theorem extract_info_empty_list text info_type st out st' :
  Tools.extract_info rt text info_type st = (Ret out, st') ->
  Tools.information out = VList [] ->
  exists r group0,
    llm st (Tools.extract_prompt rt text info_type) = ChatContent (Some r)
    /\ Re.search_bracket r = Some group0
    /\ Json.loads (recursion_room rt) group0 = Json.JOk (VList []).
Proof.
  rewrite extract_info_run, extract_reply_run.
  change (llm (announced st)) with (llm st).
  destruct (llm st _) as [e|[r|]]; [by intros [= <- _]| |by intros [= <- _]].
  destruct (Tools.extract_parse rt r) as [v|e] eqn:Ep; [|by intros [= <- _]].
  intros [= <- _] Hv. cbn [Tools.information] in Hv. subst v.
  exists r. unfold Tools.extract_parse in Ep.
  destruct (Re.search_bracket r) as [g|] eqn:Eg.
  - exists g. split; [done|]. split; [done|].
    destruct (Json.loads _ g) as [w| |e]; [by injection Ep as ->| |done].
    injection Ep as Ep. apply fmap_nil_inv in Ep. by apply split_fallback_nonempty in Ep.
  - pose proof (extract_parse_without_bracket r Eg) as Hp.
    unfold Tools.extract_parse in Hp. rewrite Eg in Hp. rewrite Hp in Ep. discriminate.
Qed.

(** Property X11.  Only the first 2000 characters of the text are read: two
    texts that agree on them get the same prompt, the same result and the same
    effects. *)
Theorem extract_info_reads_2000 text1 text2 info_type st :
  take 2000 text1 = take 2000 text2 ->
  Tools.extract_prompt rt text1 info_type = Tools.extract_prompt rt text2 info_type
  /\ Tools.extract_info rt text1 info_type st = Tools.extract_info rt text2 info_type st.
Proof.
  intros Hsame.
  assert (Tools.extract_prompt rt text1 info_type = Tools.extract_prompt rt text2 info_type)
    as Hprompt by (unfold Tools.extract_prompt, Str.slice_to; by rewrite Hsame).
  split; [done|]. by rewrite !extract_info_run, Hprompt.
Qed.

(** Property X12.  What [extract_info] does to the world: it announces the
    model, sends one request to it, with the prompt, and prints; the index and
    the files are as before, and no other request is sent. *)
Theorem extract_info_effects text info_type st :
  exists lines,
    (Tools.extract_info rt text info_type st).2
    = traced (EvPrint (py "Using Ollama model: mistral")
              :: EvChat (Tools.extract_prompt rt text info_type)
              :: (EvPrint <$> lines)) st.
Proof.
  rewrite extract_info_run, extract_reply_run. unfold announced.
  change (llm (traced _ st)) with (llm st).
  destruct (llm st _) as [e|[r|]]; cbn [snd]; rewrite ?traced_traced.
  - by exists [py "Error in extract_info: " ++ exc_msg e].
  - destruct (Tools.extract_parse rt r) as [v|e]; cbn [snd]; rewrite ?traced_traced.
    + by exists [py "Extract info response: " ++ Str.slice_to 100 r ++ py "..."].
    + by exists [py "Extract info response: " ++ Str.slice_to 100 r ++ py "...";
                 py "Error in extract_info: " ++ exc_msg e].
  - by exists [py "Error in extract_info: " ++ exc_msg subscript_none].
Qed.

End ExtractionMore.

(** ** More on the retrieval tool *)
Section RetrievalMore.

Context (rt : Runtime).

(** A fetch that succeeds: the state after the lookup, the announcement,
    the request and the store. *)
Lemma fetch_document_fetched url st r :
  (get_document_by_url rt url st).1 = Ret None ->
  network st url = HttpResponse r -> Tools.status_error r = None ->
  exists evs,
    Tools.fetch_document rt url st
    = (Ret {| Tools.content := Re.sub_tags (text r) |},
       stored rt url (Re.sub_tags (text r)) (fetched_at st) (requested url (traced evs st))).
Proof.
  intros Hmiss Hnet Hok.
  destruct (get_document_frame rt (_generate_doc_id rt url) st) as (found & evs & Hget & _).
  unfold get_document_by_url in Hmiss. rewrite Hget in Hmiss. cbn [fst] in Hmiss.
  injection Hmiss as ->. exists evs.
  rewrite fetch_document_run. unfold get_document_by_url. rewrite Hget.
  rewrite fetch_from_url_run. change (network (traced evs st)) with (network st).
  by rewrite Hnet, Hok.
Qed.

(** Property X13.  The text that [fetch_document] keeps of a page has no tag
    left, and is the page with characters deleted and none added or changed. *)
Theorem fetch_document_strips_tags url st r :
  (get_document_by_url rt url st).1 = Ret None ->
  network st url = HttpResponse r -> Tools.status_error r = None ->
  exists kept,
    (Tools.fetch_document rt url st).1 = Ret {| Tools.content := kept |}
    /\ ~ has_tag kept
    /\ kept `sublist_of` text r.
Proof.
  intros Hmiss Hnet Hok.
  destruct (fetch_document_fetched url st r Hmiss Hnet Hok) as [evs ->].
  exists (Re.sub_tags (text r)). split; [done|]. split.
  - apply tagless_no_tag, sub_tags_from_tagless.
  - apply sub_tags_from_sublist.
Qed.

(** Property X14.  After a fetch that succeeds, the catalog tools show the
    document: [get_document] returns the text that was kept, as the store
    reads it back, with the time of the fetch as metadata, and
    [list_documents] lists the URL with that metadata. *)
Theorem fetch_document_then_catalog url st r :
  (get_document_by_url rt url st).1 = Ret None ->
  network st url = HttpResponse r -> Tools.status_error r = None ->
  let st' := (Tools.fetch_document rt url st).2 in
  (Tools.get_document rt url st').1
  = Ret {| Tools.found_content := universal_newlines (Re.sub_tags (text r));
           Tools.metadata := [(py "fetched_at", VStr (clock st))] |}
  /\ exists listed,
       (Tools.list_documents st').1 = Ret {| Tools.documents := listed |}
       /\ {| listing_id := _generate_doc_id rt url; listing_url := url;
             listing_metadata := [(py "fetched_at", VStr (clock st))] |} ∈ listed.
Proof.
  intros Hmiss Hnet Hok. cbv zeta.
  destruct (fetch_document_fetched url st r Hmiss Hnet Hok) as [evs ->]. cbn [snd].
  split.
  - unfold Tools.get_document, mbind, M_bind. by rewrite get_after_store.
  - eexists. split; [reflexivity|].
    cbn [stored document_memory]. unfold list_documents. cbn [document_index].
    apply list_elem_of_fmap. eexists (_, _). split; [|apply dict_get_elem, dict_get_set].
    done.
Qed.

(** Property X15.  A document whose content file was lost is fetched again.
    When the index has an entry for the URL but its file cannot be read, a
    [fetch_document] that the web answers returns the page without its tags,
    and puts it back: the document can be retrieved again, and the index has
    as many entries as before. *)
Theorem fetch_document_restores url st info r :
  dict_get (_generate_doc_id rt url) (document_index (document_memory st)) = Some info ->
  (files st !! info_path info = None
   \/ exists e, files st !! info_path info = Some (Unreadable e)) ->
  network st url = HttpResponse r -> Tools.status_error r = None ->
  let st' := (Tools.fetch_document rt url st).2 in
  (get_document_by_url rt url st).1 = Ret None
  /\ (Tools.fetch_document rt url st).1 = Ret {| Tools.content := Re.sub_tags (text r) |}
  /\ (get_document_by_url rt url st').1
     = Ret (Some {| doc_id := _generate_doc_id rt url; doc_url := url;
                    doc_content := universal_newlines (Re.sub_tags (text r));
                    doc_metadata := [(py "fetched_at", VStr (clock st))] |})
  /\ length (document_index (document_memory st'))
     = length (document_index (document_memory st)).
Proof.
  intros Hidx Hfile Hnet Hok. cbv zeta.
  assert ((get_document_by_url rt url st).1 = Ret None) as Hmiss.
  { unfold get_document_by_url. rewrite get_document_run, Hidx.
    by destruct Hfile as [->|[e ->]]. }
  destruct (fetch_document_fetched url st r Hmiss Hnet Hok) as [evs ->]. cbn [fst snd].
  split; [done|]. split; [done|]. split.
  - by rewrite get_after_store.
  - cbn [stored document_memory document_index]. by eapply dict_set_length.
Qed.

End RetrievalMore.

(** ** More on the parsing chain of the search tool *)
Section SearchMore.

Context (rt : Runtime).

Lemma texts_of_dicts items :
  Forall (fun item => exists d, item = VDict d) items ->
  Tools.texts_of items = Ret (omap text_of items).
Proof.
  induction 1 as [|item items [d ->] _ IH]; [done|].
  cbn [Tools.texts_of Tools.has_text Tools.get_text omap list_omap text_of].
  destruct (dict_get (py "text") d) as [v|] eqn:E.
  - rewrite bool_decide_eq_true_2 by eauto. by rewrite IH.
  - rewrite bool_decide_eq_false_2 by (by intros [? ?]). done.
Qed.

(** Property X16.  The results of an array of objects.  When the bracketed
    span of the reply is a JSON array of objects, the parsing chain of
    [search_document] returns the texts of the objects that have a text, in
    the order of the array, and skips the others. *)
Theorem search_parse_objects r group0 items :
  Re.search_bracket r = Some group0 ->
  Json.loads (recursion_room rt) group0 = Json.JOk (VList items) ->
  Forall (fun item => exists d, item = VDict d) items ->
  Tools.search_parse rt r = Ret (omap text_of items).
Proof.
  intros Hg Hl Hd. unfold Tools.search_parse. rewrite Hg, Hl. cbn [Tools.py_iter].
  by apply texts_of_dicts.
Qed.

(** Property X17.  The parsing chain on a reply without a bracketed span: a
    reply that is JSON gives its decoded value printed as a string, and the
    list comprehension of line 168 never runs, since no such reply is an
    array; any other reply gives its double-quoted substrings, or itself when
    it has none. *)
Theorem search_parse_without_bracket r :
  Re.search_bracket r = None ->
  Tools.search_parse rt r
  = Ret (match Json.loads (recursion_room rt) r with
         | Json.JOk parsed => [VStr (Tools.py_str rt parsed)]
         | _ => match Re.findall_quoted r with
                | [] => [VStr r]
                | found => VStr <$> found
                end
         end).
Proof.
  intros Hnone. unfold Tools.search_parse. rewrite Hnone.
  destruct (Json.loads _ r) as [w| |e] eqn:El; [|done..].
  destruct w; try done.
  apply SuffixFacts.loads_list_has_bracket in El as [g Hg]. congruence.
Qed.

End SearchMore.

(** ** Two more invariants of the store *)
Section StoreInvariants.

Context (rt : Runtime).

Lemma universal_newlines_has_no_cr s : CR ∉ universal_newlines s.
Proof.
  enough ((CR ∉ universal_newlines s) /\ forall c, CR ∉ universal_newlines (c :: s)) by tauto.
  induction s as [|a t [IH1 IH2]].
  - split; [apply not_elem_of_nil|]. intros c. cbn [universal_newlines].
    destruct (c =? CR) eqn:E; apply not_elem_of_cons; (split; [|apply not_elem_of_nil]);
      [done|apply N.eqb_neq in E; congruence].
  - split; [apply IH2|]. intros c. cbn [universal_newlines].
    destruct (c =? CR) eqn:E; apply not_elem_of_cons.
    + split; [done|]. destruct (a =? LF); [exact IH1|apply IH2].
    + split; [apply N.eqb_neq in E; congruence|apply IH2].
Qed.

(** Property X18.  What the store returns can be stored again without change.
    The content that [get_document_by_url] returns for a URL, stored under
    that URL, is returned as it is by the next [get_document_by_url]. *)
Theorem stored_content_is_stable url content metadata st :
  let st1 := (store_document rt url content (Some metadata) st).2 in
  let retrieved := universal_newlines content in
  let st2 := (store_document rt url retrieved (Some metadata) st1).2 in
  (get_document_by_url rt url st1).1
  = Ret (Some {| doc_id := _generate_doc_id rt url; doc_url := url;
                 doc_content := retrieved; doc_metadata := metadata |})
  /\ (get_document_by_url rt url st2).1 = (get_document_by_url rt url st1).1.
Proof.
  cbv zeta. rewrite !store_document_run. cbn [snd default].
  rewrite !get_after_store. cbn [fst]. split; [done|].
  by rewrite (universal_newlines_no_cr (universal_newlines content))
    by apply universal_newlines_has_no_cr.
Qed.

(** Property X19.  The index file follows the index.  In a process that
    started with an empty store, as soon as the index has an entry the index
    file holds the text that [json.dump] gives for the index in memory: every
    change of the index is written to disk before the call returns. *)
Theorem index_file_follows_index st :
  reachable rt st ->
  document_index (document_memory st) <> [] ->
  files st !! index_file (document_memory st)
  = Some (Readable (json_dumps rt (Some 2%nat) (index_value (document_memory st)))).
Proof.
  induction 1 as [st Hempty|c st _ IH|st st' _ IH [Hm Hf]]; intros Hentries.
  - done.
  - destruct (call_footprint rt c st)
      as [[Hm Hf]|(url & content & metadata & st0 & [Hm Hf] & ->)].
    + rewrite Hm, Hf in *. by apply IH.
    + cbn [stored document_memory files]. unfold index_file at 1. cbn [storage_dir].
      apply lookup_insert_eq.
  - rewrite Hm, Hf in *. by apply IH.
Qed.

End StoreInvariants.

(** ** The retrieval tool never raises *)
Section RetrievalTotal.

Context (rt : Runtime).

Lemma filter_requests_none evs :
  Forall (fun ev => match ev with
                    | EvOpenRead _ | EvPrint _ => True
                    | _ => False
                    end) evs ->
  filter (fun ev => is_request ev = true) evs = [].
Proof.
  induction 1 as [|ev evs Hev _ IH]; [done|].
  rewrite filter_cons, IH. by destruct ev.
Qed.

(** Property X20.  [fetch_document] never raises, whatever the store, the
    files and the web are, and sends at most one request, to the URL it was
    given. *)
Theorem fetch_document_never_raises url st :
  exists out evs,
    (Tools.fetch_document rt url st).1 = Ret out
    /\ trace (Tools.fetch_document rt url st).2 = trace st ++ evs
    /\ (filter (fun ev => is_request ev = true) evs = []
        \/ filter (fun ev => is_request ev = true) evs = [EvHttpGet url]).
Proof.
  rewrite fetch_document_run. unfold get_document_by_url.
  destruct (get_document_frame rt (_generate_doc_id rt url) st) as (found & evs & -> & Hevs).
  apply filter_requests_none in Hevs.
  destruct found as [doc|].
  - eexists _, (evs ++ [retrieved_line url]). split; [done|]. split.
    + cbn [snd traced set_trace trace]. by rewrite app_assoc.
    + left. by rewrite filter_app, Hevs.
  - rewrite fetch_from_url_run. change (network (traced evs st)) with (network st).
    assert (filter (fun ev => is_request ev = true)
              (evs ++ [EvPrint (py "Fetching document from URL: " ++ url); EvHttpGet url])
            = [EvHttpGet url]) as Hreq by (by rewrite filter_app, Hevs).
    destruct (network st url) as [e|r]; [|destruct (Tools.status_error r) as [e|]].
    + eexists _, _. split; [done|]. split; [|right; exact Hreq].
      cbn [snd requested traced set_trace trace]. by rewrite app_assoc.
    + eexists _, _. split; [done|]. split; [|right; exact Hreq].
      cbn [snd requested traced set_trace trace]. by rewrite app_assoc.
    + eexists _, ((evs ++ [EvPrint (py "Fetching document from URL: " ++ url); EvHttpGet url])
                  ++ [EvOpenWrite (doc_path rt (document_memory st) url);
                      EvOpenWrite (index_file (document_memory st))]).
      split; [done|]. split.
      * cbn [snd stored requested traced set_trace trace document_memory].
        by rewrite !app_assoc.
      * right. by rewrite filter_app, Hreq.
Qed.

End RetrievalTotal.

(** ** The adapter *)
Section AdapterFacts.

Context (format_exc : exc -> str).

(** What [run] does in a state. *)
Lemma run_run instructions message conversation_id c :
  let prompt := Adapter.run_prompt instructions message in
  Adapter.run format_exc instructions message conversation_id c
  = match llm (Adapter.process c) prompt with
    | ChatContent content =>
        (Ret {| Adapter.message := default (py "None") content;
                Adapter.conversation_id := conversation_id;
                Adapter.tool_calls := [] |},
         {| Adapter.process := traced [EvChat prompt] (Adapter.process c);
            Adapter.logged := Adapter.logged c |})
    | ChatRaises e =>
        (Ret {| Adapter.message := py "An error occurred: " ++ exc_msg e;
                Adapter.conversation_id := VNone;
                Adapter.tool_calls := [] |},
         {| Adapter.process := traced [EvChat prompt] (Adapter.process c);
            Adapter.logged := Adapter.logged c
                              ++ [py "Error running agent: " ++ exc_msg e
                                  ++ [LF] ++ format_exc e] |})
    end.
Proof.
  cbv zeta. unfold Adapter.run, Adapter.run_reply, Tools.chat_completions_create.
  unfold emit, get_state, raise, mbind, M_bind, mret, M_ret. cbn.
  by destruct (llm (Adapter.process c) _) as [e|content].
Qed.

(** Property X21.  [run] never raises and never uses a tool: whatever the
    instructions, the message and the answer of the model are, it returns a
    response without tool calls, and all it does to the process is to send one
    request to the model, with its prompt: nothing is printed, no file is
    opened, no request goes to the web, and the store is as before. *)
Theorem run_sends_one_request instructions message conversation_id c :
  exists response,
    (Adapter.run format_exc instructions message conversation_id c).1 = Ret response
    /\ Adapter.tool_calls response = []
    /\ Adapter.process (Adapter.run format_exc instructions message conversation_id c).2
       = traced [EvChat (Adapter.run_prompt instructions message)] (Adapter.process c).
Proof.
  pose proof (run_run instructions message conversation_id c) as Hrun. cbv zeta in Hrun.
  rewrite Hrun. destruct (llm _ _) as [e|content]; eauto.
Qed.

(** Property X22.  The response of [run].  When the model answers with a text,
    the message is that text and the conversation identifier is the one given;
    when its answer has no text, the message is the word None; when the
    request raises, the message is "An error occurred: " followed by [str(e)],
    the conversation identifier is lost, and the error is logged once, with
    its traceback.  Nothing is logged otherwise. *)
Theorem run_response instructions message conversation_id c :
  let prompt := Adapter.run_prompt instructions message in
  let out := Adapter.run format_exc instructions message conversation_id c in
  (forall content,
     llm (Adapter.process c) prompt = ChatContent content ->
     out.1 = Ret {| Adapter.message := match content with
                                       | Some text => text
                                       | None => py "None"
                                       end;
                    Adapter.conversation_id := conversation_id;
                    Adapter.tool_calls := [] |}
     /\ Adapter.logged out.2 = Adapter.logged c)
  /\ (forall e,
        llm (Adapter.process c) prompt = ChatRaises e ->
        out.1 = Ret {| Adapter.message := py "An error occurred: " ++ exc_msg e;
                       Adapter.conversation_id := VNone;
                       Adapter.tool_calls := [] |}
        /\ Adapter.logged out.2
           = Adapter.logged c
             ++ [py "Error running agent: " ++ exc_msg e ++ [LF] ++ format_exc e]).
Proof.
  cbv zeta. pose proof (run_run instructions message conversation_id c) as Hrun.
  cbv zeta in Hrun. rewrite Hrun. split.
  - intros content ->. by destruct content.
  - by intros e ->.
Qed.

End AdapterFacts.

(** ** The banner and the command [list] *)

Lemma traced_nil st : traced [] st = st.
Proof. unfold traced, set_trace. rewrite app_nil_r. by destruct st. Qed.

Section MainFacts.

Context (rt : Runtime).

(** The lines of a numbered listing. *)
Lemma print_each_run line start docs st :
  Main.print_each line start docs st
  = (Ret (), traced (EvPrint <$> imap (fun i doc => line (start + N.of_nat i) doc) docs) st).
Proof.
  revert start st. induction docs as [|doc docs IH]; intros start st.
  - cbn. by rewrite traced_nil.
  - cbn [Main.print_each]. unfold mbind, M_bind, print, emit.
    change (set_trace (trace st ++ [EvPrint (line start doc)]) st)
      with (traced [EvPrint (line start doc)] st).
    rewrite IH, traced_traced. cbn [imap fmap list_fmap app].
    rewrite N.add_0_r. do 4 f_equal.
    apply imap_ext. intros i x _. cbn. f_equal. lia.
Qed.

Lemma list_command_run st :
  Main.list_command rt st
  = (Ret (),
     traced (EvPrint <$>
               match list_documents (document_memory st) with
               | [] => [[LF] ++ py "No documents in memory yet."]
               | docs =>
                   ([LF] ++ [Main.BOOKS] ++ py " Documents in memory ("
                    ++ Str.of_N (N.of_nat (length docs)) ++ py "):")
                   :: imap (fun i doc => Main.list_line rt (1 + N.of_nat i) doc) docs
               end) st).
Proof.
  unfold Main.list_command, get_state, mbind, M_bind. cbn [fst snd].
  destruct (list_documents (document_memory st)) as [|doc docs] eqn:E; [done|].
  unfold print at 1, emit. rewrite print_each_run.
  change (set_trace (trace st ++ ?evs) st) with (traced evs st).
  by rewrite traced_traced.
Qed.

Lemma dict_get_fresh {A} k (d : list (str * A)) : dict_get k d = None -> k ∉ d.*1.
Proof.
  induction d as [|[k' v] d IH]; [intros _; apply not_elem_of_nil|].
  cbn [dict_get fmap list_fmap fst]. case_bool_decide as Hk; [done|].
  intros Hd. apply not_elem_of_cons. split; [congruence|by apply IH].
Qed.

(** The listing of a store to which a new identifier was added. *)
Lemma list_command_stored url content metadata st :
  dict_get (_generate_doc_id rt url) (document_index (document_memory st)) = None ->
  let st' := stored rt url content metadata st in
  let old := list_documents (document_memory st) in
  let position := Str.of_N (N.of_nat (length old) + 1) in
  Main.list_command rt st'
  = (Ret (),
     traced (EvPrint <$>
               ([LF] ++ [Main.BOOKS] ++ py " Documents in memory (" ++ position ++ py "):")
               :: imap (fun i doc => Main.list_line rt (1 + N.of_nat i) doc) old
               ++ [Main.list_line rt (N.of_nat (length old) + 1)
                     {| listing_id := _generate_doc_id rt url; listing_url := url;
                        listing_metadata := metadata |}]) st').
Proof.
  intros Hnew. cbv zeta. rewrite list_command_run.
  cbn [stored document_memory]. unfold list_documents. cbn [document_index].
  rewrite DumpsFacts.dict_set_fresh by (by apply dict_get_fresh).
  rewrite fmap_app. cbn [fmap list_fmap fst snd info_url info_metadata].
  set (old := _ <$> document_index (document_memory st)).
  destruct (old ++ _) as [|doc docs] eqn:E; [by destruct old|]. rewrite <- E.
  rewrite length_app, imap_app. cbn [length imap].
  replace (N.of_nat (length old + 1)) with (N.of_nat (length old) + 1) by lia.
  by replace (1 + N.of_nat (length old + 0)) with (N.of_nat (length old) + 1) by lia.
Qed.

(** Property X23.  What the command [list] shows after a document came in.
    After a [fetch_document] that fetched the page of a URL whose identifier
    was new, and after a [store_document] of such a URL without metadata, the
    command prints the number of documents, one more than before, the lines of
    the documents that were there, numbered as before, and a last line for the
    URL: with the time of the fetch in the first case, with the words unknown
    time in the second. *)
Theorem list_command_after_fetch url st :
  dict_get (_generate_doc_id rt url) (document_index (document_memory st)) = None ->
  let old := list_documents (document_memory st) in
  let position := Str.of_N (N.of_nat (length old) + 1) in
  let shown fetched st' :=
    Main.list_command rt st'
    = (Ret (),
       traced (EvPrint <$>
                 ([LF] ++ [Main.BOOKS] ++ py " Documents in memory (" ++ position ++ py "):")
                 :: imap (fun i doc => Main.list_line rt (1 + N.of_nat i) doc) old
                 ++ [py "  " ++ position ++ py ". " ++ url
                     ++ py " (fetched: " ++ fetched ++ py ")"]) st') in
  (forall r,
     network st url = HttpResponse r -> Tools.status_error r = None ->
     shown (clock st) (Tools.fetch_document rt url st).2)
  /\ (forall content,
        shown (py "unknown time") (store_document rt url content None st).2).
Proof.
  intros Hnew. cbv zeta. split.
  - intros r Hnet Hok.
    assert ((get_document_by_url rt url st).1 = Ret None) as Hmiss
      by (unfold get_document_by_url; by rewrite get_document_run, Hnew).
    destruct (fetch_document_fetched rt url st r Hmiss Hnet Hok) as [evs ->]. cbn [snd].
    pose proof (list_command_stored url (Re.sub_tags (text r)) (fetched_at st)
                  (requested url (traced evs st)) Hnew) as Hlist.
    cbv zeta in Hlist. by rewrite Hlist.
  - intros content. rewrite store_document_run. cbn [snd default].
    pose proof (list_command_stored url content [] st Hnew) as Hlist.
    cbv zeta in Hlist. by rewrite Hlist.
Qed.

(** The lines of the banner. *)
Lemma print_banner_run st :
  Main.print_banner st
  = (Ret (),
     traced (EvPrint <$>
               [[LF] ++ Main.rule;
                Main.center 60 ([Main.BOOKS] ++ py " Document Analysis Agent " ++ [Main.BOOKS]);
                Main.rule;
                [LF] ++ py "This agent can analyze documents, extract information, and search for content.";
                py "It also has document memory to store and retrieve documents between sessions."]
               ++ match list_documents (document_memory st) with
                  | [] => []
                  | docs =>
                      ([LF] ++ Main.CARD_FILE_BOX ++ py "  " ++ Str.of_N (N.of_nat (length docs))
                       ++ py " documents already in memory:")
                      :: imap (fun i doc => Main.banner_line (1 + N.of_nat i) doc) docs
                  end
               ++ [[LF] ++ py "Commands:";
                   py "  'exit' - Quit the program";
                   py "  'list' - Show stored documents";
                   py "  'help' - Show this help message";
                   Main.rule ++ [LF]]) st).
Proof.
  unfold Main.print_banner, get_state, mbind, M_bind, print, emit. cbn [fst snd].
  repeat change (set_trace (trace ?s ++ ?evs) ?s) with (traced evs s).
  rewrite !traced_traced.
  change (document_memory (traced _ st)) with (document_memory st).
  destruct (list_documents (document_memory st)) as [|doc docs] eqn:E.
  - cbn [mret M_ret]. repeat change (set_trace (trace ?s ++ ?evs) ?s) with (traced evs s).
    by rewrite !traced_traced.
  - rewrite print_each_run.
    repeat change (set_trace (trace ?s ++ ?evs) ?s) with (traced evs s).
    rewrite !traced_traced. do 2 f_equal.
    rewrite !fmap_app. by cbn [fmap list_fmap app].
Qed.

(** Property X24.  [print_banner] only prints, and it shows every document of
    the store: the state is as before but for the printed lines, ten for an
    empty store and one for the count plus one for each document otherwise,
    and the document at position [i] of the listing, counted from 0, has the
    line with the number [i + 1] and its URL, the documents in the order of
    the listing from the seventh line on. *)
Theorem print_banner_shows_documents st :
  exists lines,
    Main.print_banner st = (Ret (), traced (EvPrint <$> lines) st)
    /\ length lines = match list_documents (document_memory st) with
                      | [] => 10%nat
                      | docs => (11 + length docs)%nat
                      end
    /\ forall (i : nat) doc,
         list_documents (document_memory st) !! i = Some doc ->
         lines !! (6 + i)%nat
         = Some (py "  " ++ Str.of_N (N.of_nat i + 1) ++ py ". " ++ listing_url doc).
Proof.
  eexists. split; [apply print_banner_run|].
  destruct (list_documents (document_memory st)) as [|doc0 docs] eqn:E.
  - split; [done|]. by intros i doc.
  - split.
    + rewrite !length_app. cbn [length]. rewrite length_imap. cbn [length]. lia.
    + intros i doc Hdoc. cbn [app].
      change ((?a :: ?b :: ?c :: ?d :: ?e :: ?g :: ?l) !! (6 + i)%nat) with (l !! i).
      rewrite lookup_app_l by (rewrite length_imap; by eapply lookup_lt_Some).
      rewrite list_lookup_imap, Hdoc. cbn. unfold Main.banner_line.
      by rewrite N.add_comm.
Qed.

End MainFacts.

(** ** The further properties on closed examples *)

Lemma index_survives_restart_witness :
  (_load_index encoding_runtime
     (document_memory
        (store_document encoding_runtime example_url (py "some text")
           (Some [(py "fetched_at", VStr (py "2025-01-01 12:00:00.000000"))])
           (fresh_state offline no_model)).2)
     (store_document encoding_runtime example_url (py "some text")
        (Some [(py "fetched_at", VStr (py "2025-01-01 12:00:00.000000"))])
        (fresh_state offline no_model)).2).1
  = Ret (Loaded
           (VDict [(py "documents",
                    VDict [(example_url,
                            VDict [(py "url", VStr example_url);
                                   (py "path",
                                    VStr (py "./document_memory/http://example.com/a.txt"));
                                   (py "metadata",
                                    VDict [(py "fetched_at",
                                            VStr (py "2025-01-01 12:00:00.000000"))])])])])).
Proof.
  destruct (index_survives_restart encoding_runtime 900 example_url (py "some text")
              [(py "fetched_at", VStr (py "2025-01-01 12:00:00.000000"))]
              (fresh_state offline no_model)
              ltac:(vm_compute; reflexivity) ltac:(vm_compute; lia)
              ltac:(vm_compute; reflexivity)) as [Hload _].
  rewrite Hload. vm_compute. reflexivity.
Defined.

Lemma store_document_keeps_others_witness :
  (get_document sample_runtime example_url
     (store_document sample_runtime other_url (py "other text") None
        (store_document sample_runtime example_url (py "some text") None
           (fresh_state offline no_model)).2).2).1
  = Ret (Some {| doc_id := example_url; doc_url := example_url;
                 doc_content := py "some text"; doc_metadata := [] |}).
Proof.
  rewrite (store_document_keeps_others sample_runtime other_url (py "other text") None
             example_url
             {| info_url := example_url;
                info_path := py "./document_memory/http://example.com/a.txt";
                info_metadata := [] |}
             (store_document sample_runtime example_url (py "some text") None
                (fresh_state offline no_model)).2
             ltac:(vm_compute; discriminate) ltac:(vm_compute; reflexivity)
             ltac:(vm_compute; discriminate) ltac:(vm_compute; discriminate)).
  vm_compute. reflexivity.
Defined.

Lemma same_digest_same_document_witness :
  (get_document_by_url one_digest example_url
     (store_document one_digest other_url (py "other text") (Some [])
        (store_document one_digest example_url (py "some text") (Some [])
           (fresh_state offline no_model)).2).2).1
  = Ret (Some {| doc_id := py "d41d8cd98f00b204e9800998ecf8427e"; doc_url := other_url;
                 doc_content := py "other text"; doc_metadata := [] |}).
Proof.
  exact (proj1 (same_digest_same_document one_digest example_url (py "some text") []
                  other_url (py "other text") [] (fresh_state offline no_model) eq_refl)).
Defined.

Lemma listed_documents_are_retrievable_witness :
  exists doc,
    (get_document sample_runtime example_url hi_fetched).1 = Ret (Some doc)
    /\ doc_url doc = example_url
    /\ doc_metadata doc = [(py "fetched_at", VStr (py "2025-01-01 12:00:00.000000"))].
Proof.
  exact (listed_documents_are_retrievable sample_runtime hi_fetched
           {| listing_id := example_url; listing_url := example_url;
              listing_metadata := [(py "fetched_at", VStr (py "2025-01-01 12:00:00.000000"))] |}
           (reachable_call sample_runtime (CallFetchDocument example_url) hi_page
              (reachable_empty sample_runtime hi_page eq_refl))
           ltac:(vm_compute; apply list_elem_of_here)).
Defined.

Lemma fetch_document_strips_tags_witness :
  exists kept,
    (Tools.fetch_document sample_runtime example_url hi_page).1
    = Ret {| Tools.content := kept |}
    /\ ~ has_tag kept
    /\ kept `sublist_of` py "<b>hi</b>".
Proof.
  exact (fetch_document_strips_tags sample_runtime example_url hi_page
           {| status_code := 200; reason := py "OK"; response_url := example_url;
              text := py "<b>hi</b>" |}
           ltac:(vm_compute; reflexivity) eq_refl eq_refl).
Defined.

Lemma fetch_document_then_catalog_witness :
  (Tools.get_document sample_runtime example_url hi_fetched).1
  = Ret {| Tools.found_content := py "hi";
           Tools.metadata := [(py "fetched_at", VStr (py "2025-01-01 12:00:00.000000"))] |}.
Proof.
  exact (proj1 (fetch_document_then_catalog sample_runtime example_url hi_page
                  {| status_code := 200; reason := py "OK"; response_url := example_url;
                     text := py "<b>hi</b>" |}
                  ltac:(vm_compute; reflexivity) eq_refl eq_refl)).
Defined.

Lemma fetch_document_restores_witness :
  (get_document_by_url sample_runtime example_url orphaned_online).1 = Ret None
  /\ (Tools.fetch_document sample_runtime example_url orphaned_online).1
     = Ret {| Tools.content := py "some new text" |}
  /\ (get_document_by_url sample_runtime example_url
        (Tools.fetch_document sample_runtime example_url orphaned_online).2).1
     = Ret (Some {| doc_id := example_url; doc_url := example_url;
                    doc_content := py "some new text";
                    doc_metadata :=
                      [(py "fetched_at", VStr (py "2025-01-01 12:00:00.000000"))] |})
  /\ length (document_index
               (document_memory
                  (Tools.fetch_document sample_runtime example_url orphaned_online).2))
     = 1%nat.
Proof.
  exact (fetch_document_restores sample_runtime example_url orphaned_online
           {| info_url := example_url;
              info_path := py "./document_memory/http://example.com/a.txt";
              info_metadata := [] |}
           {| status_code := 200; reason := py "OK"; response_url := example_url;
              text := py "<p>some <i>new</i> text</p>" |}
           ltac:(vm_compute; reflexivity) (or_introl eq_refl) eq_refl eq_refl).
Defined.

Lemma extract_info_without_bracket_witness :
  (Tools.extract_info sample_runtime (py "a text") (py "names")
     (fresh_state offline (replying object_reply))).1
  = Ret {| Tools.information := VList [VStr (dq "{'names': 'Ann and Bob'}")] |}.
Proof.
  exact (extract_info_without_bracket sample_runtime (py "a text") (py "names")
           (fresh_state offline (replying object_reply)) object_reply
           eq_refl ltac:(vm_compute; reflexivity)).
Defined.

Lemma extract_info_embedded_array_witness :
  (Tools.extract_info sample_runtime (py "a text") (py "names")
     (fresh_state offline (replying chatty_reply))).1
  = Ret {| Tools.information := VList [VStr (py "Ann"); VStr (py "Bob")] |}.
Proof.
  exact (proj1 (extract_info_embedded_array sample_runtime (py "a text") (py "names")
                  (fresh_state offline (replying chatty_reply))
                  (py "Sure! Here you are: ") (dq "'Ann', 'Bob'") (py " I hope this helps.")
                  (VList [VStr (py "Ann"); VStr (py "Bob")])
                  ltac:(vm_compute; reflexivity)
                  ltac:(apply (bool_decide_unpack _); vm_compute; exact I)
                  ltac:(apply (bool_decide_unpack _); vm_compute; exact I)
                  ltac:(vm_compute; reflexivity))).
Defined.

Lemma extract_info_empty_list_witness :
  exists r group0,
    llm (fresh_state offline (replying (py "None found: [ ]")))
      (Tools.extract_prompt sample_runtime (py "a text") (py "names"))
    = ChatContent (Some r)
    /\ Re.search_bracket r = Some group0
    /\ Json.loads (recursion_room sample_runtime) group0 = Json.JOk (VList []).
Proof.
  exact (extract_info_empty_list sample_runtime (py "a text") (py "names")
           (fresh_state offline (replying (py "None found: [ ]")))
           {| Tools.information := VList [] |} _
           ltac:(vm_compute; reflexivity) eq_refl).
Defined.

Lemma extract_info_reads_2000_witness :
  Tools.extract_info sample_runtime (replicate 2000 (chr "a") ++ py "one end") (py "names")
    (fresh_state offline (replying chatty_reply))
  = Tools.extract_info sample_runtime (replicate 2000 (chr "a") ++ py "another") (py "names")
      (fresh_state offline (replying chatty_reply)).
Proof.
  exact (proj2 (extract_info_reads_2000 sample_runtime
                  (replicate 2000 (chr "a") ++ py "one end")
                  (replicate 2000 (chr "a") ++ py "another") (py "names")
                  (fresh_state offline (replying chatty_reply))
                  ltac:(vm_compute; reflexivity))).
Defined.

Lemma search_parse_objects_witness :
  Tools.search_parse sample_runtime mixed_reply = Ret [VStr (py "P1"); VStr (py "P3")].
Proof.
  exact (search_parse_objects sample_runtime mixed_reply mixed_reply
           [VDict [(py "rating", VInt 9); (py "text", VStr (py "P1"))];
            VDict [(py "rating", VInt 7)];
            VDict [(py "text", VStr (py "P3"))]]
           ltac:(vm_compute; reflexivity) ltac:(vm_compute; reflexivity)
           ltac:(repeat constructor; eexists; reflexivity)).
Defined.

Lemma search_parse_without_bracket_witness :
  Tools.search_parse sample_runtime object_reply = Ret [VStr (py "<repr>")].
Proof.
  exact (search_parse_without_bracket sample_runtime object_reply
           ltac:(vm_compute; reflexivity)).
Defined.

Lemma index_file_follows_index_witness :
  files hi_fetched !! py "./document_memory/index.json"
  = Some (Readable (py "<json>")).
Proof.
  exact (index_file_follows_index sample_runtime hi_fetched
           (reachable_call sample_runtime (CallFetchDocument example_url) hi_page
              (reachable_empty sample_runtime hi_page eq_refl))
           ltac:(vm_compute; discriminate)).
Defined.

Example run_model_down :
  (Adapter.run (fun _ => py "<traceback>") (py "Be brief.") (py "what is war") VNone
     {| Adapter.process := fresh_state offline no_model; Adapter.logged := [] |}).1
  = Ret {| Adapter.message := py "An error occurred: Connection error.";
           Adapter.conversation_id := VNone; Adapter.tool_calls := [] |}.
Proof. vm_compute. reflexivity. Qed.

Example run_prompt_lines :
  Adapter.run_prompt (py "Be brief.") (py "what is war")
  = [LF] ++ py "        Be brief." ++ [LF] ++ py "        " ++ [LF]
    ++ py "        User query: what is war" ++ [LF] ++ py "        ".
Proof. reflexivity. Qed.

Example banner_title :
  Main.center 60 ([Main.BOOKS] ++ py " Document Analysis Agent " ++ [Main.BOOKS])
  = replicate 16 (chr " ") ++ [Main.BOOKS] ++ py " Document Analysis Agent " ++ [Main.BOOKS]
    ++ replicate 17 (chr " ").
Proof. vm_compute. reflexivity. Qed.

Example list_command_empty :
  Main.list_command sample_runtime (fresh_state offline no_model)
  = (Ret (), traced [EvPrint ([LF] ++ py "No documents in memory yet.")]
               (fresh_state offline no_model)).
Proof. vm_compute. reflexivity. Qed.

Lemma list_command_after_fetch_witness :
  Main.list_command sample_runtime hi_fetched
  = (Ret (),
     traced [EvPrint ([LF] ++ [Main.BOOKS] ++ py " Documents in memory (1):");
             EvPrint (py "  1. http://example.com/a (fetched: 2025-01-01 12:00:00.000000)")]
       hi_fetched).
Proof.
  exact (proj1 (list_command_after_fetch sample_runtime example_url hi_page eq_refl)
           {| status_code := 200; reason := py "OK"; response_url := example_url;
              text := py "<b>hi</b>" |} eq_refl eq_refl).
Defined.
